(** * The Maze of Osiris: challenge engine, team store and scoring

    A shallow embedding of the Python sources

      - [app/database/database.py]   (class [Database])
      - [app/base_challenge.py]      (class [Challenge])
      - [app/all_challenges.py]      (class [AllChallenges])
      - [app/routes.py]              ([post_submit], [score])
      - [app/__main__.py]            (the [test] and [create] commands)
      - [round_1/base_69], [round_1/random_sequence],
        [round_1/too_much_light]     (codecs and question issuing)

    together with the properties of the scoring rules that the design
    document states about them.

    Conventions of the embedding.

    - A Python [str] is a Rocq [string]; every [ascii] stands for one code
      point below 256.  Where the code makes texts with larger code
      points (the Base69 alphabet, the invisible characters, the texts
      turned into hexadecimal), a text is the list of its code points.
    - The modules [random] and [uuid] are oracles: sequences of draws
      given from outside.  The file system is outside the model.
    - A Python [int] is a [Z].  Floating point numbers are not modelled.
    - A Python [dict] (and a MongoDB document) keeps its keys in insertion
      order, so it is an association list; lookups read the first binding
      of a key and updates overwrite it in place.
    - The MongoDB collection [teams] is the list of its documents in
      insertion order.  The store-generated [_id] field, which the code
      never reads, is left out.
    - Coroutines are run to completion one after the other: an [await]
      is a sequential call.  Exceptions are values of type [exn]; a
      computation returns the store it reached together with its result
      or the exception it raised. *)

From Stdlib Require Import List String Ascii ZArith Lia Bool DecimalString.
From Stdlib Require Import Permutation Sorted NArith.
Import ListNotations.

Set Warnings "-register-all".

Local Open Scope Z_scope.
Local Open Scope string_scope.

(* ================================================================= *)
(** ** Python values and builtins *)

Module Py.

(** JSON-like values: what a request body, a response and a stored
    document are made of. *)
Inductive value : Type :=
| VNone
| VBool (b : bool)
| VInt (z : Z)
| VStr (s : string)
| VList (l : list value)
| VDict (d : list (string * value)).

Definition dict : Type := list (string * value).

(** *** [str] methods *)

(** [str.isspace] on one code point below 256: TAB..CR, FS..US, SPACE,
    NEL and NBSP. *)
Definition is_space (c : ascii) : bool :=
  let n := N_of_ascii c in
  (((9 <=? n) && (n <=? 13)) || ((28 <=? n) && (n <=? 32))
   || (n =? 133) || (n =? 160))%N.

Fixpoint lstrip (s : string) : string :=
  match s with
  | EmptyString => EmptyString
  | String c r => if is_space c then lstrip r else s
  end.

Fixpoint rstrip (s : string) : string :=
  match s with
  | EmptyString => EmptyString
  | String c r =>
      match rstrip r with
      | EmptyString => if is_space c then EmptyString else String c EmptyString
      | r' => String c r'
      end
  end.

(** [s.strip()] *)
Definition strip (s : string) : string := rstrip (lstrip s).

(** [s.split(sep)] for a one-character separator: never the empty list. *)
Fixpoint split (sep : ascii) (s : string) : list string :=
  match s with
  | EmptyString => [EmptyString]
  | String c r =>
      if Ascii.eqb c sep then EmptyString :: split sep r
      else match split sep r with
           | h :: t => String c h :: t
           | [] => [String c EmptyString]
           end
  end.

(** [sep.join(parts)] *)
Fixpoint join (sep : string) (parts : list string) : string :=
  match parts with
  | [] => EmptyString
  | [p] => p
  | p :: rest => p ++ sep ++ join sep rest
  end.

(** [needle in haystack] for two strings: substring test. *)
Fixpoint contains (haystack needle : string) : bool :=
  if String.prefix needle haystack then true
  else match haystack with
       | EmptyString => false
       | String _ r => contains r needle
       end.

Fixpoint has_char (c : ascii) (s : string) : bool :=
  match s with
  | EmptyString => false
  | String c' r => Ascii.eqb c' c || has_char c r
  end.

(** *** [str()] and [repr()] *)

(** [str(n)] for an [int]: decimal digits, a leading [-] when negative. *)
Definition str_int (z : Z) : string := NilZero.string_of_int (Z.to_int z).

Definition hex_digit (n : N) : ascii :=
  ascii_of_N (if (n <? 10)%N then 48 + n else 87 + n)%N.

(** The escape [\xhh] of a code point. *)
Definition hex_escape (c : ascii) : string :=
  let n := N_of_ascii c in
  String "\" (String "x" (String (hex_digit (n / 16)) (String (hex_digit (n mod 16)) ""))).

(** Code points below 256 that [repr] writes as they are. *)
Definition is_printable (c : ascii) : bool :=
  let n := N_of_ascii c in
  (((32 <=? n) && (n <? 127)) || ((161 <=? n) && negb (n =? 173)))%N.

Definition repr_char (quote c : ascii) : string :=
  if Ascii.eqb c quote || Ascii.eqb c "\"%char then String "\" (String c "")
  else if Ascii.eqb c "009"%char then "\t"
  else if Ascii.eqb c "010"%char then "\n"
  else if Ascii.eqb c "013"%char then "\r"
  else if is_printable c then String c ""
  else hex_escape c.

Fixpoint repr_chars (quote : ascii) (s : string) : string :=
  match s with
  | EmptyString => EmptyString
  | String c r => repr_char quote c ++ repr_chars quote r
  end.

(** [repr(s)] for a [str]: single quotes unless the text has a single
    quote and no double quote. *)
Definition repr_str (s : string) : string :=
  let quote := if has_char "'"%char s && negb (has_char "034"%char s)
               then "034"%char else "'"%char in
  String quote (repr_chars quote s ++ String quote "").

Fixpoint py_repr (v : value) : string :=
  match v with
  | VNone => "None"
  | VBool true => "True"
  | VBool false => "False"
  | VInt z => str_int z
  | VStr s => repr_str s
  | VList l => "[" ++ join ", " (map py_repr l) ++ "]"
  | VDict d =>
      "{" ++ join ", "
               (map (fun kv => match kv with
                               | (k, x) => repr_str k ++ ": " ++ py_repr x
                               end) d) ++ "}"
  end.

(** [str(v)]: a string is itself, everything else is its [repr]. *)
Definition py_str (v : value) : string :=
  match v with
  | VStr s => s
  | _ => py_repr v
  end.

(** [bool(v)]: truthiness. *)
Definition truthy (v : value) : bool :=
  match v with
  | VNone => false
  | VBool b => b
  | VInt z => negb (z =? 0)%Z
  | VStr s => negb (s =? "")
  | VList l => match l with [] => false | _ => true end
  | VDict d => match d with [] => false | _ => true end
  end.

(** Structural equality of values, the equality of a filter on a field. *)
Fixpoint value_eqb (a b : value) : bool :=
  match a, b with
  | VNone, VNone => true
  | VBool x, VBool y => Bool.eqb x y
  | VInt x, VInt y => (x =? y)%Z
  | VStr x, VStr y => (x =? y)%string
  | VList x, VList y =>
      (fix go (x y : list value) : bool :=
         match x, y with
         | [], [] => true
         | a :: x', b :: y' => value_eqb a b && go x' y'
         | _, _ => false
         end) x y
  | VDict x, VDict y =>
      (fix go (x y : list (string * value)) : bool :=
         match x, y with
         | [], [] => true
         | (k, a) :: x', (k', b) :: y' =>
             (k =? k')%string && value_eqb a b && go x' y'
         | _, _ => false
         end) x y
  | _, _ => false
  end.

(** *** [dict] operations *)

(** [d.get(k)], with [None] when [k] is not a key. *)
Fixpoint dict_get (d : dict) (k : string) : option value :=
  match d with
  | [] => None
  | (k', v) :: r => if (k =? k')%string then Some v else dict_get r k
  end.

(** [d.get(k, default)] *)
Definition dict_get_default (d : dict) (k : string) (default : value) : value :=
  match dict_get d k with
  | Some v => v
  | None => default
  end.

(** [k in d] *)
Definition dict_mem (d : dict) (k : string) : bool :=
  match dict_get d k with
  | Some _ => true
  | None => false
  end.

(** [d[k] = v]: overwrite in place, or append a new key. *)
Fixpoint dict_set (d : dict) (k : string) (v : value) : dict :=
  match d with
  | [] => [(k, v)]
  | (k', v') :: r =>
      if (k =? k')%string then (k, v) :: r else (k', v') :: dict_set r k v
  end.

(** [a | b]: the keys of [a] in their order with the values of [b] where
    both have the key, then the new keys of [b]. *)
Definition dict_union (a b : dict) : dict :=
  fold_left (fun acc kv => dict_set acc (fst kv) (snd kv)) b a.

Definition dict_keys (d : dict) : list string := map fst d.

End Py.

(* ================================================================= *)
(** ** Exceptions and the store monad *)

(** The exceptions the modelled code raises, or lets the interpreter and
    the driver raise. *)
Inductive exn : Type :=
| HTTPException (status_code : Z) (detail : string)
| ValueError (msg : string)
| TypeError
| KeyError (key : string)
| AttributeError
| IndexError
| WriteError.

(** The world a request handler runs in: the [teams] collection and the
    reading [datetime.now()] gives during the call. *)
Record world : Type := World {
  teams : list Py.dict;
  clock : Py.value
}.

(** A computation reaches a world and either raises or returns. *)
Definition M (A : Type) : Type := world -> (exn + A) * world.

Definition ret {A} (a : A) : M A := fun w => (inr a, w).

Definition raise {A} (e : exn) : M A := fun w => (inl e, w).

Definition bind {A B} (c : M A) (k : A -> M B) : M B :=
  fun w =>
    match c w with
    | (inl e, w') => (inl e, w')
    | (inr a, w') => k a w'
    end.

Notation "x <- c ;; k" := (bind c (fun x => k))
  (at level 61, c at next level, right associativity).
Notation "c ;;; k" := (bind c (fun _ => k))
  (at level 61, right associativity).

(** Lift a pure step that may raise. *)
Definition lift {A} (r : exn + A) : M A :=
  match r with
  | inl e => raise e
  | inr a => ret a
  end.

(* ================================================================= *)
(** ** The document store *)

(** What the code uses of MongoDB through the Motor driver: equality
    filters, [insert_one], [find_one], [count_documents] and [update_one]
    with the operators [$inc], [$push] and [$set] on dotted paths.  One
    [update_one] is atomic: all its operators apply, or none.  Query
    operators, positional paths into arrays and the 64-bit range of
    stored integers are outside the model. *)
Module Mongo.
Import Py.

(** A document matches an equality filter when each filtered field has
    the given value; a missing field reads as null.  The filter value is
    compared as a value: this is MongoDB's match for the string ids of
    the teams; an operator document such as [{"$ne": null}] in the
    place of an id is not evaluated. *)
Definition matches (filter doc : dict) : bool :=
  forallb (fun kv => match dict_get doc (fst kv) with
                     | Some v => value_eqb v (snd kv)
                     | None => value_eqb VNone (snd kv)
                     end) filter.

Definition find_one (filter : dict) (coll : list dict) : option dict :=
  find (matches filter) coll.

Inductive update_op : Type :=
| Inc (path : string) (amount : Z)
| Push (path : string) (item : value)
| Set_ (path : string) (v : value).

(** Rewrite the field at a dotted path with [f], which sees the current
    value if there is one.  Missing embedded documents are created on the
    way; a scalar on the way, or an empty field name, is a write error.
    This is MongoDB's update on paths through embedded documents, the
    only ones the code writes; an array on the way, whose elements
    MongoDB addresses by index, is a write error here. *)
Fixpoint update_path (segs : list string) (f : option value -> option value)
                     (d : dict) : option dict :=
  match segs with
  | [] => None
  | k :: rest =>
      if (k =? "")%string then None
      else match rest with
           | [] => option_map (dict_set d k) (f (dict_get d k))
           | _ :: _ =>
               match dict_get d k with
               | None =>
                   option_map (fun sub => dict_set d k (VDict sub))
                              (update_path rest f [])
               | Some (VDict sub) =>
                   option_map (fun sub' => dict_set d k (VDict sub'))
                              (update_path rest f sub)
               | Some _ => None
               end
           end
  end.

(** [$inc]: a missing field starts from the amount, a number is added
    to, anything else is a write error. *)
Definition inc_field (amount : Z) (cur : option value) : option value :=
  match cur with
  | None => Some (VInt amount)
  | Some (VInt m) => Some (VInt (m + amount))
  | Some _ => None
  end.

(** [$push]: a missing field becomes a one-element array, an array is
    appended to, anything else is a write error. *)
Definition push_field (item : value) (cur : option value) : option value :=
  match cur with
  | None => Some (VList [item])
  | Some (VList l) => Some (VList (l ++ [item])%list)
  | Some _ => None
  end.

Definition set_field (v : value) (cur : option value) : option value := Some v.

Definition apply_op (op : update_op) (doc : dict) : option dict :=
  match op with
  | Inc path amount => update_path (split "." path) (inc_field amount) doc
  | Push path item => update_path (split "." path) (push_field item) doc
  | Set_ path v => update_path (split "." path) (set_field v) doc
  end.

Fixpoint apply_update (ops : list update_op) (doc : dict) : option dict :=
  match ops with
  | [] => Some doc
  | op :: rest =>
      match apply_op op doc with
      | Some doc' => apply_update rest doc'
      | None => None
      end
  end.

(** Update the first document that matches; no match is not an error. *)
Fixpoint update_first (filter : dict) (ops : list update_op)
                      (coll : list dict) : option (list dict) :=
  match coll with
  | [] => Some []
  | doc :: rest =>
      if matches filter doc
      then option_map (fun doc' => doc' :: rest) (apply_update ops doc)
      else option_map (cons doc) (update_first filter ops rest)
  end.

(** [await teams.find_one(filter)] *)
Definition find_one_ (filter : dict) : M (option dict) :=
  fun w => (inr (find_one filter (teams w)), w).

(** [await teams.count_documents({})] *)
Definition count_documents : M Z :=
  fun w => (inr (Z.of_nat (List.length (teams w))), w).

(** [await teams.insert_one(doc)] *)
Definition insert_one (doc : dict) : M unit :=
  fun w => (inr tt, World (teams w ++ [doc])%list (clock w)).

(** [await teams.update_one(filter, update)] *)
Definition update_one (filter : dict) (ops : list update_op) : M unit :=
  fun w =>
    match update_first filter ops (teams w) with
    | Some coll => (inr tt, World coll (clock w))
    | None => (inl WriteError, w)
    end.

End Mongo.

(** [datetime.now()], as the store keeps it. *)
Definition datetime_now : M Py.value := fun w => (inr (clock w), w).

(* ================================================================= *)
(** ** [database.py]: class [Database] *)

Module Database.
Import Py Mongo.

(** The filter [{"team_id": team_id}]. *)
Definition by_team_id (team_id : value) : dict := [("team_id", team_id)].

(** [get_team]: the first team document with this [team_id], or [None].
    The id is whatever the caller passes: [validate] passes the value it
    finds in the request body. *)
Definition get_team (team_id : value) : M (option dict) :=
  find_one_ (by_team_id team_id).

Definition is_team_exists (team_id : value) : M bool :=
  team <- get_team team_id ;;
  ret (match team with Some _ => true | None => false end).

(** The document of a new team.  A [defaultdict(int)] with no entry is
    stored as the empty document. *)
Definition new_team (count : Z) (team_id team_name : string) : dict :=
  [ ("team_no", VInt count);
    ("team_id", VStr team_id);
    ("team_name", VStr team_name);
    ("total_attempts", VDict []);
    ("incorrect_attempts", VDict []);
    ("cleared_challenges", VList []);
    ("points", VDict []);
    ("total_points", VInt 0);
    ("time", VDict []);
    ("hints", VDict []);
    ("questions", VDict []) ].

(** [create_team]: [team_name or f"Team - {count}"] takes the default
    for [None] and for the empty string. *)
Definition create_team (team_id : string) (team_name : option string) : M string :=
  count <- count_documents ;;
  let team_name :=
    match team_name with
    | Some n => if (n =? "")%string then "Team - " ++ str_int count else n
    | None => "Team - " ++ str_int count
    end in
  insert_one (new_team count team_id team_name) ;;;
  ret team_id.

(** The [$inc] part of [update_operation]. *)
Definition inc_operation (points : Z) (is_correct : bool)
                         (challenge_name : string) : list update_op :=
  [ Inc ("points." ++ challenge_name) points;
    Inc "total_points" points;
    Inc ("total_attempts." ++ challenge_name) 1;
    Inc ("incorrect_attempts." ++ challenge_name)
        (if negb is_correct then 1 else 0) ].

(** The [$push] and [$set] parts a correct answer adds. *)
Definition cleared_operation (challenge_name : string) (now : value)
  : list update_op :=
  [ Push "cleared_challenges" (VStr challenge_name);
    Set_ ("time." ++ challenge_name) now ].

(** [update_score]: one [update_one] with [update_operation], after the
    check that the team exists. *)
Definition update_score (team_id : value) (is_correct : bool) (points : Z)
                        (challenge_name : string) : M unit :=
  team <- get_team team_id ;;
  match team with
  | None => raise (ValueError ("Team with ID " ++ py_str team_id ++ " not found."))
  | Some _ =>
      let points := if is_correct then points else - points in
      let update_operation := inc_operation points is_correct challenge_name in
      if is_correct then
        now <- datetime_now ;;
        update_one (by_team_id team_id)
                   (update_operation ++ cleared_operation challenge_name now)%list
      else
        update_one (by_team_id team_id) update_operation
  end.

Definition update_value (team_id : value) (key : string) (v : value) : M unit :=
  update_one (by_team_id team_id) [Set_ key v].

(** The loop of [get_nested_value] over [path.split(".")]. *)
Fixpoint get_nested_loop (keys : list string) (json_data default : value) : value :=
  match keys with
  | [] => json_data
  | key :: rest =>
      match json_data with
      | VDict d => get_nested_loop rest (dict_get_default d key default) default
      | _ => default
      end
  end.

Definition get_nested_value (json_data : value) (path : string)
                            (default : value) : value :=
  get_nested_loop (split "." path) json_data default.

(** [update_hint_score]: the score update of a wrong answer, then a
    second [update_one] for the hint count. *)
Definition update_hint_score (team_id : value) (challenge_name : string)
                             (points : Z) : M unit :=
  update_score team_id false points challenge_name ;;;
  update_one (by_team_id team_id) [Inc ("hints." ++ challenge_name) 1].

Definition get_all_teams : M (list dict) := fun w => (inr (teams w), w).

End Database.

(* ================================================================= *)
(** ** [base_challenge.py]: class [Challenge] *)

Module Challenge.
Import Py.

(** The attributes of a challenge instance.  [challenge_id] is [None]
    until question generation assigns it. *)
Record challenge : Type := {
  points : Z;
  penalty : Z;
  hints : list (Z * string);
  challenge_id : value
}.

(** [enumerate(l)] counting from [start]. *)
Fixpoint enumerate {A} (start : Z) (l : list A) : list (Z * A) :=
  match l with
  | [] => []
  | x :: r => (start, x) :: enumerate (start + 1) r
  end.

(** The comprehension under [hints_list]: the text of each hint is
    bound to [_] and dropped. *)
Definition hints_list (hs : list (Z * string)) : list value :=
  map (fun ih => match ih with
                 | (index, (hint_points, _)) =>
                     VDict [("hint_no", VInt (index + 1));
                            ("points", VInt hint_points)]
                 end) (enumerate 0 hs).

Definition additional_info (self : challenge) : dict :=
  [ ("challenge_id", challenge_id self);
    ("points", VInt (points self));
    ("penalty", VInt (penalty self));
    ("hints", VDict [ ("count", VInt (Z.of_nat (List.length (hints self))));
                      ("hints_list", VList (hints_list (hints self))) ]) ].

(** [question | additional_info] *)
Definition generate_full_question (self : challenge) (question : dict) : dict :=
  dict_union question (additional_info self).

End Challenge.

(* ================================================================= *)
(** ** [all_challenges.py]: class [AllChallenges] *)

Module AllChallenges.
Import Py Database.
Export Challenge.

(** The two class-level tables, both keyed by the challenge id. *)
Record all_challenges : Type := {
  challenges_id : list (string * string);
  challenges_classes : list (string * challenge)
}.

Fixpoint assoc {A} (k : string) (l : list (string * A)) : option A :=
  match l with
  | [] => None
  | (k', a) :: r => if (k =? k')%string then Some a else assoc k r
  end.

(** [key in table] for a table with string keys: a list or a dict is not
    hashable, no other non-string equals a key. *)
Definition table_mem {A} (table : list (string * A)) (key : value) : exn + bool :=
  match key with
  | VStr s => inr (match assoc s table with Some _ => true | None => false end)
  | VList _ | VDict _ => inl TypeError
  | _ => inr false
  end.

(** [table[key]] *)
Definition table_get {A} (table : list (string * A)) (key : value) : exn + A :=
  match key with
  | VStr s => match assoc s table with
              | Some a => inr a
              | None => inl (KeyError (repr_str s))
              end
  | VList _ | VDict _ => inl TypeError
  | _ => inl (KeyError (py_repr key))
  end.

(** [team.get(...)] needs [team] to be a document. *)
Definition the_team (team : option dict) : exn + dict :=
  match team with
  | Some doc => inr doc
  | None => inl AttributeError
  end.

(** [s in container] for a string [s]. *)
Definition str_in (s : string) (container : value) : exn + bool :=
  match container with
  | VList l => inr (existsb (value_eqb (VStr s)) l)
  | VDict d => inr (dict_mem d s)
  | VStr t => inr (contains t s)
  | _ => inl TypeError
  end.

(** A stored number as an operand of [+], [-] and [>=]. *)
Definition as_int (v : value) : exn + Z :=
  match v with
  | VInt z => inr z
  | VBool b => inr (if b then 1 else 0)
  | _ => inl TypeError
  end.

(** [d.keys()] and [d.items()] need a dict. *)
Definition as_dict (v : value) : exn + dict :=
  match v with
  | VDict d => inr d
  | _ => inl AttributeError
  end.

Definition validate_team_id (team_id : value) : M unit :=
  match team_id with
  | VNone => raise (HTTPException 422 "team_id parameter missing.")
  | _ =>
      ok <- is_team_exists team_id ;;
      if negb ok then raise (HTTPException 400 "team_id invalid") else ret tt
  end.

Definition validate_team_and_challenge_id (self : all_challenges)
    (team_id challenge_id : value) : M unit :=
  validate_team_id team_id ;;;
  match challenge_id with
  | VNone => raise (HTTPException 422 "challenge_id parameter missing.")
  | _ =>
      known <- lift (table_mem (challenges_id self) challenge_id) ;;
      if negb known then raise (HTTPException 400 "challenge_id invalid")
      else ret tt
  end.

(** [str(data.get(key)).strip() != str(value).strip()] *)
Definition differs (data : dict) (kv : string * value) : bool :=
  negb (strip (py_str (dict_get_default data (fst kv) VNone))
        =? strip (py_str (snd kv)))%string.

Definition already_cleared (challenge_id : value) (challenge_name : string) : dict :=
  [ ("challenge_id", challenge_id);
    ("challenge_name", VStr challenge_name);
    ("status", VStr "info");
    ("message", VStr "You have already cleared this level.") ].

Definition validate (self : all_challenges) (data : dict) : M dict :=
  let challenge_id := dict_get_default data "challenge_id" VNone in
  let team_id := dict_get_default data "team_id" VNone in
  validate_team_and_challenge_id self team_id challenge_id ;;;
  team <- get_team team_id ;;
  team <- lift (the_team team) ;;
  let total_score := dict_get_default team "total_points" (VInt 0) in
  let cleared_challenges := dict_get_default team "cleared_challenges" VNone in
  challenge_name <- lift (table_get (challenges_id self) challenge_id) ;;
  challenge_cls <- lift (table_get (challenges_classes self) challenge_id) ;;
  cleared <- lift (str_in challenge_name cleared_challenges) ;;
  if cleared then
    ret (already_cleared challenge_id challenge_name
           ++ [("total_score", total_score)])%list
  else
    let data_to_validate :=
      get_nested_value (VDict team) ("data_to_validate." ++ challenge_name) VNone in
    if negb (truthy data_to_validate) then
      raise (HTTPException 500
               ("Data validation information is missing. "
                ++ "Please make a GET request to /question to retrieve the necessary data."))
    else
      expected <- lift (as_dict data_to_validate) ;;
      match find (fun key => negb (dict_mem data key)) (dict_keys expected) with
      | Some key =>
          raise (HTTPException 422 ("Missing required parameter: " ++ key))
      | None =>
          match find (differs data) expected with
          | Some _ =>
              let penalty := penalty challenge_cls in
              update_score team_id false penalty challenge_name ;;;
              total <- lift (as_int total_score) ;;
              ret [ ("challenge_id", challenge_id);
                    ("challenge_name", VStr challenge_name);
                    ("status", VStr "failure");
                    ("message", VStr "Your answer is incorrect.");
                    ("penalty_points", VInt penalty);
                    ("total_score", VInt (total - penalty)) ]
          | None =>
              let points := points challenge_cls in
              update_score team_id true points challenge_name ;;;
              total <- lift (as_int total_score) ;;
              ret [ ("challenge_id", challenge_id);
                    ("challenge_name", VStr challenge_name);
                    ("status", VStr "success");
                    ("message", VStr "Your answer is correct.");
                    ("points_awarded", VInt points);
                    ("total_score", VInt (total + points)) ]
          end
      end.

Definition hint_error_message (hints_count : Z) : string :=
  if (hints_count =? 0)%Z then "No hints available for this level."
  else if (hints_count =? 1)%Z then "There is only one hint available for this level."
  else "Invalid hint number. "
       ++ "Please provide a hint number between 1 and " ++ str_int hints_count ++ ".".

Definition get_hint (self : all_challenges) (team_id challenge_id : value)
                    (hint_no : Z) : M dict :=
  validate_team_and_challenge_id self team_id challenge_id ;;;
  challenge_name <- lift (table_get (challenges_id self) challenge_id) ;;
  challenge_cls <- lift (table_get (challenges_classes self) challenge_id) ;;
  team <- get_team team_id ;;
  team <- lift (the_team team) ;;
  let cleared_challenges := dict_get_default team "cleared_challenges" VNone in
  cleared <- lift (str_in challenge_name cleared_challenges) ;;
  if cleared then ret (already_cleared challenge_id challenge_name)
  else
    let hints_count := Z.of_nat (List.length (hints challenge_cls)) in
    if (0 <? hint_no)%Z && (hint_no <=? hints_count)%Z then
      let hints_taken :=
        get_nested_value (VDict team) ("hints." ++ challenge_name) (VInt 0) in
      hints_taken <- lift (as_int hints_taken) ;;
      if (hints_taken + 1 >=? hint_no)%Z then
        let total_score := dict_get_default team "total_points" (VInt 0) in
        match nth_error (hints challenge_cls) (Z.to_nat (hint_no - 1)) with
        | None => raise IndexError
        | Some (hint_cost, hint) =>
            let response :=
              [ ("challenge_id", challenge_id);
                ("challenge_name", VStr challenge_name);
                ("status", VStr "sucess");
                ("hint_no", VInt hint_no);
                ("hint", VStr hint);
                ("total_score", total_score) ] in
            if (hints_taken + 1 =? hint_no)%Z then
              let response := dict_set response "hint_cost" (VInt hint_cost) in
              total <- lift (as_int total_score) ;;
              let response :=
                dict_set response "total_score" (VInt (total - hint_cost)) in
              update_hint_score team_id challenge_name hint_cost ;;;
              ret response
            else ret response
        end
      else
        ret [ ("status", VStr "failure");
              ("message",
               VList [VStr ("Hint request must follow sequential order."
                            ++ "Middle hints cannot be requested.")]) ]
    else raise (HTTPException 400 (hint_error_message hints_count)).

End AllChallenges.

(* ================================================================= *)
(** ** Observations on team documents *)

(** How the properties below read a team document: through the same
    lookups the code uses ([team.get] and [get_nested_value] with the
    default of a [defaultdict(int)]). *)
Module Team.
Import Py Database.

(** A challenge is named after its class, so its name is never empty and
    has no dot: it is one segment of a dotted path. *)
Definition field_name (s : string) : bool :=
  negb (s =? "")%string && negb (has_char "." s).

Definition is_int (v : value) : bool :=
  match v with VInt _ => true | _ => false end.

(** A document of integer counters. *)
Definition counters (v : value) : bool :=
  match v with
  | VDict d => forallb (fun kv => is_int (snd kv)) d
  | _ => false
  end.

Definition is_dict (v : value) : bool :=
  match v with VDict _ => true | _ => false end.

Definition is_list (v : value) : bool :=
  match v with VList _ => true | _ => false end.

Definition has (doc : dict) (k : string) (p : value -> bool) : bool :=
  match dict_get doc k with
  | Some v => p v
  | None => false
  end.

(** The shape [create_team] gives a team document and every update of
    [Database] keeps. *)
Definition team_schema (doc : dict) : bool :=
  has doc "total_attempts" counters
  && has doc "incorrect_attempts" counters
  && has doc "cleared_challenges" is_list
  && has doc "points" counters
  && has doc "total_points" is_int
  && has doc "time" is_dict
  && has doc "hints" counters.

Definition int_of (v : value) : Z :=
  match v with VInt z => z | _ => 0 end.

(** [total_points] *)
Definition total_points (doc : dict) : Z :=
  int_of (dict_get_default doc "total_points" (VInt 0)).

(** [field[challenge_name]] for one of the per-challenge counters
    [points], [total_attempts], [incorrect_attempts] and [hints]. *)
Definition counter (field : string) (doc : dict) (challenge_name : string) : Z :=
  int_of (get_nested_value (VDict doc) (field ++ "." ++ challenge_name) (VInt 0)).

(** [cleared_challenges] *)
Definition cleared_challenges (doc : dict) : list value :=
  match dict_get doc "cleared_challenges" with
  | Some (VList l) => l
  | _ => []
  end.

(** [time[challenge_name]], if stamped. *)
Definition time_of (doc : dict) (challenge_name : string) : value :=
  get_nested_value (VDict doc) ("time." ++ challenge_name) VNone.

(** The sum of the integer entries of a document. *)
Fixpoint sum_values (d : dict) : Z :=
  match d with
  | [] => 0
  | (_, VInt z) :: r => z + sum_values r
  | _ :: r => sum_values r
  end.

(** The sum over all challenges of [points[challenge]]. *)
Definition sum_points (doc : dict) : Z :=
  match dict_get doc "points" with
  | Some (VDict d) => sum_values d
  | _ => 0
  end.

(** The top-level fields a score update writes. *)
Definition score_fields : list string :=
  ["points"; "total_points"; "total_attempts"; "incorrect_attempts"].

(** The fields a correct answer writes besides. *)
Definition cleared_fields : list string := ["cleared_challenges"; "time"].

Definition among (fields : list string) (k : string) : bool :=
  existsb (String.eqb k) fields.

(** What one [$inc] of [update_score] does to a team document: the
    amount goes to the challenge and to the total, the attempt is
    counted, and a miss is counted when there is one. *)
Record inc_step (amount missed : Z) (p : string) (doc doc' : dict) : Prop := {
  step_points : counter "points" doc' p = counter "points" doc p + amount;
  step_total : total_points doc' = total_points doc + amount;
  step_attempts :
    counter "total_attempts" doc' p = counter "total_attempts" doc p + 1;
  step_incorrect :
    counter "incorrect_attempts" doc' p
    = counter "incorrect_attempts" doc p + missed;
  step_sum : sum_points doc' = sum_points doc + amount;
  step_schema : team_schema doc' = true;
  step_frame :
    forall k, among score_fields k = false -> dict_get doc' k = dict_get doc k
}.

(** What the [$push] and [$set] of a correct answer do. *)
Record cleared_step (p : string) (now : value) (doc doc' : dict) : Prop := {
  cstep_cleared : cleared_challenges doc' = (cleared_challenges doc ++ [VStr p])%list;
  cstep_time : time_of doc' p = now;
  cstep_schema : team_schema doc' = true;
  cstep_frame :
    forall k, among cleared_fields k = false -> dict_get doc' k = dict_get doc k
}.

Arguments step_points {amount missed p doc doc'}.
Arguments step_total {amount missed p doc doc'}.
Arguments step_attempts {amount missed p doc doc'}.
Arguments step_incorrect {amount missed p doc doc'}.
Arguments step_sum {amount missed p doc doc'}.
Arguments step_schema {amount missed p doc doc'}.
Arguments step_frame {amount missed p doc doc'}.
Arguments cstep_cleared {p now doc doc'}.
Arguments cstep_time {p now doc doc'}.
Arguments cstep_schema {p now doc doc'}.
Arguments cstep_frame {p now doc doc'}.

(** What one [update_score] does to the document of its team. *)
Record scored (is_correct : bool) (points : Z) (p : string) (now : value)
              (doc doc' : dict) : Prop := {
  scored_points :
    counter "points" doc' p
    = counter "points" doc p + (if is_correct then points else - points);
  scored_total :
    total_points doc'
    = total_points doc + (if is_correct then points else - points);
  scored_attempts :
    counter "total_attempts" doc' p = counter "total_attempts" doc p + 1;
  scored_incorrect :
    counter "incorrect_attempts" doc' p
    = counter "incorrect_attempts" doc p + (if is_correct then 0 else 1);
  scored_sum :
    sum_points doc'
    = sum_points doc + (if is_correct then points else - points);
  scored_schema : team_schema doc' = true;
  scored_cleared :
    cleared_challenges doc' =
    if is_correct then (cleared_challenges doc ++ [VStr p])%list
    else cleared_challenges doc;
  scored_time :
    if is_correct then time_of doc' p = now
    else dict_get doc' "time" = dict_get doc "time";
  scored_frame :
    forall k, among (score_fields ++ cleared_fields) k = false ->
              dict_get doc' k = dict_get doc k
}.

Arguments scored_points {is_correct points p now doc doc'}.
Arguments scored_total {is_correct points p now doc doc'}.
Arguments scored_attempts {is_correct points p now doc doc'}.
Arguments scored_incorrect {is_correct points p now doc doc'}.
Arguments scored_sum {is_correct points p now doc doc'}.
Arguments scored_schema {is_correct points p now doc doc'}.
Arguments scored_cleared {is_correct points p now doc doc'}.
Arguments scored_time {is_correct points p now doc doc'}.
Arguments scored_frame {is_correct points p now doc doc'}.

(** What one [update_hint_score] does to the document of its team. *)
Record hinted (cost : Z) (p : string) (doc doc' : dict) : Prop := {
  hinted_taken : counter "hints" doc' p = counter "hints" doc p + 1;
  hinted_points : counter "points" doc' p = counter "points" doc p - cost;
  hinted_total : total_points doc' = total_points doc - cost;
  hinted_attempts :
    counter "total_attempts" doc' p = counter "total_attempts" doc p + 1;
  hinted_incorrect :
    counter "incorrect_attempts" doc' p
    = counter "incorrect_attempts" doc p + 1;
  hinted_sum : sum_points doc' = sum_points doc - cost;
  hinted_schema : team_schema doc' = true;
  hinted_cleared : cleared_challenges doc' = cleared_challenges doc;
  hinted_frame :
    forall k, among ("hints" :: score_fields ++ cleared_fields) k = false ->
              dict_get doc' k = dict_get doc k
}.

Arguments hinted_taken {cost p doc doc'}.
Arguments hinted_points {cost p doc doc'}.
Arguments hinted_total {cost p doc doc'}.
Arguments hinted_attempts {cost p doc doc'}.
Arguments hinted_incorrect {cost p doc doc'}.
Arguments hinted_sum {cost p doc doc'}.
Arguments hinted_schema {cost p doc doc'}.
Arguments hinted_cleared {cost p doc doc'}.
Arguments hinted_frame {cost p doc doc'}.

(** A team document in good standing: it has the shape of a team and
    its total is the sum of its per-challenge points. *)
Definition balanced (doc : dict) : Prop :=
  team_schema doc = true /\ total_points doc = sum_points doc.

(** The per-challenge tables of a team document. *)
Definition counter_fields : list string :=
  ["points"; "hints"; "total_attempts"; "incorrect_attempts"].

(** The submitted value under the key of an expected value equals it
    as a trimmed string. *)
Definition same_trimmed (data : dict) (kv : string * value) : Prop :=
  strip (py_str (dict_get_default data (fst kv) VNone)) = strip (py_str (snd kv)).

(** The response field [k], [None] when absent. *)
Definition field (response : dict) (k : string) : value :=
  dict_get_default response k VNone.

(** The comparison [validate] makes of a submitted value with an
    expected one. *)
Definition same_answer (submitted expected : value) : Prop :=
  strip (py_str submitted) = strip (py_str expected).

(** A text made of blanks, the characters [str.strip] takes away. *)
Definition blank (s : string) : bool :=
  forallb is_space (list_ascii_of_string s).

(** A text with no blank at either end. *)
Definition tight (s : string) : bool :=
  match list_ascii_of_string s with
  | [] => true
  | c :: r => negb (is_space c) && negb (is_space (last r c))
  end.

(** [s] is [core] with blanks before it and after it. *)
Definition padded (core s : string) : Prop :=
  exists before after,
    blank before = true /\ blank after = true /\ s = before ++ core ++ after.

(** A text of printable ASCII characters other than the single quote
    and the backslash: [repr] writes it as it is between single
    quotes. *)
Definition plain (s : string) : bool :=
  forallb (fun c => let n := N_of_ascii c in
                    ((32 <=? n) && (n <? 127) && negb (n =? 39)
                     && negb (n =? 92))%N)
          (list_ascii_of_string s).

(** [repr] of a plain text. *)
Definition quoted (s : string) : string := "'" ++ s ++ "'".

(** A name MongoDB takes for a field in an update: not empty, no
    leading [$], no NUL. *)
Definition storage_name (s : string) : bool :=
  negb (s =? "")%string && negb (String.prefix "$" s)
  && negb (has_char "000"%char s).

(** The path leads through embedded documents only: its names are
    field names, and a field on the way that exists is a document.  On
    such a path [$set] reaches its field, in MongoDB as in the model;
    a path through an array is not of this kind. *)
Fixpoint through_documents (segs : list string) (d : dict) : bool :=
  match segs with
  | [] => false
  | k :: rest =>
      storage_name k
      && match rest with
         | [] => true
         | _ :: _ =>
             match dict_get d k with
             | None => forallb storage_name rest
             | Some (VDict sub) => through_documents rest sub
             | Some _ => false
             end
         end
  end.

(** A value the driver encodes and the store takes: integers of 64
    bits, documents with field names that have no dot. *)
Fixpoint storable (v : value) : bool :=
  match v with
  | VInt z => (- 2 ^ 63 <=? z)%Z && (z <? 2 ^ 63)%Z
  | VList l => forallb storable l
  | VDict d =>
      forallb (fun kv => storage_name (fst kv) && negb (has_char "." (fst kv))
                         && storable (snd kv)) d
  | _ => true
  end.

End Team.

(* ================================================================= *)
(** ** Histories of the team store *)

Module History.
Import Py Database Team.

(** The store operations that create and score teams. *)
Inductive operation : Type :=
| CreateTeam (team_id : string) (team_name : option string)
| UpdateScore (team_id : value) (is_correct : bool) (points : Z)
              (challenge_name : string)
| UpdateHintScore (team_id : value) (challenge_name : string) (points : Z).

(** The operation names a challenge the way the engine does. *)
Definition well_named (o : operation) : bool :=
  match o with
  | CreateTeam _ _ => true
  | UpdateScore _ _ _ challenge_name => field_name challenge_name
  | UpdateHintScore _ challenge_name _ => field_name challenge_name
  end.

(** The world an operation leaves, whether it returned or raised. *)
Definition after (o : operation) (w : world) : world :=
  match o with
  | CreateTeam team_id team_name => snd (create_team team_id team_name w)
  | UpdateScore team_id is_correct points challenge_name =>
      snd (update_score team_id is_correct points challenge_name w)
  | UpdateHintScore team_id challenge_name points =>
      snd (update_hint_score team_id challenge_name points w)
  end.

(** The worlds a sequence of operations reaches from the empty
    collection, the clock moving freely in between. *)
Inductive reachable : world -> Prop :=
| reach_empty (now : value) : reachable (World [] now)
| reach_tick (w : world) (now : value) :
    reachable w -> reachable (World (teams w) now)
| reach_after (w : world) (o : operation) :
    reachable w -> well_named o = true -> reachable (after o w).

(** Run a list of operations in order. *)
Definition run (ops : list operation) (w : world) : world :=
  fold_left (fun w o => after o w) ops w.

End History.

(* ================================================================= *)
(** ** The behaviour the design document words for [get_nested] *)

Module Design.
Import Py.

(** Follows the design document: walk the path, end on the default as
    soon as a segment is missing or the value at hand is no mapping,
    otherwise end on the value reached. *)
Fixpoint get_nested_walk (segments : list string) (record default : value)
  : value :=
  match segments with
  | [] => record
  | segment :: rest =>
      match record with
      | VDict d =>
          match dict_get d segment with
          | Some v => get_nested_walk rest v default
          | None => default
          end
      | _ => default
      end
  end.

Definition get_nested (record : value) (dotted_path : string) (default : value)
  : value :=
  get_nested_walk (split "." dotted_path) record default.

End Design.

(* ================================================================= *)
(** ** Sample data *)

Module Sample.
Import Py Database AllChallenges.

(** Two challenges of round 1 as their classes declare them, and a
    challenge with two hints. *)
Definition base69 : challenge :=
  {| points := 200; penalty := 40; hints := []; challenge_id := VNone |}.

Definition needle : challenge :=
  {| points := 400; penalty := 50;
     hints := [(200, "Extract all the strings")]; challenge_id := VNone |}.

Definition riddle : challenge :=
  {| points := 300; penalty := 50;
     hints := [(100, "first clue"); (150, "second clue")];
     challenge_id := VNone |}.

Definition engine : all_challenges :=
  {| challenges_id :=
       [("1", "Base69"); ("2", "NeedleInTheHaystack"); ("3", "Riddle")];
     challenges_classes := [("1", base69); ("2", needle); ("3", riddle)] |}.

Definition noon : value := VInt 1718000000000.

(** The test team of [config.py], freshly created. *)
Definition fresh : world := snd (create_team "123" (Some "Team Test") (World [] noon)).

(** The test team once its questions are generated. *)
Definition issued : world :=
  snd ((update_value (VStr "123") "data_to_validate.Base69"
          (VDict [("encoded_string", VStr "abc"); ("decoded_string", VStr "42")]) ;;;
        update_value (VStr "123") "data_to_validate.Riddle"
          (VDict [("flag", VStr "osiris")]))
         fresh).

(** The test team after it took the first hint of Riddle. *)
Definition hinted_once : world :=
  snd (update_hint_score (VStr "123") "Riddle" 100 issued).

(** The test team after it cleared Base69. *)
Definition cleared_base69 : world :=
  snd (update_score (VStr "123") true 200 "Base69" issued).

(** The one team record of a sample world. *)
Definition team_of (w : world) : dict := hd [] (teams w).

(** The expected answers of the test team for Base69. *)
Definition expected_base69 : dict :=
  [("encoded_string", VStr "abc"); ("decoded_string", VStr "42")].

(** A submission for Base69 by the test team. *)
Definition submission (encoded decoded : value) : dict :=
  [ ("team_id", VStr "123"); ("challenge_id", VStr "1");
    ("encoded_string", encoded); ("decoded_string", decoded) ].

End Sample.

(* ================================================================= *)
(** ** [routes.py]: the handlers that do more than forward *)

Module Routes.
Import Py Database AllChallenges.

(** What [await request.json()] comes to: the decoded body, a
    [JSONDecodeError] with its message, or another exception (a
    [UnicodeDecodeError] for a body that is not UTF-8, a disconnected
    client). *)
Inductive request : Type :=
| Decoded (request_body : value)
| JSONDecodeError (message : string)
| Failed (e : exn).

(** An [HTTPException] is raised again, any other exception is logged
    and replaced. *)
Definition handle {A} (outcome : (exn + A) * world) : (exn + A) * world :=
  match outcome with
  | (inr response, w') => (inr response, w')
  | (inl (HTTPException status_code detail), w') =>
      (inl (HTTPException status_code detail), w')
  | (inl _, w') => (inl (HTTPException 500 "internal server error"), w')
  end.

(** [post_submit].  A body that is no JSON object has no [get], which
    [validate] calls first. *)
Definition post_submit (challenges : all_challenges)
                       (request_json : request) : M dict :=
  fun w =>
    match request_json with
    | JSONDecodeError e =>
        (inl (HTTPException 400 ("Failed to decode JSON body: " ++ e)), w)
    | Failed e => handle (inl e, w)
    | Decoded request_body =>
        handle (match request_body with
                | VDict data => validate challenges data
                | _ => raise AttributeError
                end w)
    end.

(** The submission names its team by a string, or not at all. *)
Definition team_by_string (data : dict) : bool :=
  match dict_get data "team_id" with
  | None | Some VNone | Some (VStr _) => true
  | Some _ => false
  end.

(** [d[k]] *)
Definition getitem (d : dict) (k : string) : exn + value :=
  match dict_get d k with
  | Some v => inr v
  | None => inl (KeyError (repr_str k))
  end.

(** The row of one team in the score board. *)
Definition score_row (team : dict) : exn + dict :=
  match getitem team "team_no" with
  | inl e => inl e
  | inr team_no =>
      match getitem team "team_name" with
      | inl e => inl e
      | inr team_name =>
          match getitem team "total_points" with
          | inl e => inl e
          | inr total_points =>
              inr [ ("team_no", team_no); ("team_name", team_name);
                    ("score", total_points) ]
          end
      end
  end.

(** The loop over the cursor: the first row that cannot be built
    raises. *)
Fixpoint score_rows (teams : list dict) : exn + list dict :=
  match teams with
  | [] => inr []
  | team :: rest =>
      match score_row team with
      | inl e => inl e
      | inr row =>
          match score_rows rest with
          | inl e => inl e
          | inr rows => inr (row :: rows)
          end
      end
  end.

(** The sort key [x["score"]] of a row, as a number.  Scores are the
    integers of [total_points]; a score that is no number is outside the
    model and raises here. *)
Definition score_key (row : dict) : exn + Z :=
  match getitem row "score" with
  | inl e => inl e
  | inr v => as_int v
  end.

Fixpoint score_keys (rows : list dict) : exn + list (Z * dict) :=
  match rows with
  | [] => inr []
  | row :: rest =>
      match score_key row with
      | inl e => inl e
      | inr k =>
          match score_keys rest with
          | inl e => inl e
          | inr keyed => inr ((k, row) :: keyed)
          end
      end
  end.

(** [sorted(..., reverse=True)] is stable: it puts larger keys first and
    leaves rows with equal keys in the order they came.  [insert_desc]
    places a row that came before all the rows of [sorted_rows]. *)
Fixpoint insert_desc (x : Z * dict) (sorted_rows : list (Z * dict))
  : list (Z * dict) :=
  match sorted_rows with
  | [] => [x]
  | y :: rest =>
      if (fst x <? fst y)%Z then y :: insert_desc x rest
      else x :: y :: rest
  end.

Definition sorted_desc (rows : list (Z * dict)) : list (Z * dict) :=
  fold_right insert_desc [] rows.

(** [score] *)
Definition score : M (list dict) :=
  teams <- get_all_teams ;;
  result <- lift (score_rows teams) ;;
  keyed <- lift (score_keys result) ;;
  ret (map snd (sorted_desc keyed)).

End Routes.

(* ================================================================= *)
(** ** Clients of the engine *)

Module Client.
Import Py AllChallenges.

(** A team asks for [count] hints of a challenge one after the other,
    starting with number [first], and keeps the responses. *)
Fixpoint request_hints (self : all_challenges) (team_id challenge_id : value)
                       (first : Z) (count : nat) : M (list dict) :=
  match count with
  | O => ret []
  | S count' =>
      response <- get_hint self team_id challenge_id first ;;
      responses <- request_hints self team_id challenge_id (first + 1) count' ;;
      ret (response :: responses)
  end.

(** The sum of a list of costs. *)
Definition total_cost (costs : list Z) : Z := fold_right Z.add 0 costs.

(** The hints number [first + 1 .. first + count] of a challenge. *)
Definition hints_from (first count : nat) (hs : list (Z * string))
  : list (Z * string) :=
  firstn count (skipn first hs).

End Client.

(* ================================================================= *)
(** ** [round_1/base_69/challenge.py]: the codec of class [Base69] *)

(** The encoded text is made of the 69 characters from U+1F600 on, which
    are beyond the code points of [string]: it is kept as the list of
    its code points.  Bytes are integers.  A call either returns, raises
    one of the exceptions below, or never returns. *)
Module Base69.
Local Open Scope Z_scope.

Inductive error : Type :=
| UnicodeEncodeError
| UnicodeDecodeError
| ValueError
| IndexError
| OverflowError.

Inductive outcome (A : Type) : Type :=
| Returns (a : A)
| Raises (e : error)
| Hangs.

Arguments Returns {A} a.
Arguments Raises {A} e.
Arguments Hangs {A}.

Definition RADIX : Z := 69.

(** [BASE_STRING], by code points. *)
Definition BASE_STRING : list Z :=
  map (fun i => 128512 + Z.of_nat i) (seq 0 (Z.to_nat RADIX)).

(** The [while] loop of [decimal_to_radix]: [None] when the fuel runs
    out before [num] is 0. *)
Fixpoint decimal_to_radix_loop (fuel : nat) (num : Z) (num_in_radix : list Z)
  : option (list Z) :=
  if (num =? 0)%Z then Some num_in_radix
  else match fuel with
       | O => None
       | S fuel' =>
           decimal_to_radix_loop fuel' (num / RADIX)
                                 (num_in_radix ++ [num mod RADIX])
       end.

(** [decimal_to_radix]: the loop with the fuel the size of [num]
    calls for, then the reversal or [(0,)]. *)
Definition decimal_to_radix (num : Z) : option (list Z) :=
  match decimal_to_radix_loop (S (Z.to_nat (Z.log2 num))) num [] with
  | Some [] => Some [0]
  | Some num_in_radix => Some (rev num_in_radix)
  | None => None
  end.

Definition radix_to_decimal (num_in_radix : list Z) : Z :=
  fold_left (fun num i => num * RADIX + i) num_in_radix 0.

(** [ord] and [chr] on the code points of [string]. *)
Definition ord (c : ascii) : Z := Z.of_N (N_of_ascii c).
Definition chr (b : Z) : ascii := ascii_of_N (Z.to_N b).

(** [string.encode("ascii")] *)
Definition ascii_encode (s : string) : error + list Z :=
  let codes := map ord (list_ascii_of_string s) in
  if forallb (fun b => b <? 128) codes then inr codes
  else inl UnicodeEncodeError.

(** [bytes.decode("ascii")] *)
Definition ascii_decode (bytes : list Z) : error + string :=
  if forallb (fun b => b <? 128) bytes
  then inr (string_of_list_ascii (map chr bytes))
  else inl UnicodeDecodeError.

(** [int.from_bytes(bytes, byteorder="big")] *)
Definition from_bytes (bytes : list Z) : Z :=
  fold_left (fun num b => num * 256 + b) bytes 0.

(** [num.bit_length()] *)
Definition bit_length (num : Z) : Z :=
  if (num =? 0)%Z then 0 else Z.log2 (Z.abs num) + 1.

Fixpoint to_bytes_little (length : nat) (num : Z) : list Z :=
  match length with
  | O => []
  | S length' => (num mod 256) :: to_bytes_little length' (num / 256)
  end.

(** [num.to_bytes(length, byteorder="big")] *)
Definition to_bytes (length : nat) (num : Z) : error + list Z :=
  if (num <? 0)%Z || (256 ^ Z.of_nat length <=? num)%Z then inl OverflowError
  else inr (rev (to_bytes_little length num)).

(** [BASE_STRING[i]]: a negative index counts from the end. *)
Definition base_char (i : Z) : error + Z :=
  let position := if (i <? 0)%Z then i + RADIX else i in
  if (position <? 0)%Z then inl IndexError
  else match nth_error BASE_STRING (Z.to_nat position) with
       | Some c => inr c
       | None => inl IndexError
       end.

(** [BASE_STRING.index(c)] *)
Fixpoint index_from (c : Z) (chars : list Z) (position : Z) : error + Z :=
  match chars with
  | [] => inl ValueError
  | c' :: rest =>
      if (c =? c')%Z then inr position else index_from c rest (position + 1)
  end.

Definition index (c : Z) : error + Z := index_from c BASE_STRING 0.

(** Apply a step that may raise to every element, left to right. *)
Fixpoint each {A B} (f : A -> error + B) (l : list A) : error + list B :=
  match l with
  | [] => inr []
  | a :: rest =>
      match f a with
      | inl e => inl e
      | inr b =>
          match each f rest with
          | inl e => inl e
          | inr bs => inr (b :: bs)
          end
      end
  end.

Definition encode (s : string) : outcome (list Z) :=
  match ascii_encode s with
  | inl e => Raises e
  | inr bytes =>
      let num := from_bytes bytes in
      match decimal_to_radix num with
      | None => Hangs
      | Some num_in_radix =>
          match each base_char num_in_radix with
          | inl e => Raises e
          | inr chars => Returns chars
          end
      end
  end.

Definition decode (encoded_string : list Z) : outcome string :=
  match each index encoded_string with
  | inl e => Raises e
  | inr num_in_radix =>
      let num := radix_to_decimal num_in_radix in
      let length := (bit_length num + 7) / 8 in
      match to_bytes (Z.to_nat length) num with
      | inl e => Raises e
      | inr bytes =>
          match ascii_decode bytes with
          | inl e => Raises e
          | inr s => Returns s
          end
      end
  end.

(** The number a list of digits stands for, least significant digit
    first. *)
Fixpoint little_endian (base : Z) (digits : list Z) : Z :=
  match digits with
  | [] => 0
  | d :: rest => d + base * little_endian base rest
  end.

(** Digits of the base, or bytes. *)
Definition below (base : Z) (digits : list Z) : Prop :=
  Forall (fun d => 0 <= d < base) digits.

(** Bytes without their leading zeros. *)
Fixpoint lstrip_zero (bytes : list Z) : list Z :=
  match bytes with
  | b :: rest => if (b =? 0)%Z then lstrip_zero rest else bytes
  | [] => []
  end.

(** A text without its leading NUL characters. *)
Fixpoint lstrip_nul (s : string) : string :=
  match s with
  | String c r => if (ord c =? 0)%Z then lstrip_nul r else s
  | EmptyString => EmptyString
  end.

(** What [str.encode("ascii")] accepts. *)
Definition is_ascii (s : string) : bool :=
  forallb (fun b => b <? 128) (map ord (list_ascii_of_string s)).

End Base69.

(* ================================================================= *)
(** ** [round_1/too_much_light/challenge.py]: [hex_color_to_rgb] *)

Module TooMuchLight.
Local Open Scope Z_scope.

(** [(color >> 16 & 0xFF, color >> 8 & 0xFF, color & 0xFF)]: the shifts
    bind tighter than [&]; on a negative [color] Python shifts and masks
    the two's complement, as [Z.shiftr] and [Z.land] do. *)
Definition hex_color_to_rgb (color : Z) : Z * Z * Z :=
  (Z.land (Z.shiftr color 16) 255,
   Z.land (Z.shiftr color 8) 255,
   Z.land color 255).

End TooMuchLight.

(* ================================================================= *)
(** ** [base_challenge.py]: [generate_random_string] *)

(** The module [random] is an oracle: a stream of integers, one consumed
    by each call.  [randint] and [choice] bring the draw into their
    range, so that every value of the range can come out and no other.
    The generated text may hold the invisible characters U+200B to
    U+200F: it is kept as the list of its code points. *)
Module Random.
Local Open Scope Z_scope.

Definition rng : Type := nat -> Z.

Definition advance (g : rng) : rng := fun n => g (S n).

(** [random.randint(a, b)] for [a <= b] *)
Definition randint (a b : Z) (g : rng) : Z * rng :=
  (a + g O mod (b - a + 1), advance g).

(** [random.choice(seq)] for a sequence that is not empty *)
Definition choice (seq : list Z) (g : rng) : Z * rng :=
  (nth (Z.to_nat (g O mod Z.of_nat (List.length seq))) seq 0, advance g).

End Random.

Module RandomString.
Import Py Random.
Local Open Scope Z_scope.

Definition invisible_characters : list Z := [8203; 8204; 8205; 8206; 8207].

Definition base58_alphabet : string :=
  "123456789ABCDEFGHJKLMNPQRSTUVWXYZabcdefghijkmnopqrstuvwxyz".

Definition code_points (s : string) : list Z :=
  map Base69.ord (list_ascii_of_string s).

(** The defaults of [start] and [end]. *)
Definition bounds (start end_ : option Z) : Z * Z :=
  match start, end_ with
  | None, None => (1, 100)
  | Some start, None => (1, start)
  | None, Some end_ => (1, end_)
  | Some start, Some end_ => (start, end_)
  end.

(** [random.choice(alphabet) for _ in range(length)] *)
Fixpoint choices (length : nat) (alphabet : list Z) (g : rng) : list Z * rng :=
  match length with
  | O => ([], g)
  | S length' =>
      let (c, g) := choice alphabet g in
      let (rest, g) := choices length' alphabet g in
      (c :: rest, g)
  end.

Definition generate_random_string (start end_ : option Z)
    (include_invisible fixed_length : bool) (g : rng) : (exn + list Z) * rng :=
  let (start, end_) := bounds start end_ in
  if end_ <? start
  then (inl (ValueError "start must be less than or equal to end"), g)
  else
    let (length, g) := if fixed_length then (end_, g) else randint start end_ g in
    let base58_alphabet :=
      (code_points base58_alphabet
       ++ (if include_invisible then invisible_characters else []))%list in
    let (chars, g) := choices (Z.to_nat length) base58_alphabet g in
    (inr chars, g).

(** The characters the base 58 alphabet leaves out of the letters and
    digits: zero, capital O, capital I and small l. *)
Definition look_alike : list Z := code_points "0OIl".

End RandomString.

(* ================================================================= *)
(** ** [__main__.py]: the [test] command *)

Module Main.
Import Py Database.

Definition TEST_TEAM_ID : string := "123".
Definition TEST_TEAM_NAME : string := "Team Test".

(** The branch [sys.argv[1] == "test"] of [handle_cmd_args], without its
    printing. *)
Definition test_command : M unit :=
  exists_ <- is_team_exists (VStr TEST_TEAM_ID) ;;
  if exists_ then ret tt
  else create_team TEST_TEAM_ID (Some TEST_TEAM_NAME) ;;; ret tt.

(** The number of team documents [get_team] could find for an id. *)
Definition count_teams (team_id : value) (w : world) : nat :=
  List.length (filter (Mongo.matches (by_team_id team_id)) (teams w)).

(** [generate_unique_id].  The identifiers [uuid4] draws are an oracle,
    a sequence [uuids] read from a [position] on; the result comes with
    the position after it.  [None]: the loop [while True] has not ended
    when the fuel runs out. *)
Fixpoint generate_unique_id (fuel : nat) (uuids : nat -> string) (position : nat)
  : M (option (string * nat)) :=
  match fuel with
  | O => ret None
  | S fuel' =>
      let unique_id := uuids position in
      exists_ <- is_team_exists (VStr unique_id) ;;
      if negb exists_ then ret (Some (unique_id, S position))
      else generate_unique_id fuel' uuids (S position)
  end.

(** One turn of the loop of [load_csv_data].  A row of the data frame is
    its [team_name], a text, and its [team_id], after [astype("str")] a
    text too, "nan" for an empty cell.  The branches decide on
    [team_id], which is [None] when a team is to be created, and on
    [new_team_id]; the result is the [team_id] the row has afterwards.
    The printing is left out. *)
Definition load_row (fuel : nat) (uuids : nat -> string) (position : nat)
                    (row : string * string) : M (option (string * nat)) :=
  let team_name := fst row in
  let team_id := snd row in
  decided <-
    (if (team_id =? "nan")%string then
       generated <- generate_unique_id fuel uuids position ;;
       ret (option_map (fun g => (@None string, fst g, snd g)) generated)
     else
       exists_ <- get_team (VStr team_id) ;;
       match exists_ with
       | None => ret (Some (None, team_id, position))
       | Some doc =>
           if negb (truthy (VDict doc))
           then ret (Some (None, team_id, position))
           else if negb (value_eqb (dict_get_default doc "team_name" VNone)
                                   (VStr team_name))
           then
             generated <- generate_unique_id fuel uuids position ;;
             ret (option_map (fun g => (@None string, fst g, snd g)) generated)
           else ret (Some (Some team_id, team_id, position))
       end) ;;
  match decided with
  | None => ret None
  | Some (None, new_team_id, position) =>
      create_team new_team_id (Some team_name) ;;;
      ret (Some (new_team_id, position))
  | Some (Some team_id, _, position) => ret (Some (team_id, position))
  end.

Fixpoint load_rows (fuel : nat) (uuids : nat -> string) (position : nat)
                   (rows : list (string * string)) : M (option (list string)) :=
  match rows with
  | [] => ret (Some [])
  | row :: rest =>
      loaded <- load_row fuel uuids position row ;;
      match loaded with
      | None => ret None
      | Some (team_id, position) =>
          others <- load_rows fuel uuids position rest ;;
          ret (option_map (cons team_id) others)
      end
  end.

(** [load_csv_data] on the rows read from the file: the column
    [team_id] it writes back. *)
Definition load_csv_data (fuel : nat) (uuids : nat -> string)
                         (rows : list (string * string))
  : M (option (list string)) :=
  load_rows fuel uuids O rows.

(** The standing of the store between two rows of [load_csv_data]: the
    identifiers drawn so far are taken, and no id is that of two teams. *)
Definition standing (uuids : nat -> string) (k : nat) (w : world) : Prop :=
  (forall i, (i < k)%nat -> count_teams (VStr (uuids i)) w <> O)
  /\ (forall id, (count_teams (VStr id) w <= 1)%nat).

(** A sequence of identifiers that never repeats. *)
Fixpoint tally (n : nat) : string :=
  match n with
  | O => "u"
  | S n' => String "u" (tally n')
  end.

End Main.

(* ================================================================= *)
(** ** [round_1/random_sequence/challenge.py]: [text_to_hex] and
    [hex_to_text] *)

(** A text is the list of its code points, which go up to U+10FFFF; its
    hexadecimal form is made of ASCII characters and is a [string]. *)
Module Hex.
Import Py.
Local Open Scope Z_scope.

Definition error : Type := Base69.error.

(** [hex(n)[2:]] for a number that is not negative: its hexadecimal
    digits, in lower case, most significant first. *)
Fixpoint hex_loop (fuel : nat) (n : N) (digits : string) : string :=
  match fuel with
  | O => digits
  | S fuel' =>
      if (n =? 0)%N then digits
      else hex_loop fuel' (n / 16)%N (String (hex_digit (n mod 16)%N) digits)
  end.

Definition hex_of (n : N) : string :=
  if (n =? 0)%N then "0" else hex_loop (S (N.to_nat (N.log2 n))) n "".

Definition text_to_hex (text : list N) : string :=
  join " " (map hex_of text).

(** The value of a character as a digit of base 16, if it is one. *)
Definition hex_value (c : ascii) : option Z :=
  let n := Z.of_N (N_of_ascii c) in
  if (48 <=? n) && (n <=? 57) then Some (n - 48)
  else if (97 <=? n) && (n <=? 102) then Some (n - 87)
  else if (65 <=? n) && (n <=? 70) then Some (n - 55)
  else None.

(** The blanks [int] skips around a literal, among the code points
    below 256: TAB..CR, SPACE, NEL and NBSP, but not FS..US. *)
Definition is_blank (c : ascii) : bool :=
  let n := N_of_ascii c in
  (((9 <=? n) && (n <=? 13)) || (n =? 32) || (n =? 133) || (n =? 160))%N.

Fixpoint skip_blanks (s : string) : string :=
  match s with
  | EmptyString => EmptyString
  | String c r => if is_blank c then skip_blanks r else s
  end.

(** The sign [int] accepts before the digits. *)
Definition skip_sign (s : string) : Z * string :=
  match s with
  | String c r =>
      if Ascii.eqb c "+" then (1, r)
      else if Ascii.eqb c "-" then (-1, r)
      else (1, s)
  | EmptyString => (1, s)
  end.

(** The prefix [0x] or [0X] of base 16, and the one underscore allowed
    after it. *)
Definition skip_prefix (s : string) : string :=
  match s with
  | String c (String x r) =>
      if Ascii.eqb c "0" && (Ascii.eqb x "x" || Ascii.eqb x "X")
      then match r with
           | String u r' => if Ascii.eqb u "_" then r' else r
           | EmptyString => r
           end
      else s
  | _ => s
  end.

(** The digits, with single underscores between them: the number read
    and what follows it.  [previous] is [None] before the first
    character, then tells whether the last one was an underscore. *)
Fixpoint scan (s : string) (num : Z) (previous : option bool)
  : option (Z * string) :=
  let finish := match previous with
                | Some false => Some (num, s)
                | _ => None
                end in
  match s with
  | EmptyString => finish
  | String c r =>
      if Ascii.eqb c "_" then
        match previous with
        | Some true => None
        | _ => scan r num (Some true)
        end
      else match hex_value c with
           | Some d => scan r (num * 16 + d) (Some false)
           | None => finish
           end
  end.

(** [int(s, 16)] for a [str]: blanks around the literal, a sign, the
    prefix, digits in either case. *)
Definition int16 (s : string) : error + Z :=
  let (sign, s) := skip_sign (skip_blanks s) in
  let s := skip_prefix s in
  match s with
  | String c _ =>
      if Ascii.eqb c "_" then inl Base69.ValueError
      else match scan s 0 None with
           | Some (num, rest) =>
               match skip_blanks rest with
               | EmptyString => inr (sign * num)
               | _ => inl Base69.ValueError
               end
           | None => inl Base69.ValueError
           end
  | EmptyString => inl Base69.ValueError
  end.

(** [chr(i)]: the argument has to fit a C [int], then to be a code
    point. *)
Definition chr (i : Z) : error + N :=
  if (i <? - 2 ^ 31) || (2 ^ 31 <=? i) then inl Base69.OverflowError
  else if (i <? 0) || (1114112 <=? i) then inl Base69.ValueError
  else inr (Z.to_N i).

Definition hex_to_text (hex_string : string) : error + list N :=
  Base69.each (fun hex_char => match int16 hex_char with
                               | inl e => inl e
                               | inr i => chr i
                               end)
              (split " " hex_string).

(** A text of hexadecimal digits, and the number it is read as after
    [num]. *)
Fixpoint all_hex (s : string) : bool :=
  match s with
  | EmptyString => true
  | String c r => match hex_value c with
                  | Some _ => all_hex r
                  | None => false
                  end
  end.

Fixpoint value_from (num : Z) (s : string) : Z :=
  match s with
  | EmptyString => num
  | String c r => match hex_value c with
                  | Some d => value_from (num * 16 + d) r
                  | None => num
                  end
  end.

End Hex.

(* ================================================================= *)
(** ** [round_1/random_sequence/challenge.py]: [gen_question] *)

(** The store side of [gen_question].  The block that builds the text
    around the flag and writes it to the file of the team is outside the
    store: its outcome [file_block] (it returns, or raises) and the
    [location] of the file are given.  The flag is drawn before that
    block, by [generate_random_string]. *)
Module RandomSequence.
Import Py Mongo Database Random RandomString.

Definition FLAG_LENGTH : Z := 10.

(** The [str] of code points below 256. *)
Definition text_of (chars : list Z) : string :=
  string_of_list_ascii (map Base69.chr chars).

Definition gen_question (location : string) (file_block : exn + unit)
                        (team_id : value) (g : rng) : M (value * value) :=
  team <- get_team team_id ;;
  let team := match team with Some doc => VDict doc | None => VNone end in
  let stored_location :=
    get_nested_value team "questions.RandomSequence.location" VNone in
  let stored_flag_value :=
    get_nested_value team "data_to_validate.RandomSequence.flag" VNone in
  if truthy stored_location && truthy stored_flag_value
  then ret (stored_location, stored_flag_value)
  else
    flag_value <-
      lift (fst (generate_random_string (Some FLAG_LENGTH) None false true g)) ;;
    let flag_value := text_of flag_value in
    lift file_block ;;;
    update_one (by_team_id team_id)
      [ Set_ "questions.RandomSequence" (VDict [("location", VStr location)]);
        Set_ "data_to_validate.RandomSequence"
             (VDict [("flag", VStr flag_value)]) ] ;;;
    ret (VStr location, VStr flag_value).

(** The field is an embedded document, or is not there: [$set] can
    write below it. *)
Definition embedded (doc : dict) (k : string) : bool :=
  match dict_get doc k with
  | None | Some (VDict _) => true
  | Some _ => false
  end.

(** The team has its question: what the test of [gen_question] reads. *)
Definition issued (doc : dict) : bool :=
  truthy (get_nested_value (VDict doc) "questions.RandomSequence.location" VNone)
  && truthy (get_nested_value (VDict doc)
                              "data_to_validate.RandomSequence.flag" VNone).

(** The class as its constructor declares it, and a registry with it. *)
Definition random_sequence : Challenge.challenge :=
  {| Challenge.points := 50; Challenge.penalty := 30;
     Challenge.hints := [(40, "Heard the term 'HEX'?")];
     Challenge.challenge_id := VNone |}.

Definition registry : AllChallenges.all_challenges :=
  {| AllChallenges.challenges_id := [("1", "RandomSequence")];
     AllChallenges.challenges_classes := [("1", random_sequence)] |}.

End RandomSequence.

(* ================================================================= *)
(** ** Facts about the Python builtins *)

Section PyFacts.
Import Py.

Lemma dict_get_set (d : dict) (k k' : string) (v : value) :
  dict_get (dict_set d k v) k' =
  if (k' =? k)%string then Some v else dict_get d k'.
Proof.
  induction d as [|[k0 v0] d IH]; simpl.
  - destruct (k' =? k)%string; reflexivity.
  - destruct (k =? k0)%string eqn:E; simpl.
    + apply String.eqb_eq in E. subst k0.
      destruct (k' =? k)%string; reflexivity.
    + destruct (k' =? k0)%string eqn:E'.
      * apply String.eqb_eq in E'. subst k0.
        rewrite String.eqb_sym, E. reflexivity.
      * exact IH.
Qed.

Lemma dict_get_set_same (d : dict) (k : string) (v : value) :
  dict_get (dict_set d k v) k = Some v.
Proof. rewrite dict_get_set, String.eqb_refl. reflexivity. Qed.

Lemma dict_get_set_other (d : dict) (k k' : string) (v : value) :
  (k' =? k)%string = false ->
  dict_get (dict_set d k v) k' = dict_get d k'.
Proof. intros E. rewrite dict_get_set, E. reflexivity. Qed.

Lemma dict_set_forallb (P : string * value -> bool) (d : dict) k v :
  forallb P d = true -> P (k, v) = true -> forallb P (dict_set d k v) = true.
Proof.
  intros Hd Hv. induction d as [|[k0 v0] d IH]; simpl in *.
  - rewrite Hv. reflexivity.
  - apply andb_true_iff in Hd as [H0 Hd].
    destruct (k =? k0)%string; simpl.
    + rewrite Hv, Hd. reflexivity.
    + rewrite H0, (IH Hd). reflexivity.
Qed.

Lemma dict_get_default_Some (d : dict) (k : string) (v default : value) :
  dict_get d k = Some v -> dict_get_default d k default = v.
Proof. intros H. unfold dict_get_default. rewrite H. reflexivity. Qed.

Lemma split_no_sep (sep : ascii) (s : string) :
  has_char sep s = false -> split sep s = [s].
Proof.
  induction s as [|c r IH]; simpl; intros H.
  - reflexivity.
  - apply orb_false_iff in H as [Hc Hr].
    rewrite Hc, (IH Hr). reflexivity.
Qed.

Lemma split_two (sep : ascii) (a b : string) :
  has_char sep a = false -> has_char sep b = false ->
  split sep (a ++ String sep b) = [a; b].
Proof.
  intros Ha Hb. induction a as [|c r IH]; simpl in *.
  - rewrite Ascii.eqb_refl, (split_no_sep _ _ Hb). reflexivity.
  - apply orb_false_iff in Ha as [Hc Hr].
    rewrite Hc, (IH Hr). reflexivity.
Qed.

Lemma existsb_str_in (s : string) (l : list value) :
  existsb (value_eqb (VStr s)) l = true <-> In (VStr s) l.
Proof.
  rewrite existsb_exists. split.
  - intros [x [Hin Hx]]. destruct x; simpl in Hx; try discriminate.
    apply String.eqb_eq in Hx. subst. exact Hin.
  - intros Hin. exists (VStr s). split; [exact Hin|].
    simpl. apply String.eqb_refl.
Qed.

End PyFacts.

(* ================================================================= *)
(** ** Facts about the document store *)

Section MongoFacts.
Import Py Mongo Team.

Lemma field_name_inv (p : string) :
  field_name p = true -> (p =? "")%string = false /\ has_char "." p = false.
Proof.
  unfold field_name. intros H. apply andb_true_iff in H as [H1 H2].
  apply negb_true_iff in H1, H2. split; assumption.
Qed.

(** A path [field.p] with both segments well formed rewrites the entry
    [p] of the embedded document [field]. *)
Lemma update_path_nested (f : option value -> option value)
      (doc sub : dict) (field p : string) :
  (field =? "")%string = false -> field_name p = true ->
  dict_get doc field = Some (VDict sub) ->
  update_path [field; p] f doc =
  option_map (fun v => dict_set doc field (VDict (dict_set sub p v)))
             (f (dict_get sub p)).
Proof.
  intros Hf Hp Hsub. apply field_name_inv in Hp as [Hp _].
  simpl. rewrite Hf, Hsub, Hp.
  destruct (f (dict_get sub p)); reflexivity.
Qed.

Lemma update_path_top (f : option value -> option value)
      (doc : dict) (k : string) :
  (k =? "")%string = false ->
  update_path [k] f doc = option_map (dict_set doc k) (f (dict_get doc k)).
Proof. intros Hk. simpl. rewrite Hk. reflexivity. Qed.

Lemma counters_get (sub : dict) (p : string) :
  counters (VDict sub) = true ->
  dict_get sub p = None \/ exists m, dict_get sub p = Some (VInt m).
Proof.
  simpl. induction sub as [|[k v] sub IH]; simpl; intros H.
  - left. reflexivity.
  - apply andb_true_iff in H as [Hv H].
    destruct (p =? k)%string.
    + right. destruct v; try discriminate. eexists. reflexivity.
    + apply IH, H.
Qed.

Lemma inc_field_counter (sub : dict) (p : string) (amount : Z) :
  counters (VDict sub) = true ->
  inc_field amount (dict_get sub p) =
  Some (VInt (int_of (dict_get_default sub p (VInt 0)) + amount)).
Proof.
  intros H. unfold dict_get_default.
  destruct (counters_get sub p H) as [E|[m E]]; rewrite E; reflexivity.
Qed.

Lemma counters_set (sub : dict) (p : string) (z : Z) :
  counters (VDict sub) = true ->
  counters (VDict (dict_set sub p (VInt z))) = true.
Proof. simpl. intros H. apply dict_set_forallb; [exact H|reflexivity]. Qed.

(** [$inc] of a per-challenge counter. *)
Lemma apply_inc_counter (doc sub : dict) (path field p : string) (amount : Z) :
  path = field ++ String "." p ->
  (field =? "")%string = false -> has_char "." field = false ->
  field_name p = true ->
  dict_get doc field = Some (VDict sub) -> counters (VDict sub) = true ->
  apply_op (Inc path amount) doc =
  Some (dict_set doc field
          (VDict (dict_set sub p
             (VInt (int_of (dict_get_default sub p (VInt 0)) + amount))))).
Proof.
  intros -> Hf Hdot Hp Hsub Hc. unfold apply_op.
  rewrite (split_two "." field p Hdot (proj2 (field_name_inv p Hp))).
  rewrite (update_path_nested _ doc sub field p Hf Hp Hsub).
  rewrite (inc_field_counter sub p amount Hc). reflexivity.
Qed.

(** Reading a per-challenge entry back through [get_nested_value]. *)
Lemma get_nested_entry (doc sub : dict) (path field p : string) (default : value) :
  path = field ++ String "." p ->
  has_char "." field = false -> field_name p = true ->
  dict_get doc field = Some (VDict sub) ->
  Database.get_nested_value (VDict doc) path default =
  dict_get_default sub p default.
Proof.
  intros -> Hdot Hp Hsub. unfold Database.get_nested_value.
  rewrite (split_two "." field p Hdot (proj2 (field_name_inv p Hp))).
  simpl. unfold dict_get_default at 1. rewrite Hsub. reflexivity.
Qed.

(** The documents of a collection after [update_one]: each is as it was,
    or is the update of the one it replaces. *)
Lemma update_first_Forall2 (filter : dict) (ops : list update_op)
      (coll coll' : list dict) :
  update_first filter ops coll = Some coll' ->
  Forall2 (fun d d' => d' = d \/ apply_update ops d = Some d') coll coll'.
Proof.
  revert coll'. induction coll as [|doc rest IH]; simpl; intros coll' H.
  - injection H as <-. constructor.
  - destruct (matches filter doc).
    + destruct (apply_update ops doc) as [doc'|] eqn:E; [|discriminate].
      injection H as <-. constructor; [right; exact E|].
      clear. induction rest; constructor; auto.
    + destruct (update_first filter ops rest) as [rest'|]; [|discriminate].
      injection H as <-. constructor; [left; reflexivity|]. apply IH. reflexivity.
Qed.

(** Updating the team a lookup finds: the lookup then finds the updated
    document, as long as the update keeps it under the filter. *)
Lemma update_first_found (filter : dict) (ops : list update_op)
      (coll : list dict) (doc doc' : dict) :
  find_one filter coll = Some doc ->
  apply_update ops doc = Some doc' ->
  matches filter doc' = true ->
  exists coll', update_first filter ops coll = Some coll'
                /\ find_one filter coll' = Some doc'.
Proof.
  unfold find_one. intros Hfind Hup Hm.
  induction coll as [|d rest IH]; simpl in *; [discriminate|].
  destruct (matches filter d) eqn:E.
  - injection Hfind as ->. rewrite Hup. simpl.
    eexists. split; [reflexivity|]. simpl. rewrite Hm. reflexivity.
  - destruct (IH Hfind) as [rest' [H1 H2]]. rewrite H1. simpl.
    eexists. split; [reflexivity|]. simpl. rewrite E. exact H2.
Qed.

End MongoFacts.

(* ================================================================= *)
(** ** The effect of a score update on one team document *)

Section ScoreUpdate.
Import Py Mongo Database Team.

Lemma team_schema_inv (doc : dict) :
  team_schema doc = true ->
  exists ta ia cl pts tp tm hs,
    dict_get doc "total_attempts" = Some (VDict ta) /\ counters (VDict ta) = true
    /\ dict_get doc "incorrect_attempts" = Some (VDict ia) /\ counters (VDict ia) = true
    /\ dict_get doc "cleared_challenges" = Some (VList cl)
    /\ dict_get doc "points" = Some (VDict pts) /\ counters (VDict pts) = true
    /\ dict_get doc "total_points" = Some (VInt tp)
    /\ dict_get doc "time" = Some (VDict tm)
    /\ dict_get doc "hints" = Some (VDict hs) /\ counters (VDict hs) = true.
Proof.
  unfold team_schema, has. intros H.
  repeat (apply andb_true_iff in H as [H ?]).
  destruct (dict_get doc "total_attempts") as [[| | | | |ta]|]; try discriminate.
  destruct (dict_get doc "incorrect_attempts") as [[| | | | |ia]|]; try discriminate.
  destruct (dict_get doc "cleared_challenges") as [[| | | |cl|]|]; try discriminate.
  destruct (dict_get doc "points") as [[| | | | |pts]|]; try discriminate.
  destruct (dict_get doc "total_points") as [[| |tp| | |]|]; try discriminate.
  destruct (dict_get doc "time") as [[| | | | |tm]|]; try discriminate.
  destruct (dict_get doc "hints") as [[| | | | |hs]|]; try discriminate.
  exists ta, ia, cl, pts, tp, tm, hs. repeat split; assumption || reflexivity.
Qed.

Lemma sum_values_set (sub : dict) (p : string) (amount : Z) :
  counters (VDict sub) = true ->
  sum_values (dict_set sub p
                (VInt (int_of (dict_get_default sub p (VInt 0)) + amount)))
  = sum_values sub + amount.
Proof.
  unfold dict_get_default. simpl.
  induction sub as [|[k v] sub IH]; simpl; intros H.
  - lia.
  - apply andb_true_iff in H as [Hv H]. destruct v; try discriminate.
    destruct (p =? k)%string; simpl.
    + lia.
    + rewrite (IH H). lia.
Qed.

Lemma split_cons (sep : ascii) (a b : string) :
  has_char sep a = false ->
  split sep (a ++ String sep b) = a :: split sep b.
Proof.
  intros Ha. induction a as [|c r IH]; simpl in *.
  - rewrite Ascii.eqb_refl. reflexivity.
  - apply orb_false_iff in Ha as [Hc Hr].
    rewrite Hc, (IH Hr). reflexivity.
Qed.

(** A dotted lookup reads the document only through its first segment. *)
Lemma get_nested_first (doc doc' : dict) (path field p : string) (default : value) :
  path = field ++ String "." p -> has_char "." field = false ->
  dict_get doc' field = dict_get doc field ->
  get_nested_value (VDict doc') path default
  = get_nested_value (VDict doc) path default.
Proof.
  intros -> Hdot E. unfold get_nested_value.
  rewrite (split_cons "." field p Hdot). simpl.
  unfold dict_get_default. rewrite E. reflexivity.
Qed.

Lemma apply_inc_top (doc : dict) (k : string) (z amount : Z) :
  (k =? "")%string = false -> has_char "." k = false ->
  dict_get doc k = Some (VInt z) ->
  apply_op (Inc k amount) doc = Some (dict_set doc k (VInt (z + amount))).
Proof.
  intros Hk Hdot Hget. unfold apply_op.
  rewrite (split_no_sep "." k Hdot), (update_path_top _ doc k Hk), Hget.
  reflexivity.
Qed.

Lemma apply_update_app (ops ops' : list update_op) (doc : dict) :
  apply_update (ops ++ ops') doc =
  match apply_update ops doc with
  | Some doc' => apply_update ops' doc'
  | None => None
  end.
Proof.
  revert doc. induction ops as [|op ops IH]; simpl; intros doc.
  - reflexivity.
  - destruct (apply_op op doc); [apply IH|reflexivity].
Qed.

Ltac dict_get_compute :=
  repeat (rewrite dict_get_set; cbn [String.eqb Ascii.eqb Bool.eqb]).

Lemma inc_operation_doc (doc : dict) (amount : Z) (is_correct : bool) (p : string) :
  team_schema doc = true -> field_name p = true ->
  exists doc',
    apply_update (inc_operation amount is_correct p) doc = Some doc'
    /\ inc_step amount (if is_correct then 0 else 1) p doc doc'.
Proof.
  intros Hs Hp.
  destruct (team_schema_inv doc Hs)
    as (ta & ia & cl & pts & tp & tm & hs & Hta & Cta & Hia & Cia & Hcl
        & Hpts & Cpts & Htp & Htm & Hhs & Chs).
  unfold inc_operation, apply_update.
  rewrite (apply_inc_counter doc pts ("points." ++ p) "points" p amount
             eq_refl eq_refl eq_refl Hp Hpts Cpts).
  set (pts' := dict_set pts p _).
  set (doc1 := dict_set doc "points" (VDict pts')).
  assert (Htp1 : dict_get doc1 "total_points" = Some (VInt tp))
    by (subst doc1; dict_get_compute; exact Htp).
  rewrite (apply_inc_top doc1 "total_points" tp amount eq_refl eq_refl Htp1).
  set (doc2 := dict_set doc1 "total_points" _).
  assert (Hta2 : dict_get doc2 "total_attempts" = Some (VDict ta))
    by (subst doc2 doc1; dict_get_compute; exact Hta).
  rewrite (apply_inc_counter doc2 ta ("total_attempts." ++ p) "total_attempts" p 1
             eq_refl eq_refl eq_refl Hp Hta2 Cta).
  set (ta' := dict_set ta p _).
  set (doc3 := dict_set doc2 "total_attempts" (VDict ta')).
  assert (Hia3 : dict_get doc3 "incorrect_attempts" = Some (VDict ia))
    by (subst doc3 doc2 doc1; dict_get_compute; exact Hia).
  rewrite (apply_inc_counter doc3 ia ("incorrect_attempts." ++ p) "incorrect_attempts" p _
             eq_refl eq_refl eq_refl Hp Hia3 Cia).
  set (ia' := dict_set ia p _).
  set (doc4 := dict_set doc3 "incorrect_attempts" (VDict ia')).
  exists doc4. split; [reflexivity|].
  assert (Gpts : dict_get doc4 "points" = Some (VDict pts'))
    by (subst doc4 doc3 doc2 doc1; dict_get_compute; reflexivity).
  assert (Gtp : dict_get doc4 "total_points" = Some (VInt (tp + amount)))
    by (subst doc4 doc3 doc2 doc1; dict_get_compute; reflexivity).
  assert (Gta : dict_get doc4 "total_attempts" = Some (VDict ta'))
    by (subst doc4 doc3 doc2 doc1; dict_get_compute; reflexivity).
  assert (Gia : dict_get doc4 "incorrect_attempts" = Some (VDict ia'))
    by (subst doc4 doc3 doc2 doc1; dict_get_compute; reflexivity).
  assert (Frame : forall k, among score_fields k = false ->
                            dict_get doc4 k = dict_get doc k).
  { intros k Hk. unfold among, score_fields in Hk. simpl in Hk.
    repeat (apply orb_false_iff in Hk as [? Hk]).
    subst doc4 doc3 doc2 doc1. rewrite !dict_get_set.
    repeat match goal with H : (k =? _)%string = false |- _ => rewrite H end.
    reflexivity. }
  assert (Hsame : forall q, dict_get (dict_set pts p (VInt q)) p = Some (VInt q))
    by (intros; apply dict_get_set_same).
  constructor.
  - unfold counter.
    rewrite (get_nested_entry doc4 pts' ("points" ++ "." ++ p) "points" p _ eq_refl eq_refl Hp Gpts).
    rewrite (get_nested_entry doc pts ("points" ++ "." ++ p) "points" p _ eq_refl eq_refl Hp Hpts).
    subst pts'. unfold dict_get_default at 1. rewrite dict_get_set_same. reflexivity.
  - unfold total_points, dict_get_default. rewrite Gtp, Htp. reflexivity.
  - unfold counter.
    rewrite (get_nested_entry doc4 ta' ("total_attempts" ++ "." ++ p) "total_attempts" p _ eq_refl eq_refl Hp Gta).
    rewrite (get_nested_entry doc ta ("total_attempts" ++ "." ++ p) "total_attempts" p _ eq_refl eq_refl Hp Hta).
    subst ta'. unfold dict_get_default at 1. rewrite dict_get_set_same. reflexivity.
  - unfold counter.
    rewrite (get_nested_entry doc4 ia' ("incorrect_attempts" ++ "." ++ p) "incorrect_attempts" p _ eq_refl eq_refl Hp Gia).
    rewrite (get_nested_entry doc ia ("incorrect_attempts" ++ "." ++ p) "incorrect_attempts" p _ eq_refl eq_refl Hp Hia).
    subst ia'. unfold dict_get_default at 1. rewrite dict_get_set_same.
    destruct is_correct; reflexivity.
  - unfold sum_points. rewrite Gpts, Hpts. subst pts'.
    apply sum_values_set, Cpts.
  - unfold team_schema, has.
    rewrite Gta, Gia, Gpts, Gtp.
    rewrite (Frame "cleared_challenges" eq_refl), (Frame "time" eq_refl),
            (Frame "hints" eq_refl), Hcl, Htm, Hhs.
    subst ta' ia' pts'.
    rewrite !counters_set by assumption. rewrite Chs. reflexivity.
  - exact Frame.
Qed.

Lemma counter_same (field : string) (doc doc' : dict) (p : string) :
  has_char "." field = false ->
  dict_get doc' field = dict_get doc field ->
  counter field doc' p = counter field doc p.
Proof.
  intros Hdot E. unfold counter.
  rewrite (get_nested_first doc doc' (field ++ "." ++ p) field p (VInt 0)
             eq_refl Hdot E).
  reflexivity.
Qed.

Lemma cleared_operation_doc (doc : dict) (p : string) (now : value) :
  team_schema doc = true -> field_name p = true ->
  exists doc',
    apply_update (cleared_operation p now) doc = Some doc'
    /\ cleared_step p now doc doc'.
Proof.
  intros Hs Hp.
  destruct (team_schema_inv doc Hs)
    as (ta & ia & cl & pts & tp & tm & hs & Hta & Cta & Hia & Cia & Hcl
        & Hpts & Cpts & Htp & Htm & Hhs & Chs).
  unfold cleared_operation, apply_update.
  assert (E1 : apply_op (Push "cleared_challenges" (VStr p)) doc
               = Some (dict_set doc "cleared_challenges"
                                (VList (cl ++ [VStr p])%list))).
  { unfold apply_op. rewrite (split_no_sep "." "cleared_challenges" eq_refl).
    rewrite (update_path_top _ doc "cleared_challenges" eq_refl), Hcl.
    reflexivity. }
  rewrite E1. set (doc1 := dict_set doc "cleared_challenges" _).
  assert (Htm1 : dict_get doc1 "time" = Some (VDict tm))
    by (subst doc1; dict_get_compute; exact Htm).
  assert (E2 : apply_op (Set_ ("time." ++ p) now) doc1
               = Some (dict_set doc1 "time" (VDict (dict_set tm p now)))).
  { unfold apply_op.
    change ("time." ++ p) with ("time" ++ String "." p).
    rewrite (split_two "." "time" p eq_refl (proj2 (field_name_inv p Hp))).
    rewrite (update_path_nested _ doc1 tm "time" p eq_refl Hp Htm1).
    reflexivity. }
  rewrite E2. set (doc2 := dict_set doc1 "time" _).
  exists doc2. split; [reflexivity|].
  assert (Gcl : dict_get doc2 "cleared_challenges" = Some (VList (cl ++ [VStr p])%list))
    by (subst doc2 doc1; dict_get_compute; reflexivity).
  assert (Gtm : dict_get doc2 "time" = Some (VDict (dict_set tm p now)))
    by (subst doc2 doc1; dict_get_compute; reflexivity).
  assert (Frame : forall k, among cleared_fields k = false ->
                            dict_get doc2 k = dict_get doc k).
  { intros k Hk. unfold among, cleared_fields in Hk. simpl in Hk.
    repeat (apply orb_false_iff in Hk as [? Hk]).
    subst doc2 doc1. rewrite !dict_get_set.
    repeat match goal with H : (k =? _)%string = false |- _ => rewrite H end.
    reflexivity. }
  constructor.
  - unfold cleared_challenges. rewrite Gcl, Hcl. reflexivity.
  - unfold time_of.
    rewrite (get_nested_entry doc2 (dict_set tm p now) ("time." ++ p) "time" p
               VNone eq_refl eq_refl Hp Gtm).
    unfold dict_get_default. rewrite dict_get_set_same. reflexivity.
  - unfold team_schema, has. rewrite Gcl, Gtm.
    rewrite !Frame by reflexivity.
    rewrite Hta, Hia, Hpts, Htp, Hhs, Cta, Cia, Cpts, Chs. reflexivity.
  - exact Frame.
Qed.

Lemma among_app_false (a b : list string) (k : string) :
  among (a ++ b) k = false -> among a k = false /\ among b k = false.
Proof.
  unfold among. rewrite existsb_app. apply orb_false_iff.
Qed.

(** The whole [update_operation] on the document of a team. *)
Lemma update_operation_doc (doc : dict) (is_correct : bool) (points : Z)
      (p : string) (now : value) :
  team_schema doc = true -> field_name p = true ->
  exists doc',
    apply_update
      (if is_correct
       then (inc_operation (if is_correct then points else - points) is_correct p
               ++ cleared_operation p now)%list
       else inc_operation (if is_correct then points else - points) is_correct p)
      doc = Some doc'
    /\ scored is_correct points p now doc doc'.
Proof.
  intros Hs Hp.
  destruct (inc_operation_doc doc (if is_correct then points else - points)
              is_correct p Hs Hp) as [doc1 [E1 S1]].
  destruct is_correct.
  - destruct (cleared_operation_doc doc1 p now (step_schema S1) Hp)
      as [doc2 [E2 S2]].
    exists doc2. rewrite apply_update_app, E1. split; [exact E2|].
    pose proof (cstep_frame S2) as F2.
    constructor.
    + rewrite (counter_same "points" doc1 doc2 p eq_refl (F2 "points" eq_refl)).
      apply (step_points S1).
    + unfold total_points, dict_get_default.
      rewrite (F2 "total_points" eq_refl). apply (step_total S1).
    + rewrite (counter_same "total_attempts" doc1 doc2 p eq_refl (F2 "total_attempts" eq_refl)).
      apply (step_attempts S1).
    + rewrite (counter_same "incorrect_attempts" doc1 doc2 p eq_refl (F2 "incorrect_attempts" eq_refl)).
      apply (step_incorrect S1).
    + unfold sum_points. rewrite (F2 "points" eq_refl). apply (step_sum S1).
    + apply (cstep_schema S2).
    + rewrite (cstep_cleared S2). unfold cleared_challenges.
      rewrite (step_frame S1 "cleared_challenges" eq_refl). reflexivity.
    + apply (cstep_time S2).
    + intros k Hk. apply among_app_false in Hk as [Hk1 Hk2].
      rewrite (F2 k Hk2). apply (step_frame S1 k Hk1).
  - exists doc1. split; [exact E1|].
    constructor.
    + apply (step_points S1).
    + apply (step_total S1).
    + apply (step_attempts S1).
    + apply (step_incorrect S1).
    + apply (step_sum S1).
    + apply (step_schema S1).
    + unfold cleared_challenges.
      rewrite (step_frame S1 "cleared_challenges" eq_refl). reflexivity.
    + apply (step_frame S1 "time" eq_refl).
    + intros k Hk. apply among_app_false in Hk as [Hk1 _].
      apply (step_frame S1 k Hk1).
Qed.

(** The [$inc] of the hint count. *)
Lemma hint_operation_doc (doc : dict) (p : string) :
  team_schema doc = true -> field_name p = true ->
  exists doc',
    apply_update [Inc ("hints." ++ p) 1] doc = Some doc'
    /\ counter "hints" doc' p = counter "hints" doc p + 1
    /\ team_schema doc' = true
    /\ (forall k, (k =? "hints")%string = false ->
                  dict_get doc' k = dict_get doc k).
Proof.
  intros Hs Hp.
  destruct (team_schema_inv doc Hs)
    as (ta & ia & cl & pts & tp & tm & hs & Hta & Cta & Hia & Cia & Hcl
        & Hpts & Cpts & Htp & Htm & Hhs & Chs).
  unfold apply_update.
  rewrite (apply_inc_counter doc hs ("hints." ++ p) "hints" p 1
             eq_refl eq_refl eq_refl Hp Hhs Chs).
  set (hs' := dict_set hs p _).
  set (doc1 := dict_set doc "hints" (VDict hs')).
  exists doc1.
  assert (Ghs : dict_get doc1 "hints" = Some (VDict hs'))
    by (subst doc1; apply dict_get_set_same).
  assert (Frame : forall k, (k =? "hints")%string = false ->
                            dict_get doc1 k = dict_get doc k)
    by (intros k Hk; subst doc1; apply dict_get_set_other, Hk).
  repeat split.
  - unfold counter.
    rewrite (get_nested_entry doc1 hs' ("hints" ++ "." ++ p) "hints" p _
               eq_refl eq_refl Hp Ghs).
    rewrite (get_nested_entry doc hs ("hints" ++ "." ++ p) "hints" p _
               eq_refl eq_refl Hp Hhs).
    subst hs'. unfold dict_get_default at 1. rewrite dict_get_set_same. reflexivity.
  - unfold team_schema, has. rewrite Ghs. rewrite !Frame by reflexivity.
    rewrite Hta, Hia, Hcl, Hpts, Htp, Htm, Cta, Cia, Cpts.
    subst hs'. rewrite counters_set by assumption. reflexivity.
  - exact Frame.
Qed.

End ScoreUpdate.

(* ================================================================= *)
(** ** [Database] operations on the collection *)

Section DatabaseFacts.
Import Py Mongo Database Team.

Lemma find_one_matches (filter : dict) (coll : list dict) (doc : dict) :
  find_one filter coll = Some doc -> matches filter doc = true.
Proof. unfold find_one. intros H. apply (find_some _ _ H). Qed.

Lemma matches_team_id (team_id : value) (doc doc' : dict) :
  dict_get doc' "team_id" = dict_get doc "team_id" ->
  matches (by_team_id team_id) doc' = matches (by_team_id team_id) doc.
Proof. intros E. unfold matches, by_team_id. simpl. rewrite E. reflexivity. Qed.

(** [update_score] on a team that exists. *)
Lemma update_score_found (w : world) (team_id : value) (doc : dict)
      (is_correct : bool) (points : Z) (p : string) :
  find_one (by_team_id team_id) (teams w) = Some doc ->
  team_schema doc = true -> field_name p = true ->
  exists coll' doc',
    update_score team_id is_correct points p w
    = (inr tt, World coll' (clock w))
    /\ find_one (by_team_id team_id) coll' = Some doc'
    /\ scored is_correct points p (clock w) doc doc'.
Proof.
  intros Hfind Hs Hp.
  destruct (update_operation_doc doc is_correct points p (clock w) Hs Hp)
    as [doc' [Hup Hsc]].
  assert (Hm : matches (by_team_id team_id) doc' = true).
  { rewrite (matches_team_id team_id doc doc').
    - apply (find_one_matches _ _ _ Hfind).
    - apply (scored_frame Hsc). reflexivity. }
  destruct (update_first_found _ _ _ _ _ Hfind Hup Hm) as [coll' [Hc Hf']].
  exists coll', doc'. split; [|split; assumption].
  unfold update_score, bind, get_team, find_one_. cbv beta iota zeta.
  rewrite Hfind.
  destruct is_correct; unfold bind, datetime_now, update_one;
    cbv beta iota zeta; rewrite Hc; reflexivity.
Qed.

(** [update_score] on a team that does not exist. *)
Lemma update_score_missing (w : world) (team_id : value)
      (is_correct : bool) (points : Z) (p : string) :
  find_one (by_team_id team_id) (teams w) = None ->
  update_score team_id is_correct points p w
  = (inl (ValueError ("Team with ID " ++ py_str team_id ++ " not found.")), w).
Proof.
  intros Hfind. unfold update_score, bind, get_team, find_one_. simpl.
  rewrite Hfind. reflexivity.
Qed.

(** [update_hint_score] on a team that exists. *)
Lemma update_hint_score_found (w : world) (team_id : value) (doc : dict)
      (p : string) (cost : Z) :
  find_one (by_team_id team_id) (teams w) = Some doc ->
  team_schema doc = true -> field_name p = true ->
  exists coll' doc',
    update_hint_score team_id p cost w = (inr tt, World coll' (clock w))
    /\ find_one (by_team_id team_id) coll' = Some doc'
    /\ hinted cost p doc doc'.
Proof.
  intros Hfind Hs Hp.
  destruct (update_score_found w team_id doc false cost p Hfind Hs Hp)
    as (coll1 & doc1 & Hrun1 & Hfind1 & Hsc).
  destruct (hint_operation_doc doc1 p (scored_schema Hsc) Hp)
    as (doc2 & Hup & Htaken & Hs2 & Frame).
  assert (Hm : matches (by_team_id team_id) doc2 = true).
  { rewrite (matches_team_id team_id doc1 doc2).
    - apply (find_one_matches _ _ _ Hfind1).
    - apply Frame. reflexivity. }
  destruct (update_first_found _ _ _ _ _ Hfind1 Hup Hm) as [coll2 [Hc Hf2]].
  exists coll2, doc2. split; [|split; [exact Hf2|]].
  - unfold update_hint_score, bind. rewrite Hrun1.
    unfold update_one. cbv beta iota zeta. cbn [teams clock].
    rewrite Hc. reflexivity.
  - pose proof (scored_frame Hsc) as F1.
    constructor.
    + rewrite Htaken. f_equal.
      apply (counter_same "hints" doc doc1 p eq_refl (F1 "hints" eq_refl)).
    + rewrite (counter_same "points" doc1 doc2 p eq_refl (Frame "points" eq_refl)).
      rewrite (scored_points Hsc). lia.
    + unfold total_points, dict_get_default. rewrite (Frame "total_points" eq_refl).
      pose proof (scored_total Hsc) as T. unfold total_points, dict_get_default in T.
      rewrite T. lia.
    + rewrite (counter_same "total_attempts" doc1 doc2 p eq_refl
                 (Frame "total_attempts" eq_refl)).
      apply (scored_attempts Hsc).
    + rewrite (counter_same "incorrect_attempts" doc1 doc2 p eq_refl
                 (Frame "incorrect_attempts" eq_refl)).
      apply (scored_incorrect Hsc).
    + unfold sum_points. rewrite (Frame "points" eq_refl).
      pose proof (scored_sum Hsc) as T. unfold sum_points in T. rewrite T. lia.
    + exact Hs2.
    + unfold cleared_challenges. rewrite (Frame "cleared_challenges" eq_refl).
      apply (scored_cleared Hsc).
    + intros k Hk. unfold among in Hk. simpl in Hk.
      apply orb_false_iff in Hk as [Hk1 Hk2].
      rewrite (Frame k Hk1). apply F1. exact Hk2.
Qed.

End DatabaseFacts.

(* ================================================================= *)
(** ** Properties of the team store *)

Section TeamStore.
Import Py Mongo Database Team.

(** C4. For a team that exists, [update_score] adds [+points] when the
    answer is correct and [-points] when it is not, to both
    [points[p]] and [total_points]; it adds 1 to [total_attempts[p]]
    and adds 1 to [incorrect_attempts[p]] exactly when the answer is
    not correct; exactly when the answer is correct it appends [p] to
    [cleared_challenges] and stamps [time[p]] with the clock.  For a
    team that does not exist it raises the "not found" [ValueError]
    and leaves the store as it was.  The team document has the shape
    [create_team] gives it and [p] is a challenge name. *)
Theorem update_score_spec (w : world) (team_id : value) (is_correct : bool)
        (points : Z) (p : string) :
  field_name p = true ->
  (forall doc,
      find_one (by_team_id team_id) (teams w) = Some doc ->
      team_schema doc = true ->
      exists w' doc',
        update_score team_id is_correct points p w = (inr tt, w')
        /\ find_one (by_team_id team_id) (teams w') = Some doc'
        /\ counter "points" doc' p
           = counter "points" doc p + (if is_correct then points else - points)
        /\ total_points doc'
           = total_points doc + (if is_correct then points else - points)
        /\ counter "total_attempts" doc' p = counter "total_attempts" doc p + 1
        /\ counter "incorrect_attempts" doc' p
           = counter "incorrect_attempts" doc p + (if is_correct then 0 else 1)
        /\ (if is_correct
            then cleared_challenges doc' = (cleared_challenges doc ++ [VStr p])%list
                 /\ time_of doc' p = clock w
            else cleared_challenges doc' = cleared_challenges doc
                 /\ dict_get doc' "time" = dict_get doc "time"))
  /\ (find_one (by_team_id team_id) (teams w) = None ->
      update_score team_id is_correct points p w
      = (inl (ValueError ("Team with ID " ++ py_str team_id ++ " not found.")), w)).
Proof.
  intros Hp. split.
  - intros doc Hfind Hs.
    destruct (update_score_found w team_id doc is_correct points p Hfind Hs Hp)
      as (coll' & doc' & Hrun & Hfind' & Hsc).
    exists (World coll' (clock w)), doc'.
    repeat split.
    + exact Hrun.
    + exact Hfind'.
    + apply (scored_points Hsc).
    + apply (scored_total Hsc).
    + apply (scored_attempts Hsc).
    + apply (scored_incorrect Hsc).
    + pose proof (scored_cleared Hsc) as Hc. pose proof (scored_time Hsc) as Ht.
      destruct is_correct; split; assumption.
  - apply update_score_missing.
Qed.

Lemma update_score_spec_witness :
  (exists w' doc',
      update_score (VStr "123") true 200 "Base69" Sample.fresh = (inr tt, w')
      /\ find_one (by_team_id (VStr "123")) (teams w') = Some doc'
      /\ counter "points" doc' "Base69" = 200
      /\ total_points doc' = 200
      /\ counter "total_attempts" doc' "Base69" = 1
      /\ counter "incorrect_attempts" doc' "Base69" = 0
      /\ cleared_challenges doc' = [VStr "Base69"]
      /\ time_of doc' "Base69" = Sample.noon)
  /\ update_score (VStr "nobody") true 200 "Base69" Sample.fresh
     = (inl (ValueError "Team with ID nobody not found."), Sample.fresh).
Proof.
  destruct (update_score_spec Sample.fresh (VStr "123") true 200 "Base69" eq_refl)
    as [Hfound _].
  destruct (update_score_spec Sample.fresh (VStr "nobody") true 200 "Base69" eq_refl)
    as [_ Hmissing].
  split.
  - destruct (Hfound _ eq_refl eq_refl)
      as (w' & doc' & H1 & H2 & H3 & H4 & H5 & H6 & H7 & H8).
    exists w', doc'. repeat split; assumption.
  - exact (Hmissing eq_refl).
Defined.

Lemma split_nonempty (sep : ascii) (s : string) : split sep s <> [].
Proof.
  destruct s as [|c r]; simpl; [discriminate|].
  destruct (Ascii.eqb c sep); [discriminate|].
  destruct (split sep r); discriminate.
Qed.

Lemma get_nested_loop_scalar (keys : list string) (v default : value) :
  is_dict v = false ->
  get_nested_loop keys v default = match keys with [] => v | _ => default end.
Proof. intros H. destruct keys, v; try reflexivity; discriminate. Qed.

Lemma get_nested_loop_empty (keys : list string) (default : value) :
  keys <> [] -> is_dict default = false ->
  get_nested_loop keys (VDict []) default = default.
Proof.
  intros Hk Hd. destruct keys as [|k rest]; [contradiction|]. simpl.
  unfold dict_get_default. simpl.
  rewrite (get_nested_loop_scalar rest default default Hd).
  destruct rest; reflexivity.
Qed.

(** A table with no entry counts 0 for every challenge. *)
Lemma counter_empty (field : string) (doc : dict) (p : string) :
  has_char "." field = false ->
  dict_get doc field = Some (VDict []) ->
  counter field doc p = 0.
Proof.
  intros Hdot Hget. unfold counter, get_nested_value.
  change (field ++ "." ++ p) with (field ++ String "." p).
  rewrite (split_cons "." field p Hdot). simpl.
  unfold dict_get_default at 1. rewrite Hget.
  rewrite (get_nested_loop_empty (split "." p) (VInt 0) (split_nonempty _ _) eq_refl).
  reflexivity.
Qed.

(** C7, as amended.  [create_team] always inserts one new record, after
    the records already there, and returns [team_id]: the record has
    [total_points] 0, empty tables of per-challenge points, hints and
    attempt counters (so every counter reads 0), and empty
    [cleared_challenges] and [questions].  It makes no check for a record
    with the same [team_id]: the statement holds for every collection. *)
Theorem create_team_inserts (w : world) (team_id : string)
        (team_name : option string) :
  exists doc,
    create_team team_id team_name w
    = (inr team_id, World (teams w ++ [doc]) (clock w))
    /\ dict_get doc "team_id" = Some (VStr team_id)
    /\ dict_get doc "total_points" = Some (VInt 0)
    /\ (forall field, In field counter_fields ->
                      dict_get doc field = Some (VDict [])
                      /\ forall p, counter field doc p = 0)
    /\ dict_get doc "cleared_challenges" = Some (VList [])
    /\ dict_get doc "questions" = Some (VDict [])
    /\ dict_get doc "time" = Some (VDict []).
Proof.
  unfold create_team, bind, count_documents, insert_one, ret.
  eexists. split; [reflexivity|].
  split; [reflexivity|]. split; [reflexivity|]. split.
  - intros field H.
    destruct H as [<-|[<-|[<-|[<-|[]]]]];
      (split; [reflexivity|intros p; apply counter_empty; reflexivity]).
  - repeat split; reflexivity.
Qed.

(** C7, as stated, fails: the test team is there, and [create_team] with
    its id returns normally and leaves two records under that id. *)
Lemma create_team_duplicate :
  is_team_exists (VStr "123") Sample.fresh = (inr true, Sample.fresh)
  /\ exists w',
       create_team "123" (Some "Team Test") Sample.fresh = (inr "123", w')
       /\ List.length (filter (matches (by_team_id (VStr "123"))) (teams w')) = 2%nat.
Proof.
  split; [reflexivity|].
  exists (snd (create_team "123" (Some "Team Test") Sample.fresh)).
  split; vm_compute; reflexivity.
Qed.

(** *** The total is the sum of the points *)

Lemma update_one_preserves (P : dict -> Prop) (filter : dict)
      (ops : list update_op) (w : world) :
  (forall d d', P d -> apply_update ops d = Some d' -> P d') ->
  Forall P (teams w) -> Forall P (teams (snd (update_one filter ops w))).
Proof.
  intros Hstep Hall. unfold update_one.
  destruct (update_first filter ops (teams w)) as [coll'|] eqn:E; simpl.
  - apply update_first_Forall2 in E.
    revert E Hall. generalize (teams w). intros coll E.
    induction E as [|x x' l l' Hx _ IH]; intros Hall; [constructor|].
    inversion Hall as [|? ? Px Pl]; subst.
    constructor; [|apply IH, Pl].
    destruct Hx as [->|Hx]; [exact Px|exact (Hstep x x' Px Hx)].
  - exact Hall.
Qed.

Lemma balanced_scored (is_correct : bool) (points : Z) (p : string)
      (now : value) (doc doc' : dict) :
  balanced doc -> scored is_correct points p now doc doc' -> balanced doc'.
Proof.
  intros [_ Hsum] Hsc. split; [apply (scored_schema Hsc)|].
  rewrite (scored_total Hsc), (scored_sum Hsc), Hsum. reflexivity.
Qed.

Lemma balanced_update_score (w : world) (team_id : value) (is_correct : bool)
      (points : Z) (p : string) :
  field_name p = true -> Forall balanced (teams w) ->
  Forall balanced (teams (snd (update_score team_id is_correct points p w))).
Proof.
  intros Hp Hall. unfold update_score, bind, get_team, find_one_.
  cbv beta iota zeta.
  destruct (find_one (by_team_id team_id) (teams w)) as [found|]; [|exact Hall].
  assert (Hstep : forall now d d',
             balanced d ->
             apply_update
               (if is_correct
                then (inc_operation (if is_correct then points else - points)
                                    is_correct p ++ cleared_operation p now)%list
                else inc_operation (if is_correct then points else - points)
                                   is_correct p) d = Some d' ->
             balanced d').
  { intros now d d' Hd Hup.
    destruct (update_operation_doc d is_correct points p now (proj1 Hd) Hp)
      as [d'' [Hup' Hsc]].
    rewrite Hup in Hup'. injection Hup' as <-.
    exact (balanced_scored _ _ _ _ _ _ Hd Hsc). }
  destruct is_correct.
  - unfold bind, datetime_now. cbv beta iota zeta.
    apply (update_one_preserves balanced); [apply (Hstep (clock w))|exact Hall].
  - apply (update_one_preserves balanced); [apply (Hstep VNone)|exact Hall].
Qed.

Lemma balanced_hint_operation (p : string) (d d' : dict) :
  field_name p = true -> balanced d ->
  apply_update [Inc ("hints." ++ p) 1] d = Some d' -> balanced d'.
Proof.
  intros Hp [Hs Hsum] Hup.
  destruct (hint_operation_doc d p Hs Hp) as (d'' & Hup' & _ & Hs' & Frame).
  rewrite Hup in Hup'. injection Hup' as <-.
  split; [exact Hs'|].
  unfold total_points, sum_points, dict_get_default in *.
  rewrite (Frame "total_points" eq_refl), (Frame "points" eq_refl). exact Hsum.
Qed.

Lemma balanced_update_hint_score (w : world) (team_id : value) (p : string)
      (points : Z) :
  field_name p = true -> Forall balanced (teams w) ->
  Forall balanced (teams (snd (update_hint_score team_id p points w))).
Proof.
  intros Hp Hall. unfold update_hint_score, bind.
  pose proof (balanced_update_score w team_id false points p Hp Hall) as H1.
  destruct (update_score team_id false points p w) as [[e|[]] w1]; simpl in H1.
  - exact H1.
  - apply (update_one_preserves balanced); [|exact H1].
    intros d d'. apply (balanced_hint_operation p d d' Hp).
Qed.

Lemma balanced_new_team (count : Z) (team_id team_name : string) :
  balanced (new_team count team_id team_name).
Proof. split; reflexivity. Qed.

Lemma balanced_create_team (w : world) (team_id : string)
      (team_name : option string) :
  Forall balanced (teams w) ->
  Forall balanced (teams (snd (create_team team_id team_name w))).
Proof.
  intros Hall. unfold create_team, bind, count_documents, insert_one, ret.
  simpl. apply Forall_app. split; [exact Hall|].
  constructor; [apply balanced_new_team|constructor].
Qed.

Lemma balanced_reachable (w : world) :
  History.reachable w -> Forall balanced (teams w).
Proof.
  induction 1 as [now|w now _ IH|w o _ IH Hnamed]; simpl.
  - constructor.
  - exact IH.
  - destruct o as [tid nm|tid ok pts p|tid p pts]; simpl in *.
    + apply balanced_create_team, IH.
    + apply balanced_update_score; assumption.
    + apply balanced_update_hint_score; assumption.
Qed.

Lemma reachable_run (ops : list History.operation) (w : world) :
  History.reachable w -> forallb History.well_named ops = true ->
  History.reachable (History.run ops w).
Proof.
  revert w. induction ops as [|o ops IH]; simpl; intros w Hw Hops.
  - exact Hw.
  - apply andb_true_iff in Hops as [Ho Hops].
    apply IH; [apply History.reach_after; assumption|exact Hops].
Qed.

(** C9. In every world reached from the empty collection by
    [create_team], [update_score] and [update_hint_score], each naming
    its challenge by a challenge name, every team record has
    [total_points] equal to the sum of its [points[p]] over all
    challenges [p]. *)
Theorem total_points_is_sum (w : world) (doc : dict) :
  History.reachable w -> In doc (teams w) ->
  total_points doc = sum_points doc.
Proof.
  intros Hw Hin.
  pose proof (balanced_reachable w Hw) as Hall.
  rewrite Forall_forall in Hall. apply (Hall doc Hin).
Qed.

Lemma total_points_is_sum_witness :
  let w := History.run
             [ History.CreateTeam "123" (Some "Team Test");
               History.UpdateScore (VStr "123") true 200 "Base69";
               History.UpdateScore (VStr "123") false 50 "Riddle";
               History.UpdateHintScore (VStr "123") "Riddle" 100 ]
             (World [] Sample.noon) in
  exists doc, teams w = [doc]
              /\ total_points doc = 50 /\ total_points doc = sum_points doc.
Proof.
  intros w.
  exists (hd [] (teams w)). split; [reflexivity|]. split; [reflexivity|].
  apply (total_points_is_sum w).
  - apply reachable_run; [apply History.reach_empty|reflexivity].
  - left. reflexivity.
Defined.

End TeamStore.

(* ================================================================= *)
(** ** [get_nested_value] *)

Section GetNested.
Import Py Database Team.




(** Outside what the callers pass: a default that is itself a mapping
    is looked into.  In [{}] the segment [a] of the path [a.b] is
    missing; the code goes on to look [b] up in the default
    [{"b": 1}] and returns 1. *)
Lemma get_nested_value_reads_default :
  let default := VDict [("b", VInt 1)] in
  get_nested_value (VDict []) "a.b" default = VInt 1
  /\ Design.get_nested (VDict []) "a.b" default = default
  /\ get_nested_value (VDict []) "a.b" default
     <> Design.get_nested (VDict []) "a.b" default.
Proof.
  simpl. split; [reflexivity|]. split; [reflexivity|].
  vm_compute. discriminate.
Qed.

End GetNested.

(* ================================================================= *)
(** ** The decorated question *)

Section FullQuestion.
Import Py Team AllChallenges.

(** The ordinals [1 .. n]. *)
Lemma enumerate_map_fst {A} (start : Z) (l : list A) :
  map fst (enumerate start l)
  = map (fun i => start + Z.of_nat i) (seq 0 (List.length l)).
Proof.
  revert start. induction l as [|x l IH]; intros start; simpl; [reflexivity|].
  f_equal; [lia|]. rewrite IH, <- seq_shift, map_map.
  apply map_ext. intros i. lia.
Qed.

Lemma hints_list_entries (hs : list (Z * string)) (start : Z) :
  map (fun ih : Z * (Z * string) =>
         match ih with
         | (index, (hint_points, _)) =>
             VDict [("hint_no", VInt (index + 1)); ("points", VInt hint_points)]
         end) (enumerate start hs)
  = map (fun ic : Z * Z =>
           VDict [("hint_no", VInt (fst ic + 1)); ("points", VInt (snd ic))])
        (combine (map fst (enumerate start hs)) (map fst hs)).
Proof.
  revert start. induction hs as [|[cost text] hs IH]; intros start; simpl.
  - reflexivity.
  - rewrite IH. reflexivity.
Qed.

Lemma dict_union_last (a : dict) (b : dict) (k : string) (v : value) :
  dict_get (dict_union a (b ++ [(k, v)])%list) k = Some v.
Proof.
  unfold dict_union. rewrite fold_left_app. simpl. apply dict_get_set_same.
Qed.

(** The entries of [hints_list] are computed from the costs alone. *)
Lemma hints_list_costs (hs : list (Z * string)) :
  hints_list hs
  = map (fun ic : Z * Z =>
           VDict [("hint_no", VInt (fst ic + 1)); ("points", VInt (snd ic))])
        (combine (map Z.of_nat (seq 0 (List.length (map fst hs))))
                 (map fst hs)).
Proof.
  unfold hints_list. rewrite hints_list_entries, enumerate_map_fst, length_map.
  reflexivity.
Qed.

(** C5, as amended.  The decorated payload is the question with four
    fields added or replaced: [challenge_id], [points], [penalty] and
    [hints]; every other field is the question's own.  The field
    [hints] holds the number of hints and, for the hint at position [i]
    (from 0), exactly its ordinal [i + 1] and its cost under [points].
    No hint text is in the payload: two challenges that differ only in
    the texts of their hints decorate a question to the same payload. *)
Theorem generate_full_question_hints (self : challenge) (question : dict) :
  let payload := generate_full_question self question in
  let costs := map fst (hints self) in
  (forall k,
      dict_get payload k
      = if (k =? "hints")%string then
          Some (VDict
                  [ ("count", VInt (Z.of_nat (List.length costs)));
                    ("hints_list",
                     VList (map (fun ic : Z * Z =>
                                   VDict [("hint_no", VInt (fst ic + 1));
                                          ("points", VInt (snd ic))])
                                (combine
                                   (map Z.of_nat (seq 0 (List.length costs)))
                                   costs))) ])
        else if (k =? "penalty")%string then Some (VInt (penalty self))
        else if (k =? "points")%string then Some (VInt (points self))
        else if (k =? "challenge_id")%string then Some (challenge_id self)
        else dict_get question k)
  /\ (forall other : challenge,
        challenge_id other = challenge_id self ->
        points other = points self ->
        penalty other = penalty self ->
        map fst (hints other) = map fst (hints self) ->
        generate_full_question other question = payload).
Proof.
  intros payload costs. subst payload costs. split.
  - intros k. unfold generate_full_question, additional_info, dict_union.
    cbn [fold_left fst snd]. rewrite !dict_get_set.
    rewrite hints_list_costs, length_map. reflexivity.
  - intros other Hid Hpoints Hpenalty Hcosts.
    unfold generate_full_question, additional_info.
    rewrite Hid, Hpoints, Hpenalty, !hints_list_costs, Hcosts.
    rewrite <- (length_map fst (hints other)), <- (length_map fst (hints self)).
    rewrite Hcosts. reflexivity.
Qed.

(** C5, as stated, fails: the entry of a hint carries its cost besides
    its ordinal. *)
Lemma hints_list_discloses_cost :
  hints_list (hints Sample.needle)
  = [VDict [("hint_no", VInt 1); ("points", VInt 200)]]
  /\ ~ (forall entry, In entry (hints_list (hints Sample.needle)) ->
                      exists n, entry = VDict [("hint_no", VInt n)]).
Proof.
  split; [reflexivity|].
  intros H. destruct (H _ (or_introl eq_refl)) as [n Hn]. discriminate Hn.
Qed.

End FullQuestion.

(* ================================================================= *)
(** ** The challenge engine *)

Section Monad.

Lemma bind_ok {A B} (c : M A) (k : A -> M B) (w w' : world) (a : A) :
  c w = (inr a, w') -> bind c k w = k a w'.
Proof. intros H. unfold bind. rewrite H. reflexivity. Qed.

Lemma bind_lift_ok {A B} (r : exn + A) (k : A -> M B) (w : world) (a : A) :
  r = inr a -> bind (lift r) k w = k a w.
Proof. intros ->. reflexivity. Qed.

End Monad.

(* ================================================================= *)
(** ** [str()] and [strip()] as [validate] uses them *)

Section Renderings.
Import Py Team.

Lemma lstrip_blank (s : string) : blank s = true -> lstrip s = "".
Proof.
  unfold blank. induction s as [|c r IH]; simpl; [reflexivity|].
  intros H. apply andb_true_iff in H as [Hc Hr]. rewrite Hc. apply IH, Hr.
Qed.

Lemma lstrip_blank_app (before s : string) :
  blank before = true -> lstrip (before ++ s) = lstrip s.
Proof.
  unfold blank. induction before as [|c r IH]; simpl; [reflexivity|].
  intros H. apply andb_true_iff in H as [Hc Hr]. rewrite Hc. apply IH, Hr.
Qed.

Lemma rstrip_blank (s : string) : blank s = true -> rstrip s = "".
Proof.
  unfold blank. induction s as [|c r IH]; simpl; [reflexivity|].
  intros H. apply andb_true_iff in H as [Hc Hr]. rewrite (IH Hr), Hc.
  reflexivity.
Qed.

Lemma rstrip_app_blank (s after : string) :
  blank after = true -> rstrip (s ++ after) = rstrip s.
Proof.
  intros H. induction s as [|c r IH]; simpl.
  - apply rstrip_blank, H.
  - rewrite IH. reflexivity.
Qed.

Lemma last_default {A} (l : list A) :
  forall a d d', last (a :: l) d = last (a :: l) d'.
Proof.
  induction l as [|b l IH]; intros a d d'; [reflexivity|].
  change (last (b :: l) d = last (b :: l) d'). apply IH.
Qed.

Lemma last_In {A} (l : list A) : forall a d, In (last (a :: l) d) (a :: l).
Proof.
  induction l as [|b l IH]; intros a d; [left; reflexivity|].
  right. change (In (last (b :: l) d) (b :: l)). apply IH.
Qed.

Lemma last_cons {A} (l : list A) (a d : A) : last (a :: l) d = last l a.
Proof.
  destruct l as [|b l]; [reflexivity|].
  change (last (b :: l) d = last (b :: l) a). apply last_default.
Qed.

Lemma rstrip_last (r : string) :
  forall c,
    is_space (last (list_ascii_of_string r) c) = false ->
    rstrip (String c r) = String c r.
Proof.
  induction r as [|c' r' IH]; intros c H.
  - simpl in *. rewrite H. reflexivity.
  - change (rstrip (String c (String c' r')))
      with (match rstrip (String c' r') with
            | EmptyString => if is_space c then EmptyString else String c EmptyString
            | r0 => String c r0
            end).
    rewrite (IH c').
    + reflexivity.
    + cbn [list_ascii_of_string] in H. rewrite last_cons in H. exact H.
Qed.

Lemma strip_padded (core s : string) :
  tight core = true -> padded core s -> strip s = core.
Proof.
  intros Ht (before & after & Hb & Ha & ->). unfold strip.
  rewrite (lstrip_blank_app _ _ Hb).
  destruct core as [|c r].
  - simpl. rewrite (lstrip_blank _ Ha). reflexivity.
  - unfold tight in Ht. cbn [list_ascii_of_string] in Ht.
    apply andb_true_iff in Ht as [Hc Hl].
    apply negb_true_iff in Hc, Hl.
    simpl. rewrite Hc.
    change (String c (r ++ after)) with (String c r ++ after).
    rewrite (rstrip_app_blank _ _ Ha). apply rstrip_last, Hl.
Qed.

Lemma lstrip_split (s : string) :
  exists before, blank before = true /\ s = before ++ lstrip s.
Proof.
  induction s as [|c r IH].
  - exists "". split; reflexivity.
  - simpl. destruct (is_space c) eqn:Hc.
    + destruct IH as (before & Hb & Hr).
      exists (String c before). split.
      * unfold blank in *. simpl. rewrite Hc. exact Hb.
      * simpl. f_equal. exact Hr.
    + exists "". split; reflexivity.
Qed.

Lemma lstrip_head (s : string) (c : ascii) (r : string) :
  lstrip s = String c r -> is_space c = false.
Proof.
  induction s as [|c' r' IH]; simpl; [discriminate|].
  destruct (is_space c') eqn:Hc; [exact IH|].
  intros H. injection H as <- _. exact Hc.
Qed.

Lemma rstrip_split (s : string) :
  exists after, blank after = true /\ s = rstrip s ++ after.
Proof.
  induction s as [|c r IH].
  - exists "". split; reflexivity.
  - destruct IH as (after & Ha & Hr). simpl.
    destruct (rstrip r) as [|c' r'] eqn:E.
    + simpl in Hr. destruct (is_space c) eqn:Hc.
      * exists (String c after). split.
        -- unfold blank in *. simpl. rewrite Hc. exact Ha.
        -- simpl. f_equal. exact Hr.
      * exists after. split; [exact Ha|]. simpl. f_equal. exact Hr.
    + exists after. split; [exact Ha|]. simpl. f_equal. exact Hr.
Qed.

Lemma rstrip_last_char (s : string) (c : ascii) (r : string) :
  rstrip s = String c r ->
  is_space (last (list_ascii_of_string r) c) = false.
Proof.
  revert c r. induction s as [|c' r' IH]; intros c r; simpl; [discriminate|].
  destruct (rstrip r') as [|c2 r2] eqn:E.
  - destruct (is_space c') eqn:Hc; [discriminate|].
    intros H. injection H as <- <-. exact Hc.
  - intros H. injection H as <- <-.
    specialize (IH c2 r2 eq_refl).
    cbn [list_ascii_of_string]. rewrite last_cons. exact IH.
Qed.

Lemma strip_tight (s : string) : tight (strip s) = true.
Proof.
  unfold strip. destruct (rstrip (lstrip s)) as [|c r] eqn:E; [reflexivity|].
  unfold tight. cbn [list_ascii_of_string].
  apply andb_true_iff. split; apply negb_true_iff.
  - destruct (rstrip_split (lstrip s)) as (after & _ & Hs).
    rewrite E in Hs. simpl in Hs. apply (lstrip_head s c _ Hs).
  - apply (rstrip_last_char _ _ _ E).
Qed.

Lemma append_assoc_string (a b c : string) : (a ++ b) ++ c = a ++ b ++ c.
Proof. induction a as [|x r IH]; simpl; congruence. Qed.

Lemma strip_padding (s : string) : padded (strip s) s.
Proof.
  destruct (lstrip_split s) as (before & Hb & Hs).
  destruct (rstrip_split (lstrip s)) as (after & Ha & Hl).
  exists before, after. split; [exact Hb|]. split; [exact Ha|].
  unfold strip. rewrite <- Hl. exact Hs.
Qed.

Lemma padded_self (s : string) : padded s s.
Proof.
  exists "", "". split; [reflexivity|]. split; [reflexivity|].
  simpl. induction s as [|c r IH]; simpl; congruence.
Qed.

(** Two texts are equal once stripped when they are the same text
    between blanks. *)
Lemma strip_eq_iff (a b : string) :
  strip a = strip b
  <-> exists core, tight core = true /\ padded core a /\ padded core b.
Proof.
  split.
  - intros H. exists (strip a). split; [apply strip_tight|].
    split; [apply strip_padding|]. rewrite H. apply strip_padding.
  - intros (core & Ht & Ha & Hb).
    rewrite (strip_padded core a Ht Ha), (strip_padded core b Ht Hb).
    reflexivity.
Qed.

Lemma strip_tight_iff (a t : string) :
  tight a = true -> (strip a = strip t <-> padded a t).
Proof.
  intros Ht. rewrite (strip_padded a a Ht (padded_self a)). split.
  - intros ->. apply strip_padding.
  - intros H. symmetry. apply (strip_padded a t Ht H).
Qed.

Lemma no_blank_tight (s : string) :
  forallb (fun c => negb (is_space c)) (list_ascii_of_string s) = true ->
  tight s = true.
Proof.
  unfold tight. destruct (list_ascii_of_string s) as [|c r]; [reflexivity|].
  intros H. rewrite forallb_forall in H.
  apply andb_true_iff. split; apply H.
  - left. reflexivity.
  - rewrite <- last_cons with (d := c). apply last_In.
Qed.

Lemma uint_no_blank (d : Decimal.uint) :
  forallb (fun c => negb (is_space c))
          (list_ascii_of_string (NilEmpty.string_of_uint d)) = true.
Proof.
  induction d; [reflexivity|..];
    cbn [NilEmpty.string_of_uint list_ascii_of_string forallb];
    rewrite IHd; reflexivity.
Qed.

Lemma str_int_tight (n : Z) : tight (str_int n) = true.
Proof.
  apply no_blank_tight. unfold str_int, NilZero.string_of_int.
  assert (H : forall d,
             forallb (fun c => negb (is_space c))
                     (list_ascii_of_string (NilZero.string_of_uint d)) = true).
  { intros d. destruct d; [reflexivity|..]; apply uint_no_blank. }
  destruct (Z.to_int n) as [d|d]; [apply H|].
  cbn [list_ascii_of_string forallb]. rewrite H. reflexivity.
Qed.

Lemma plain_char_repr (c : ascii) :
  (let n := N_of_ascii c in
   ((32 <=? n) && (n <? 127) && negb (n =? 39) && negb (n =? 92))%N) = true ->
  repr_char "'" c = String c "" /\ Ascii.eqb c "'" = false.
Proof.
  intros Hc.
  assert (H : forallb
                (fun i =>
                   let a := ascii_of_nat i in
                   let n := N_of_ascii a in
                   if ((32 <=? n) && (n <? 127) && negb (n =? 39)
                       && negb (n =? 92))%N
                   then (repr_char "'" a =? String a "")%string
                        && negb (Ascii.eqb a "'")
                   else true) (seq 0 256) = true)
    by (vm_compute; reflexivity).
  rewrite forallb_forall in H. specialize (H (nat_of_ascii c)).
  cbv zeta in H, Hc. rewrite ascii_nat_embedding, Hc in H.
  assert (Hin : In (nat_of_ascii c) (seq 0 256)).
  { apply in_seq. pose proof (nat_ascii_bounded c). lia. }
  specialize (H Hin). apply andb_true_iff in H as [H1 H2].
  split; [apply String.eqb_eq, H1|apply negb_true_iff, H2].
Qed.

Lemma repr_chars_plain (s : string) :
  plain s = true -> repr_chars "'" s = s /\ has_char "'" s = false.
Proof.
  unfold plain. induction s as [|c r IH]; [split; reflexivity|].
  cbn [list_ascii_of_string forallb repr_chars has_char]. intros H.
  apply andb_true_iff in H as [Hc Hr].
  destruct (plain_char_repr c Hc) as [H1 H2]. destruct (IH Hr) as [H3 H4].
  rewrite H1, H2, H3, H4. split; reflexivity.
Qed.

Lemma repr_str_plain (s : string) : plain s = true -> repr_str s = quoted s.
Proof.
  intros H. destruct (repr_chars_plain s H) as [H1 H2].
  unfold repr_str. rewrite H2. cbn [andb]. cbv zeta. rewrite H1. reflexivity.
Qed.

Lemma py_str_plain_list (l : list string) :
  forallb plain l = true ->
  py_str (VList (map VStr l)) = "[" ++ join ", " (map quoted l) ++ "]".
Proof.
  intros H. cbn [py_str py_repr]. rewrite map_map.
  rewrite (map_ext_in _ quoted); [reflexivity|].
  intros a Ha. cbn [py_repr]. apply repr_str_plain.
  rewrite forallb_forall in H. apply H, Ha.
Qed.

Lemma list_ascii_app (a b : string) :
  list_ascii_of_string (a ++ b)
  = (list_ascii_of_string a ++ list_ascii_of_string b)%list.
Proof. induction a as [|c r IH]; simpl; congruence. Qed.

Lemma bracket_tight (s : string) : tight ("[" ++ s ++ "]") = true.
Proof.
  unfold tight.
  change (list_ascii_of_string ("[" ++ s ++ "]"))
    with ("["%char :: list_ascii_of_string (s ++ "]")).
  rewrite list_ascii_app. cbn [list_ascii_of_string].
  rewrite last_last. reflexivity.
Qed.

End Renderings.

Section Engine.
Import Py Mongo Database Team AllChallenges.

Variable self : all_challenges.
Variable w : world.
Variable team_id : value.
Variables cid name : string.
Variable cls : challenge.
Variable doc : dict.

(** The request names a team of the collection and a registered
    challenge. *)
Hypothesis Hteam_id : team_id <> VNone.
Hypothesis Hteam : find_one (by_team_id team_id) (teams w) = Some doc.
Hypothesis Hname : assoc cid (challenges_id self) = Some name.
Hypothesis Hcls : assoc cid (challenges_classes self) = Some cls.

Lemma validate_team_id_ok : validate_team_id team_id w = (inr tt, w).
Proof.
  assert (H : is_team_exists team_id w = (inr true, w)).
  { unfold is_team_exists, bind, get_team, find_one_, ret. rewrite Hteam.
    reflexivity. }
  unfold validate_team_id.
  destruct team_id; try contradiction; rewrite (bind_ok _ _ _ _ _ H);
    reflexivity.
Qed.

Lemma validate_ids_ok :
  validate_team_and_challenge_id self team_id (VStr cid) w = (inr tt, w).
Proof.
  unfold validate_team_and_challenge_id.
  rewrite (bind_ok _ _ _ _ _ validate_team_id_ok).
  unfold table_mem. rewrite Hname. reflexivity.
Qed.

Lemma get_team_ok : get_team team_id w = (inr (Some doc), w).
Proof. unfold get_team, find_one_. rewrite Hteam. reflexivity. Qed.

Lemma cleared_list (l : list value) :
  dict_get doc "cleared_challenges" = Some (VList l) ->
  str_in name (dict_get_default doc "cleared_challenges" VNone)
  = inr (existsb (value_eqb (VStr name)) l).
Proof. intros H. unfold dict_get_default. rewrite H. reflexivity. Qed.

Lemma cleared_In :
  In (VStr name) (cleared_challenges doc) ->
  str_in name (dict_get_default doc "cleared_challenges" VNone) = inr true.
Proof.
  unfold cleared_challenges. intros Hin.
  destruct (dict_get doc "cleared_challenges") as [[| | | |l|]|] eqn:E;
    try contradiction.
  rewrite (cleared_list l E). f_equal. apply existsb_str_in, Hin.
Qed.

Lemma cleared_not_In :
  team_schema doc = true ->
  ~ In (VStr name) (cleared_challenges doc) ->
  str_in name (dict_get_default doc "cleared_challenges" VNone) = inr false.
Proof.
  intros Hs Hnot.
  destruct (team_schema_inv doc Hs)
    as (ta & ia & cl & pts & tp & tm & hs & Hta & Cta & Hia & Cia & Hcl & _).
  rewrite (cleared_list cl Hcl). f_equal.
  destruct (existsb (value_eqb (VStr name)) cl) eqn:E; [|reflexivity].
  exfalso. apply Hnot. unfold cleared_challenges. rewrite Hcl.
  apply existsb_str_in, E.
Qed.

(** The steps [validate] takes before it looks at the answer. *)
Ltac validate_start Hdt Hdc :=
  unfold validate; cbv zeta;
  rewrite ?(dict_get_default_Some _ _ _ _ Hdt), ?(dict_get_default_Some _ _ _ _ Hdc);
  rewrite (bind_ok _ _ _ _ _ validate_ids_ok);
  rewrite (bind_ok _ _ _ _ _ get_team_ok);
  rewrite (bind_lift_ok _ _ _ doc eq_refl);
  unfold table_get; rewrite Hname, Hcls;
  rewrite (bind_lift_ok _ _ _ name eq_refl);
  rewrite (bind_lift_ok _ _ _ cls eq_refl).

(** The steps [get_hint] takes before it looks at the hint number. *)
Ltac get_hint_start :=
  unfold get_hint;
  rewrite (bind_ok _ _ _ _ _ validate_ids_ok);
  unfold table_get; rewrite Hname, Hcls;
  rewrite (bind_lift_ok _ _ _ name eq_refl);
  rewrite (bind_lift_ok _ _ _ cls eq_refl);
  rewrite (bind_ok _ _ _ _ _ get_team_ok);
  rewrite (bind_lift_ok _ _ _ doc eq_refl).

(** C3. Once the name of the challenge is in the team's
    [cleared_challenges], [validate] and [get_hint] for that team and
    challenge return the "already cleared" outcome with status [info]
    and leave the whole store as it was: no total, per-challenge
    points, hint count or attempt counter changes. *)
Theorem cleared_is_final (hint_no : Z) :
  In (VStr name) (cleared_challenges doc) ->
  (forall data,
      dict_get data "team_id" = Some team_id ->
      dict_get data "challenge_id" = Some (VStr cid) ->
      exists response,
        validate self data w = (inr response, w)
        /\ field response "status" = VStr "info"
        /\ field response "message" = VStr "You have already cleared this level."
        /\ field response "total_score" = dict_get_default doc "total_points" (VInt 0))
  /\ exists response,
       get_hint self team_id (VStr cid) hint_no w = (inr response, w)
       /\ field response "status" = VStr "info"
       /\ field response "message" = VStr "You have already cleared this level.".
Proof.
  intros Hin. pose proof (cleared_In Hin) as Hc. split.
  - intros data Hdt Hdc. eexists. split.
    + validate_start Hdt Hdc.
      rewrite (bind_lift_ok _ _ _ true Hc). reflexivity.
    + repeat split; reflexivity.
  - eexists. split.
    + get_hint_start.
      rewrite (bind_lift_ok _ _ _ true Hc). reflexivity.
    + split; reflexivity.
Qed.

Hypothesis Hschema : team_schema doc = true.
Hypothesis Hnamed : field_name name = true.

Lemma total_points_value :
  dict_get_default doc "total_points" (VInt 0) = VInt (total_points doc).
Proof.
  destruct (team_schema_inv doc Hschema)
    as (ta & ia & cl & pts & tp & tm & hs & _ & _ & _ & _ & _ & _ & _ & Htp & _).
  unfold total_points, dict_get_default. rewrite Htp. reflexivity.
Qed.

Lemma hints_taken_value :
  get_nested_value (VDict doc) ("hints." ++ name) (VInt 0)
  = VInt (counter "hints" doc name).
Proof.
  destruct (team_schema_inv doc Hschema)
    as (ta & ia & cl & pts & tp & tm & hs & _ & _ & _ & _ & _ & _ & _ & _ & _
        & Hhs & Chs).
  unfold counter.
  change ("hints" ++ "." ++ name) with ("hints." ++ name).
  rewrite (get_nested_entry doc hs ("hints." ++ name) "hints" name (VInt 0)
             eq_refl eq_refl Hnamed Hhs).
  unfold dict_get_default.
  destruct (counters_get hs name Chs) as [E|[m E]]; rewrite E; reflexivity.
Qed.

Lemma find_none_iff {A} (f : A -> bool) (l : list A) :
  find f l = None <-> Forall (fun x => f x = false) l.
Proof.
  induction l as [|x l IH]; simpl.
  - split; [constructor|reflexivity].
  - destruct (f x) eqn:E.
    + split; [discriminate|]. intros H. inversion H; congruence.
    + rewrite IH. split; [constructor; assumption|].
      intros H. inversion H; assumption.
Qed.

Lemma differs_false (data : dict) (kv : string * value) :
  differs data kv = false <-> same_trimmed data kv.
Proof.
  unfold differs, same_trimmed. rewrite negb_false_iff. apply String.eqb_eq.
Qed.

Lemma find_differs_none (data expected : dict) :
  find (differs data) expected = None <-> Forall (same_trimmed data) expected.
Proof.
  rewrite find_none_iff. split; intros H; induction H; constructor;
    try assumption; apply differs_false; assumption.
Qed.

Lemma find_differs_some (data expected : dict) :
  (exists kv, find (differs data) expected = Some kv)
  <-> Exists (fun kv => ~ same_trimmed data kv) expected.
Proof.
  split.
  - intros [kv H]. apply find_some in H as [Hin Hd].
    apply Exists_exists. exists kv. split; [exact Hin|].
    intros Hs. apply differs_false in Hs. congruence.
  - intros H. destruct (find (differs data) expected) as [kv|] eqn:E.
    + exists kv. reflexivity.
    + exfalso. apply find_differs_none in E.
      apply Exists_exists in H as [kv [Hin Hn]].
      rewrite Forall_forall in E. exact (Hn (E kv Hin)).
Qed.

Lemma all_keys_present (data expected : dict) :
  (forall k, In k (dict_keys expected) -> dict_mem data k = true) ->
  find (fun key => negb (dict_mem data key)) (dict_keys expected) = None.
Proof.
  intros H. apply find_none_iff, Forall_forall. intros k Hin.
  rewrite (H k Hin). reflexivity.
Qed.

(** The answer of [validate] for a team that has not cleared the
    challenge, has a non-empty table of expected values and submits a
    value for each: one [update_score], with the reward when no value
    differs and with the penalty otherwise. *)
Lemma validate_outcome (data expected : dict) :
  dict_get data "team_id" = Some team_id ->
  dict_get data "challenge_id" = Some (VStr cid) ->
  ~ In (VStr name) (cleared_challenges doc) ->
  get_nested_value (VDict doc) ("data_to_validate." ++ name) VNone
  = VDict expected ->
  expected <> [] ->
  (forall k, In k (dict_keys expected) -> dict_mem data k = true) ->
  let correct := match find (differs data) expected with
                 | Some _ => false
                 | None => true
                 end in
  let amount := if correct then points cls else penalty cls in
  exists coll' doc',
    update_score team_id correct amount name w
    = (inr tt, World coll' (clock w))
    /\ find_one (by_team_id team_id) coll' = Some doc'
    /\ scored correct amount name (clock w) doc doc'
    /\ validate self data w
       = (inr (if correct
               then [ ("challenge_id", VStr cid);
                      ("challenge_name", VStr name);
                      ("status", VStr "success");
                      ("message", VStr "Your answer is correct.");
                      ("points_awarded", VInt (points cls));
                      ("total_score", VInt (total_points doc + points cls)) ]
               else [ ("challenge_id", VStr cid);
                      ("challenge_name", VStr name);
                      ("status", VStr "failure");
                      ("message", VStr "Your answer is incorrect.");
                      ("penalty_points", VInt (penalty cls));
                      ("total_score", VInt (total_points doc - penalty cls)) ]),
          World coll' (clock w)).
Proof.
  intros Hdt Hdc Hnot Hexp Hne Hkeys correct amount.
  destruct (update_score_found w team_id doc correct amount name
              Hteam Hschema Hnamed) as (coll' & doc' & Hrun & Hfind & Hsc).
  exists coll', doc'. split; [exact Hrun|]. split; [exact Hfind|].
  split; [exact Hsc|].
  validate_start Hdt Hdc.
  rewrite (bind_lift_ok _ _ _ false (cleared_not_In Hschema Hnot)).
  cbv beta iota. rewrite Hexp.
  assert (Htruthy : truthy (VDict expected) = true)
    by (destruct expected; [contradiction|reflexivity]).
  rewrite Htruthy. cbn [negb].
  rewrite (bind_lift_ok _ _ _ expected eq_refl).
  rewrite (all_keys_present data expected Hkeys).
  rewrite total_points_value.
  subst correct amount.
  destruct (find (differs data) expected) as [kv|];
    rewrite (bind_ok _ _ _ _ _ Hrun); reflexivity.
Qed.

(** C1.  For a team that has not cleared the challenge, whose table of
    expected values is there (a mapping with at least one key, as every
    challenge stores it), and a submission that has every expected key:
    when every expected value
    equals the submitted one as a trimmed string, [validate] applies
    [update_score(true, points, p)] and answers [success] with the
    total before the submission plus [points]; when some expected value
    differs, it applies [update_score(false, penalty, p)], once, and
    answers [failure] with the total before the submission minus
    [penalty]. *)
Theorem validate_scores (data expected : dict) :
  dict_get data "team_id" = Some team_id ->
  dict_get data "challenge_id" = Some (VStr cid) ->
  ~ In (VStr name) (cleared_challenges doc) ->
  get_nested_value (VDict doc) ("data_to_validate." ++ name) VNone
  = VDict expected ->
  expected <> [] ->
  (forall k, In k (dict_keys expected) -> dict_mem data k = true) ->
  (Forall (same_trimmed data) expected ->
   exists w' response,
     update_score team_id true (points cls) name w = (inr tt, w')
     /\ validate self data w = (inr response, w')
     /\ field response "status" = VStr "success"
     /\ field response "points_awarded" = VInt (points cls)
     /\ field response "total_score" = VInt (total_points doc + points cls))
  /\ (Exists (fun kv => ~ same_trimmed data kv) expected ->
      exists w' response,
        update_score team_id false (penalty cls) name w = (inr tt, w')
        /\ validate self data w = (inr response, w')
        /\ field response "status" = VStr "failure"
        /\ field response "penalty_points" = VInt (penalty cls)
        /\ field response "total_score" = VInt (total_points doc - penalty cls)).
Proof.
  intros Hdt Hdc Hnot Hexp Hne Hkeys.
  destruct (validate_outcome data expected Hdt Hdc Hnot Hexp Hne Hkeys)
    as (coll' & doc' & Hrun & _ & _ & Hval).
  split.
  - intros Hall. apply find_differs_none in Hall. rewrite Hall in Hrun, Hval.
    eexists. eexists. split; [exact Hrun|]. split; [exact Hval|].
    repeat split; reflexivity.
  - intros Hsome. apply find_differs_some in Hsome as [kv Hkv].
    rewrite Hkv in Hrun, Hval.
    eexists. eexists. split; [exact Hrun|]. split; [exact Hval|].
    repeat split; reflexivity.
Qed.

(** C10.  [validate] compares the [str()] renderings of the submitted
    and the expected value, each stripped: under the conditions of the
    scoring rule the answer is [success] exactly when this comparison
    holds for every expected key, and [failure] otherwise.  The
    comparison holds exactly when the two renderings are one text
    between blanks.  So, against an expected string, a submitted number
    is right exactly when the string is its decimal numeral between
    blanks (42 for "42"), a boolean when it is [True] or [False], a
    null when it is [None], a string when both are the same text
    between blanks, letter case included, and a list of plain strings
    when the string is the list as [repr] writes it. *)
Theorem validate_compares_renderings (data expected : dict) :
  dict_get data "team_id" = Some team_id ->
  dict_get data "challenge_id" = Some (VStr cid) ->
  ~ In (VStr name) (cleared_challenges doc) ->
  get_nested_value (VDict doc) ("data_to_validate." ++ name) VNone
  = VDict expected ->
  expected <> [] ->
  (forall k, In k (dict_keys expected) -> dict_mem data k = true) ->
  (exists w' response,
      validate self data w = (inr response, w')
      /\ (field response "status" = VStr "success"
          <-> forall k v, In (k, v) expected ->
                same_answer (dict_get_default data k VNone) v)
      /\ (field response "status" = VStr "failure"
          <-> exists k v, In (k, v) expected
                /\ ~ same_answer (dict_get_default data k VNone) v))
  /\ (forall submitted wanted,
        same_answer submitted wanted
        <-> exists core, tight core = true
                         /\ padded core (py_str submitted)
                         /\ padded core (py_str wanted))
  /\ (forall n t, same_answer (VInt n) (VStr t) <-> padded (str_int n) t)
  /\ (forall b t, same_answer (VBool b) (VStr t)
                  <-> padded (if b then "True" else "False") t)
  /\ (forall t, same_answer VNone (VStr t) <-> padded "None" t)
  /\ (forall s t, same_answer (VStr s) (VStr t)
                  <-> exists core, tight core = true
                                   /\ padded core s /\ padded core t)
  /\ (forall l t,
        forallb plain l = true ->
        (same_answer (VList (map VStr l)) (VStr t)
         <-> padded ("[" ++ join ", " (map quoted l) ++ "]") t)).
Proof.
  intros Hdt Hdc Hnot Hexp Hne Hkeys. split.
  - destruct (validate_outcome data expected Hdt Hdc Hnot Hexp Hne Hkeys)
      as (coll' & doc' & _ & _ & _ & Hval).
    assert (Hall : Forall (same_trimmed data) expected
                   <-> forall k v, In (k, v) expected ->
                         same_answer (dict_get_default data k VNone) v).
    { rewrite Forall_forall. split.
      - intros H k v Hin. apply (H (k, v) Hin).
      - intros H [k v] Hin. apply (H k v Hin). }
    assert (Hex : Exists (fun kv => ~ same_trimmed data kv) expected
                  <-> exists k v, In (k, v) expected
                        /\ ~ same_answer (dict_get_default data k VNone) v).
    { rewrite Exists_exists. split.
      - intros [[k v] [Hin Hn]]. exists k, v. split; assumption.
      - intros (k & v & Hin & Hn). exists (k, v). split; assumption. }
    eexists. eexists. split; [exact Hval|].
    rewrite <- Hall, <- Hex, <- find_differs_none, <- find_differs_some.
    destruct (find (differs data) expected) as [kv|]; split; split;
      intros H; try reflexivity; try discriminate H.
    + exists kv. reflexivity.
    + destruct H as [kv' H]. discriminate H.
  - split; [intros submitted wanted; apply strip_eq_iff|].
    split; [intros n t; apply (strip_tight_iff _ t (str_int_tight n))|].
    split; [intros b t; apply strip_tight_iff; destruct b; reflexivity|].
    split; [intros t; apply strip_tight_iff; reflexivity|].
    split; [intros s t; apply strip_eq_iff|].
    intros l t Hl. unfold same_answer. rewrite (py_str_plain_list l Hl).
    apply strip_tight_iff, bracket_tight.
Qed.

(** C6.  For a team that has not cleared the challenge: when the
    team has no expected values for it, [validate] raises the
    "validation information is missing" error; when it has some and a
    key of them is not in the submission, [validate] raises the
    "missing required parameter" error that names the first such key.
    In both cases the store is left as it was. *)
Theorem validate_rejects_incomplete (data : dict) :
  dict_get data "team_id" = Some team_id ->
  dict_get data "challenge_id" = Some (VStr cid) ->
  ~ In (VStr name) (cleared_challenges doc) ->
  (get_nested_value (VDict doc) ("data_to_validate." ++ name) VNone = VNone ->
   validate self data w
   = (inl (HTTPException 500
             ("Data validation information is missing. "
              ++ "Please make a GET request to /question to retrieve the necessary data.")),
      w))
  /\ (forall expected,
        get_nested_value (VDict doc) ("data_to_validate." ++ name) VNone
        = VDict expected ->
        (exists k, In k (dict_keys expected) /\ dict_mem data k = false) ->
        exists key,
          In key (dict_keys expected) /\ dict_mem data key = false
          /\ validate self data w
             = (inl (HTTPException 422 ("Missing required parameter: " ++ key)), w)).
Proof.
  intros Hdt Hdc Hnot. split.
  - intros Habsent. validate_start Hdt Hdc.
    rewrite (bind_lift_ok _ _ _ false (cleared_not_In Hschema Hnot)).
    cbv beta iota. rewrite Habsent. reflexivity.
  - intros expected Hexp [k [Hin Hk]].
    destruct (find (fun key => negb (dict_mem data key)) (dict_keys expected))
      as [key|] eqn:E.
    + pose proof (find_some _ _ E) as [Hkin Hkey].
      apply negb_true_iff in Hkey.
      exists key. split; [exact Hkin|]. split; [exact Hkey|].
      validate_start Hdt Hdc.
      rewrite (bind_lift_ok _ _ _ false (cleared_not_In Hschema Hnot)).
      cbv beta iota. rewrite Hexp.
      assert (Htruthy : truthy (VDict expected) = true)
        by (destruct expected; [contradiction|reflexivity]).
      rewrite Htruthy. cbn [negb].
      rewrite (bind_lift_ok _ _ _ expected eq_refl).
      rewrite E. reflexivity.
    + exfalso. apply find_none_iff in E. rewrite Forall_forall in E.
      specialize (E k Hin). rewrite Hk in E. discriminate E.
Qed.

(** C2.  For a team that has not cleared the challenge and a hint
    number within [1 .. len(hints)], with [taken] the hints the team
    took for the challenge: a hint number up to [taken] returns that
    hint and leaves the store as it was; the number [taken + 1] returns
    the hint, applies [update_hint_score] with its cost, once, so the
    total drops by the cost and [taken] grows by one; a larger number
    returns the [failure] outcome and leaves the store as it was. *)
Theorem get_hint_sequential (hint_no hint_cost : Z) (hint : string) :
  ~ In (VStr name) (cleared_challenges doc) ->
  1 <= hint_no <= Z.of_nat (List.length (hints cls)) ->
  nth_error (hints cls) (Z.to_nat (hint_no - 1)) = Some (hint_cost, hint) ->
  let taken := counter "hints" doc name in
  (hint_no <= taken ->
   exists response,
     get_hint self team_id (VStr cid) hint_no w = (inr response, w)
     /\ field response "hint_no" = VInt hint_no
     /\ field response "hint" = VStr hint
     /\ field response "hint_cost" = VNone
     /\ field response "total_score" = VInt (total_points doc))
  /\ (hint_no = taken + 1 ->
      exists w' doc' response,
        get_hint self team_id (VStr cid) hint_no w = (inr response, w')
        /\ update_hint_score team_id name hint_cost w = (inr tt, w')
        /\ field response "hint_no" = VInt hint_no
        /\ field response "hint" = VStr hint
        /\ field response "hint_cost" = VInt hint_cost
        /\ field response "total_score" = VInt (total_points doc - hint_cost)
        /\ find_one (by_team_id team_id) (teams w') = Some doc'
        /\ total_points doc' = total_points doc - hint_cost
        /\ counter "points" doc' name = counter "points" doc name - hint_cost
        /\ counter "hints" doc' name = taken + 1)
  /\ (hint_no > taken + 1 ->
      exists response,
        get_hint self team_id (VStr cid) hint_no w = (inr response, w)
        /\ field response "status" = VStr "failure"
        /\ field response "message"
           = VList [VStr ("Hint request must follow sequential order."
                          ++ "Middle hints cannot be requested.")]).
Proof.
  intros Hnot Hrange Hnth taken.
  assert (Hin_range :
            (0 <? hint_no)%Z && (hint_no <=? Z.of_nat (List.length (hints cls)))%Z
            = true).
  { apply andb_true_iff. split; [apply Z.ltb_lt|apply Z.leb_le]; lia. }
  assert (Hstart :
              get_hint self team_id (VStr cid) hint_no w
              = (if (taken + 1 >=? hint_no)%Z
                 then
                   if (taken + 1 =? hint_no)%Z
                   then
                     (update_hint_score team_id name hint_cost ;;;
                      ret (dict_set
                             (dict_set
                                [ ("challenge_id", VStr cid);
                                  ("challenge_name", VStr name);
                                  ("status", VStr "sucess");
                                  ("hint_no", VInt hint_no);
                                  ("hint", VStr hint);
                                  ("total_score", VInt (total_points doc)) ]
                                "hint_cost" (VInt hint_cost))
                             "total_score"
                             (VInt (total_points doc - hint_cost)))) w
                   else
                     (inr [ ("challenge_id", VStr cid);
                            ("challenge_name", VStr name);
                            ("status", VStr "sucess");
                            ("hint_no", VInt hint_no);
                            ("hint", VStr hint);
                            ("total_score", VInt (total_points doc)) ], w)
                 else
                   (inr [ ("status", VStr "failure");
                          ("message",
                           VList [VStr ("Hint request must follow sequential order."
                                        ++ "Middle hints cannot be requested.")]) ],
                    w))).
  { get_hint_start.
    rewrite (bind_lift_ok _ _ _ false (cleared_not_In Hschema Hnot)).
    cbv beta iota zeta. rewrite Hin_range.
    rewrite hints_taken_value.
    rewrite (bind_lift_ok _ _ _ (counter "hints" doc name) eq_refl).
    fold taken.
    destruct (taken + 1 >=? hint_no)%Z; [|reflexivity].
    rewrite Hnth, total_points_value.
    destruct (taken + 1 =? hint_no)%Z; [|reflexivity].
    rewrite (bind_lift_ok _ _ _ (total_points doc) eq_refl). reflexivity. }
  split; [|split].
  - intros Hle. eexists. split.
    + rewrite Hstart.
      replace (taken + 1 >=? hint_no)%Z with true by (symmetry; apply Z.geb_le; lia).
      replace (taken + 1 =? hint_no)%Z with false by (symmetry; apply Z.eqb_neq; lia).
      reflexivity.
    + repeat split; reflexivity.
  - intros Heq.
    destruct (update_hint_score_found w team_id doc name hint_cost
                Hteam Hschema Hnamed) as (coll' & doc' & Hrun & Hfind & Hh).
    exists (World coll' (clock w)), doc'. eexists. split.
    + rewrite Hstart.
      replace (taken + 1 >=? hint_no)%Z with true by (symmetry; apply Z.geb_le; lia).
      replace (taken + 1 =? hint_no)%Z with true by (symmetry; apply Z.eqb_eq; lia).
      rewrite (bind_ok _ _ _ _ _ Hrun). reflexivity.
    + split; [exact Hrun|].
      repeat split; try reflexivity.
      * exact Hfind.
      * apply (hinted_total Hh).
      * apply (hinted_points Hh).
      * apply (hinted_taken Hh).
  - intros Hgt. eexists. split.
    + rewrite Hstart.
      replace (taken + 1 >=? hint_no)%Z with false
        by (symmetry; rewrite Z.geb_leb; apply Z.leb_gt; lia).
      reflexivity.
    + split; reflexivity.
Qed.

End Engine.

(* ================================================================= *)
(** ** The engine on the sample data *)

Section EngineSamples.
Import Py Mongo Database Team AllChallenges Sample.

Lemma base69_not_cleared (w : world) :
  cleared_challenges (team_of w) = [] ->
  ~ In (VStr "Base69") (cleared_challenges (team_of w)).
Proof. intros -> []. Qed.

Lemma base69_keys_present (encoded decoded : value) :
  forall k, In k (dict_keys expected_base69) ->
            dict_mem (submission encoded decoded) k = true.
Proof. intros k [<-|[<-|[]]]; reflexivity. Qed.

Lemma validate_scores_witness :
  (exists w' response,
      update_score (VStr "123") true 200 "Base69" issued = (inr tt, w')
      /\ validate engine (submission (VStr " abc ") (VStr "42")) issued
         = (inr response, w')
      /\ field response "status" = VStr "success"
      /\ field response "points_awarded" = VInt 200
      /\ field response "total_score" = VInt 200)
  /\ (exists w' response,
        update_score (VStr "123") false 40 "Base69" issued = (inr tt, w')
        /\ validate engine (submission (VStr "Abc") (VStr "42")) issued
           = (inr response, w')
        /\ field response "status" = VStr "failure"
        /\ field response "penalty_points" = VInt 40
        /\ field response "total_score" = VInt (-40)).
Proof.
  split.
  - refine (proj1 (validate_scores engine issued (VStr "123") "1" "Base69" base69
                     (team_of issued) _ eq_refl eq_refl eq_refl eq_refl eq_refl
                     (submission (VStr " abc ") (VStr "42")) expected_base69
                     eq_refl eq_refl (base69_not_cleared issued eq_refl)
                     eq_refl _ (base69_keys_present _ _)) _).
    + discriminate.
    + discriminate.
    + repeat constructor.
  - refine (proj2 (validate_scores engine issued (VStr "123") "1" "Base69" base69
                     (team_of issued) _ eq_refl eq_refl eq_refl eq_refl eq_refl
                     (submission (VStr "Abc") (VStr "42")) expected_base69
                     eq_refl eq_refl (base69_not_cleared issued eq_refl)
                     eq_refl _ (base69_keys_present _ _)) _).
    + discriminate.
    + discriminate.
    + apply Exists_cons_hd. vm_compute. discriminate.
Defined.

Lemma validate_compares_renderings_witness :
  let tab := String "009" "" in
  (exists w' response,
      validate engine (submission (VStr (tab ++ "abc  ")) (VInt 42)) issued
      = (inr response, w')
      /\ field response "status" = VStr "success")
  /\ same_answer (VInt 42) (VStr " 42 ")
  /\ ~ same_answer (VInt 42) (VStr "042")
  /\ ~ same_answer (VStr "Abc") (VStr "abc")
  /\ ~ same_answer (VStr "a bc") (VStr "abc")
  /\ same_answer (VBool true) (VStr "True")
  /\ same_answer (VList [VStr "a"; VStr "b"]) (VStr "['a', 'b']").
Proof.
  intros tab.
  destruct (validate_compares_renderings engine issued (VStr "123") "1" "Base69"
              base69 (team_of issued) ltac:(discriminate) eq_refl eq_refl eq_refl
              eq_refl eq_refl
              (submission (VStr (tab ++ "abc  ")) (VInt 42)) expected_base69
              eq_refl eq_refl (base69_not_cleared issued eq_refl)
              eq_refl ltac:(discriminate) (base69_keys_present _ _))
    as ((w' & response & Hval & Hok & _)
        & _ & Hint & Hbool & _ & Hstr & Hlist).
  split; [|split; [|split; [|split; [|split; [|split]]]]].
  - exists w', response. split; [exact Hval|]. apply Hok.
    intros k v [E|[E|[]]]; injection E as <- <-.
    + apply Hstr. exists "abc". split; [reflexivity|].
      split; [exists tab, "  "|exists "", ""]; repeat split; reflexivity.
    + apply Hint. exists "", "". repeat split; reflexivity.
  - apply Hint. exists " ", " ". repeat split; reflexivity.
  - intros H. vm_compute in H. discriminate H.
  - intros H. vm_compute in H. discriminate H.
  - intros H. vm_compute in H. discriminate H.
  - apply Hbool. exists "", "". repeat split; reflexivity.
  - apply (Hlist ["a"; "b"] "['a', 'b']" eq_refl).
    exists "", "". repeat split; reflexivity.
Defined.

Lemma validate_rejects_incomplete_witness :
  validate engine [("team_id", VStr "123"); ("challenge_id", VStr "1")] fresh
  = (inl (HTTPException 500
            ("Data validation information is missing. "
             ++ "Please make a GET request to /question to retrieve the necessary data.")),
     fresh)
  /\ exists key,
       validate engine
         [("team_id", VStr "123"); ("challenge_id", VStr "1");
          ("encoded_string", VStr "abc")] issued
       = (inl (HTTPException 422 ("Missing required parameter: " ++ key)), issued).
Proof.
  split.
  - refine (proj1 (validate_rejects_incomplete engine fresh (VStr "123") "1"
                     "Base69" base69 (team_of fresh) _ eq_refl eq_refl eq_refl
                     eq_refl [("team_id", VStr "123"); ("challenge_id", VStr "1")]
                     eq_refl eq_refl
                     (base69_not_cleared fresh eq_refl)) eq_refl).
    discriminate.
  - destruct (proj2 (validate_rejects_incomplete engine issued (VStr "123") "1"
                       "Base69" base69 (team_of issued) ltac:(discriminate)
                       eq_refl eq_refl eq_refl eq_refl
                       [("team_id", VStr "123"); ("challenge_id", VStr "1");
                        ("encoded_string", VStr "abc")]
                       eq_refl eq_refl (base69_not_cleared issued eq_refl))
                expected_base69 eq_refl
                (ex_intro _ "decoded_string"
                   (conj (or_intror (or_introl eq_refl)) eq_refl)))
      as (key & _ & _ & H).
    exists key. exact H.
Defined.

Lemma cleared_is_final_witness :
  (exists response,
      validate engine (submission (VStr "abc") (VStr "42")) cleared_base69
      = (inr response, cleared_base69)
      /\ field response "status" = VStr "info"
      /\ field response "total_score" = VInt 200)
  /\ exists response,
       get_hint engine (VStr "123") (VStr "1") 1 cleared_base69
       = (inr response, cleared_base69)
       /\ field response "status" = VStr "info".
Proof.
  destruct (cleared_is_final engine cleared_base69 (VStr "123") "1" "Base69"
              base69 (team_of cleared_base69) ltac:(discriminate)
              eq_refl eq_refl eq_refl 1 (or_introl eq_refl))
    as [Hval Hhint].
  split.
  - destruct (Hval (submission (VStr "abc") (VStr "42")) eq_refl eq_refl)
      as (response & H1 & H2 & _ & H3).
    exists response. repeat split; assumption.
  - destruct Hhint as (response & H1 & H2 & _).
    exists response. split; assumption.
Defined.

Lemma riddle_not_cleared (w : world) :
  cleared_challenges (team_of w) = [] ->
  ~ In (VStr "Riddle") (cleared_challenges (team_of w)).
Proof. intros -> []. Qed.

Lemma get_hint_sequential_witness :
  (exists response,
      get_hint engine (VStr "123") (VStr "3") 1 hinted_once
      = (inr response, hinted_once)
      /\ field response "hint" = VStr "first clue"
      /\ field response "total_score" = VInt (-100))
  /\ (exists w' doc' response,
        get_hint engine (VStr "123") (VStr "3") 2 hinted_once
        = (inr response, w')
        /\ field response "hint" = VStr "second clue"
        /\ field response "hint_cost" = VInt 150
        /\ field response "total_score" = VInt (-250)
        /\ find_one (by_team_id (VStr "123")) (teams w') = Some doc'
        /\ total_points doc' = -250
        /\ counter "hints" doc' "Riddle" = 2)
  /\ (exists response,
        get_hint engine (VStr "123") (VStr "3") 2 issued = (inr response, issued)
        /\ field response "status" = VStr "failure").
Proof.
  split; [|split].
  - destruct (get_hint_sequential engine hinted_once (VStr "123") "3" "Riddle"
                riddle (team_of hinted_once) ltac:(discriminate)
                eq_refl eq_refl eq_refl eq_refl eq_refl
                1 100 "first clue" (riddle_not_cleared hinted_once eq_refl)
                ltac:(simpl; lia) eq_refl)
      as [Hpaid _].
    destruct (Hpaid ltac:(vm_compute; discriminate))
      as (response & H1 & _ & H2 & _ & H3).
    exists response. repeat split; assumption.
  - destruct (get_hint_sequential engine hinted_once (VStr "123") "3" "Riddle"
                riddle (team_of hinted_once) ltac:(discriminate)
                eq_refl eq_refl eq_refl eq_refl eq_refl
                2 150 "second clue" (riddle_not_cleared hinted_once eq_refl)
                ltac:(simpl; lia) eq_refl)
      as [_ [Hnext _]].
    destruct (Hnext eq_refl)
      as (w' & doc' & response & H1 & _ & _ & H2 & H3 & H4 & H5 & H6 & _ & H7).
    exists w', doc', response. repeat split; assumption.
  - destruct (get_hint_sequential engine issued (VStr "123") "3" "Riddle"
                riddle (team_of issued) ltac:(discriminate)
                eq_refl eq_refl eq_refl eq_refl eq_refl
                2 150 "second clue" (riddle_not_cleared issued eq_refl)
                ltac:(simpl; lia) eq_refl)
      as [_ [_ Hskip]].
    destruct (Hskip ltac:(vm_compute; reflexivity)) as (response & H1 & H2 & _).
    exists response. split; assumption.
Defined.

End EngineSamples.

(* ================================================================= *)
(** ** Further properties of the team store *)

Section TeamStoreMore.
Import Py Mongo Database Team.

Lemma bind_err {A B} (c : M A) (k : A -> M B) (w w' : world) (e : exn) :
  c w = (inl e, w') -> bind c k w = (inl e, w').
Proof.
  intros H. unfold bind. rewrite H.
  reflexivity.
Qed.

Lemma value_eqb_str (s : string) (v : value) :
  value_eqb v (VStr s) = true <-> v = VStr s.
Proof.
  split.
  - destruct v; simpl; try discriminate. intros H.
    apply String.eqb_eq in H. subst. reflexivity.
  - intros ->. simpl. apply String.eqb_refl.
Qed.

Lemma find_app_last {A} (f : A -> bool) (l : list A) (x : A) :
  find f (l ++ [x]) =
  match find f l with
  | Some y => Some y
  | None => if f x then Some x else None
  end.
Proof.
  induction l as [|a l IH]; simpl.
  - reflexivity.
  - destruct (f a); [reflexivity|exact IH].
Qed.

(** X1.  [update_hint_score] on a team that exists takes the cost from
    [points[p]] and from [total_points] and counts one more hint, and
    it also counts one more attempt and one more incorrect attempt for
    the challenge; the cleared challenges stay as they are.  On a team
    that does not exist it raises the "not found" [ValueError] of
    [update_score] and the hint count is never touched: the store is
    returned as it was. *)
Theorem update_hint_score_spec (w : world) (team_id : value) (p : string)
        (cost : Z) :
  field_name p = true ->
  (forall doc,
      find_one (by_team_id team_id) (teams w) = Some doc ->
      team_schema doc = true ->
      exists w' doc',
        update_hint_score team_id p cost w = (inr tt, w')
        /\ find_one (by_team_id team_id) (teams w') = Some doc'
        /\ counter "hints" doc' p = counter "hints" doc p + 1
        /\ counter "points" doc' p = counter "points" doc p - cost
        /\ total_points doc' = total_points doc - cost
        /\ counter "total_attempts" doc' p = counter "total_attempts" doc p + 1
        /\ counter "incorrect_attempts" doc' p
           = counter "incorrect_attempts" doc p + 1
        /\ cleared_challenges doc' = cleared_challenges doc)
  /\ (find_one (by_team_id team_id) (teams w) = None ->
      update_hint_score team_id p cost w
      = (inl (ValueError ("Team with ID " ++ py_str team_id ++ " not found.")), w)).
Proof.
  intros Hp. split.
  - intros doc Hfind Hs.
    destruct (update_hint_score_found w team_id doc p cost Hfind Hs Hp)
      as (coll' & doc' & Hrun & Hfind' & Hh).
    exists (World coll' (clock w)), doc'.
    split; [exact Hrun|]. split; [exact Hfind'|].
    split; [apply (hinted_taken Hh)|]. split; [apply (hinted_points Hh)|].
    split; [apply (hinted_total Hh)|]. split; [apply (hinted_attempts Hh)|].
    split; [apply (hinted_incorrect Hh)|apply (hinted_cleared Hh)].
  - intros Hnone. unfold update_hint_score.
    apply bind_err, update_score_missing, Hnone.
Qed.

Lemma update_hint_score_spec_witness :
  (exists w' doc',
      update_hint_score (VStr "123") "Riddle" 100 Sample.issued = (inr tt, w')
      /\ find_one (by_team_id (VStr "123")) (teams w') = Some doc'
      /\ counter "hints" doc' "Riddle" = 1
      /\ total_points doc' = -100
      /\ counter "incorrect_attempts" doc' "Riddle" = 1)
  /\ update_hint_score (VStr "nobody") "Riddle" 100 Sample.issued
     = (inl (ValueError "Team with ID nobody not found."), Sample.issued).
Proof.
  destruct (update_hint_score_spec Sample.issued (VStr "123") "Riddle" 100 eq_refl)
    as [Hfound _].
  destruct (update_hint_score_spec Sample.issued (VStr "nobody") "Riddle" 100 eq_refl)
    as [_ Hmissing].
  split.
  - destruct (Hfound _ eq_refl eq_refl)
      as (w' & doc' & H1 & H2 & H3 & _ & H5 & _ & H7 & _).
    exists w', doc'. repeat split; assumption.
  - exact (Hmissing eq_refl).
Defined.

Lemma matches_new_team (v : value) (count : Z) (team_id team_name : string) :
  matches (by_team_id v) (new_team count team_id team_name)
  = value_eqb (VStr team_id) v.
Proof. unfold matches, by_team_id. simpl. apply andb_true_r. Qed.

(** X2.  Looking a team up after [create_team], by the id of a team,
    which is a string: when no record had the id, the lookup finds the
    record just inserted; when one had, the lookup still finds that
    earlier record, the new one being shadowed; lookups under any
    other string give what they gave before. *)
Theorem create_team_then_get_team (w : world) (team_id : string)
        (team_name : option string) :
  exists w' doc,
    create_team team_id team_name w = (inr team_id, w')
    /\ teams w' = (teams w ++ [doc])%list
    /\ dict_get doc "team_id" = Some (VStr team_id)
    /\ is_team_exists (VStr team_id) w' = (inr true, w')
    /\ (find_one (by_team_id (VStr team_id)) (teams w) = None ->
        get_team (VStr team_id) w' = (inr (Some doc), w'))
    /\ (forall old,
          find_one (by_team_id (VStr team_id)) (teams w) = Some old ->
          get_team (VStr team_id) w' = (inr (Some old), w'))
    /\ (forall other : string,
          other <> team_id ->
          get_team (VStr other) w'
          = (inr (find_one (by_team_id (VStr other)) (teams w)), w')).
Proof.
  unfold create_team, bind, count_documents, insert_one, ret. cbv beta iota zeta.
  set (count := Z.of_nat (List.length (teams w))).
  set (name' := match team_name with
                | Some n => if (n =? "")%string then "Team - " ++ str_int count else n
                | None => "Team - " ++ str_int count
                end).
  exists (World (teams w ++ [new_team count team_id name']) (clock w)),
         (new_team count team_id name').
  assert (Hself : matches (by_team_id (VStr team_id)) (new_team count team_id name')
                  = true).
  { rewrite matches_new_team. simpl. apply String.eqb_refl. }
  split; [reflexivity|]. split; [reflexivity|]. split; [reflexivity|].
  split; [|split; [|split]].
  - unfold is_team_exists, bind, get_team, find_one_, find_one, ret. simpl.
    rewrite find_app_last, Hself.
    destruct (find _ (teams w)); reflexivity.
  - intros Hnone. unfold get_team, find_one_, find_one in *. simpl.
    rewrite find_app_last, Hnone, Hself. reflexivity.
  - intros old Hold. unfold get_team, find_one_, find_one in *. simpl.
    rewrite find_app_last, Hold. reflexivity.
  - intros other Hother. unfold get_team, find_one_, find_one. simpl.
    rewrite find_app_last, matches_new_team.
    destruct (find (matches (by_team_id (VStr other))) (teams w));
      [reflexivity|].
    cbn [value_eqb].
    destruct (team_id =? other)%string eqn:E; [|reflexivity].
    exfalso. apply Hother. apply String.eqb_eq in E. congruence.
Qed.

(** [$set] on a dotted path, then the lookup along the same path. *)
Lemma set_path_then_get (segs : list string) (v default : value) (d d' : dict) :
  update_path segs (set_field v) d = Some d' ->
  get_nested_loop segs (VDict d') default = v.
Proof.
  revert d d'. induction segs as [|k rest IH]; intros d d'; simpl;
    [discriminate|].
  destruct (k =? "")%string; [discriminate|].
  destruct rest as [|k' rest'].
  - simpl. intros H. injection H as <-.
    unfold dict_get_default. rewrite dict_get_set_same. reflexivity.
  - destruct (dict_get d k) as [[| | | | |sub]|];
      try discriminate;
      (destruct (update_path (k' :: rest') (set_field v) _) as [sub'|] eqn:E;
       [|discriminate]);
      simpl; intros H; injection H as <-;
      unfold dict_get_default at 1; rewrite dict_get_set_same;
      apply (IH _ _ E).
Qed.

(** [$set] on a dotted path changes one top-level field only. *)
Lemma set_path_frame (segs : list string) (v : value) (d d' : dict) (k : string) :
  update_path segs (set_field v) d = Some d' ->
  hd_error segs <> Some k ->
  dict_get d' k = dict_get d k.
Proof.
  destruct segs as [|k0 rest]; simpl; [discriminate|].
  destruct (k0 =? "")%string; [discriminate|].
  intros H Hk.
  assert (Hne : (k =? k0)%string = false).
  { apply String.eqb_neq. intros ->. apply Hk. reflexivity. }
  destruct rest as [|k' rest'].
  - simpl in H. injection H as <-. apply dict_get_set_other, Hne.
  - destruct (dict_get d k0) as [[| | | | |sub]|];
      try discriminate;
      (destruct (update_path (k' :: rest') (set_field v) _) as [sub'|];
       [|discriminate]);
      simpl in H; injection H as <-; apply dict_get_set_other, Hne.
Qed.

Lemma update_first_absent (filter : dict) (ops : list update_op)
      (coll : list dict) :
  find_one filter coll = None -> update_first filter ops coll = Some coll.
Proof.
  unfold find_one. induction coll as [|d rest IH]; simpl; intros H.
  - reflexivity.
  - destruct (matches filter d); [discriminate|].
    rewrite (IH H). reflexivity.
Qed.

Lemma update_first_found_inv (filter : dict) (ops : list update_op)
      (coll coll' : list dict) (doc : dict) :
  find_one filter coll = Some doc ->
  update_first filter ops coll = Some coll' ->
  exists doc', apply_update ops doc = Some doc'.
Proof.
  unfold find_one. revert coll'.
  induction coll as [|d rest IH]; simpl; intros coll' Hfind Hup; [discriminate|].
  destruct (matches filter d).
  - injection Hfind as ->.
    destruct (apply_update ops doc) as [doc'|]; [|discriminate].
    exists doc'. reflexivity.
  - destruct (update_first filter ops rest) as [rest'|] eqn:E; [|discriminate].
    apply (IH rest' Hfind eq_refl).
Qed.

Lemma set_path_fresh (segs : list string) (v : value) :
  segs <> [] -> forallb storage_name segs = true ->
  exists d', update_path segs (set_field v) [] = Some d'.
Proof.
  induction segs as [|k rest IH]; intros Hne Hall; [contradiction|].
  cbn [forallb] in Hall. apply andb_true_iff in Hall as [Hk Hrest].
  unfold storage_name in Hk.
  apply andb_true_iff in Hk as [Hk _]. apply andb_true_iff in Hk as [Hk _].
  apply negb_true_iff in Hk.
  cbn [update_path]. rewrite Hk. destruct rest as [|k' rest'].
  - eexists. reflexivity.
  - cbn [dict_get].
    destruct (IH ltac:(discriminate) Hrest) as [sub Hsub]. rewrite Hsub.
    eexists. reflexivity.
Qed.

Lemma set_path_through (segs : list string) (v : value) :
  forall d,
    through_documents segs d = true ->
    exists d', update_path segs (set_field v) d = Some d'.
Proof.
  induction segs as [|k rest IH]; intros d H; [discriminate H|].
  cbn [through_documents] in H. apply andb_true_iff in H as [Hk H].
  unfold storage_name in Hk.
  apply andb_true_iff in Hk as [Hk _]. apply andb_true_iff in Hk as [Hk _].
  apply negb_true_iff in Hk.
  cbn [update_path]. rewrite Hk. destruct rest as [|k' rest'].
  - eexists. reflexivity.
  - destruct (dict_get d k) as [[| | | | |sub]|]; try discriminate H.
    + destruct (IH sub H) as [sub' Hsub]. rewrite Hsub. eexists. reflexivity.
    + destruct (set_path_fresh (k' :: rest') v ltac:(discriminate) H)
        as [sub' Hsub].
      rewrite Hsub. eexists. reflexivity.
Qed.

(** X3.  [update_value] writes what [get_nested_value] reads, on a path
    through embedded documents.  For a team that exists, a dotted key
    whose names are field names, that meets no array or scalar on its
    way in the team's record and does not start at [team_id] or [_id],
    and a value the store takes: [update_value] returns, the team's
    record then holds the value under the same dotted key, whatever
    the default, and its other top-level fields are as before.  For a
    team that does not exist [update_value] returns normally all the
    same and changes nothing. *)
Theorem update_value_then_get_nested_value (w : world) (team_id : string)
        (key : string) (v : value) :
  storable v = true ->
  (forall doc,
      find_one (by_team_id (VStr team_id)) (teams w) = Some doc ->
      through_documents (split "." key) doc = true ->
      hd_error (split "." key) <> Some "team_id" ->
      hd_error (split "." key) <> Some "_id" ->
      exists w' doc',
        update_value (VStr team_id) key v w = (inr tt, w')
        /\ find_one (by_team_id (VStr team_id)) (teams w') = Some doc'
        /\ (forall default, get_nested_value (VDict doc') key default = v)
        /\ (forall k, hd_error (split "." key) <> Some k ->
                      dict_get doc' k = dict_get doc k))
  /\ (find_one (by_team_id (VStr team_id)) (teams w) = None ->
      forallb storage_name (split "." key) = true ->
      update_value (VStr team_id) key v w = (inr tt, w)).
Proof.
  intros _. unfold update_value, update_one. split.
  - intros doc Hfind Hpath Hkey _.
    destruct (set_path_through (split "." key) v doc Hpath) as [doc' Hset].
    assert (Hdoc : apply_update [Set_ key v] doc = Some doc')
      by (cbn [apply_update apply_op]; rewrite Hset; reflexivity).
    assert (Hm : matches (by_team_id (VStr team_id)) doc' = true).
    { rewrite (matches_team_id (VStr team_id) doc doc').
      - apply (find_one_matches _ _ _ Hfind).
      - apply (set_path_frame _ _ _ _ _ Hset Hkey). }
    destruct (update_first_found _ _ _ _ _ Hfind Hdoc Hm) as [coll' [Hc Hf]].
    rewrite Hc. exists (World coll' (clock w)), doc'.
    split; [reflexivity|]. split; [exact Hf|]. split.
    + intros default. apply (set_path_then_get _ _ _ _ _ Hset).
    + intros k Hk. apply (set_path_frame _ _ _ _ _ Hset Hk).
  - intros Hfind _. rewrite (update_first_absent _ _ _ Hfind).
    destruct w; reflexivity.
Qed.

Lemma update_value_then_get_nested_value_witness :
  let expected := VDict [("flag", VStr "osiris")] in
  storable expected = true
  /\ (exists w' doc',
        update_value (VStr "123") "data_to_validate.Riddle" expected
                     Sample.fresh = (inr tt, w')
        /\ find_one (by_team_id (VStr "123")) (teams w') = Some doc'
        /\ get_nested_value (VDict doc') "data_to_validate.Riddle" VNone
           = expected
        /\ get_nested_value (VDict doc') "data_to_validate.Riddle.flag" VNone
           = VStr "osiris"
        /\ dict_get doc' "total_points" = Some (VInt 0))
  /\ update_value (VStr "nobody") "questions.Riddle" expected Sample.fresh
     = (inr tt, Sample.fresh).
Proof.
  intros expected. split; [reflexivity|].
  destruct (update_value_then_get_nested_value Sample.fresh "123"
              "data_to_validate.Riddle" expected eq_refl) as [Hfound _].
  destruct (update_value_then_get_nested_value Sample.fresh "nobody"
              "questions.Riddle" expected eq_refl) as [_ Hmissing].
  split; [|apply Hmissing; reflexivity].
  destruct (Hfound (Sample.team_of Sample.fresh) eq_refl eq_refl
              ltac:(discriminate) ltac:(discriminate))
    as (w' & doc' & Hrun & Hfind & Hget & Hframe).
  exists w', doc'. split; [exact Hrun|]. split; [exact Hfind|].
  split; [apply Hget|]. split.
  - vm_compute in Hrun. injection Hrun as <-.
    vm_compute in Hfind. injection Hfind as <-. reflexivity.
  - rewrite (Hframe "total_points") by discriminate. reflexivity.
Defined.

Lemma update_first_others (filter : dict) (ops : list update_op)
      (coll coll' : list dict) :
  update_first filter ops coll = Some coll' ->
  Forall2 (fun d d' => d' = d \/ matches filter d = true) coll coll'.
Proof.
  revert coll'. induction coll as [|doc rest IH]; simpl; intros coll' H.
  - injection H as <-. constructor.
  - destruct (matches filter doc) eqn:Hm.
    + destruct (apply_update ops doc) as [doc'|]; [|discriminate].
      injection H as <-. constructor; [right; exact Hm|].
      clear. induction rest; constructor; auto.
    + destruct (update_first filter ops rest) as [rest'|]; [|discriminate].
      injection H as <-. constructor; [left; reflexivity|].
      apply IH. reflexivity.
Qed.

Lemma Forall2_same {A} (R : A -> A -> Prop) (l : list A) :
  (forall x, R x x) -> Forall2 R l l.
Proof. intros H. induction l; constructor; auto. Qed.

Lemma update_one_others (filter : dict) (ops : list update_op) (w : world) :
  Forall2 (fun d d' => d' = d \/ matches filter d = true)
          (teams w) (teams (snd (update_one filter ops w)))
  /\ clock (snd (update_one filter ops w)) = clock w.
Proof.
  unfold update_one.
  destruct (update_first filter ops (teams w)) as [coll'|] eqn:E; simpl.
  - split; [apply (update_first_others _ _ _ _ E)|reflexivity].
  - split; [apply Forall2_same; auto|reflexivity].
Qed.

Lemma update_score_others (w : world) (team_id : value) (is_correct : bool)
      (points : Z) (p : string) :
  Forall2 (fun d d' => d' = d \/ matches (by_team_id team_id) d = true)
          (teams w) (teams (snd (update_score team_id is_correct points p w)))
  /\ clock (snd (update_score team_id is_correct points p w)) = clock w.
Proof.
  unfold update_score, bind, get_team, find_one_. cbv beta iota zeta.
  destruct (find_one (by_team_id team_id) (teams w)) as [found|].
  - destruct is_correct.
    + unfold bind, datetime_now. cbv beta iota zeta. apply update_one_others.
    + apply update_one_others.
  - simpl. split; [apply Forall2_same; auto|reflexivity].
Qed.

(** X4.  [update_score], [update_hint_score] and [update_value] for the
    team of one id, a string, never add, remove or reorder a record,
    and never change a record whose [team_id] is not that string,
    whether they return or raise; the clock is not theirs to move. *)
Theorem updates_leave_other_teams (w : world) (team_id : string) :
  let kept (w' : world) :=
    Forall2 (fun d d' => d' = d \/ dict_get d "team_id" = Some (VStr team_id))
            (teams w) (teams w')
    /\ clock w' = clock w in
  (forall is_correct points p,
      kept (snd (update_score (VStr team_id) is_correct points p w)))
  /\ (forall p cost, kept (snd (update_hint_score (VStr team_id) p cost w)))
  /\ (forall key v, kept (snd (update_value (VStr team_id) key v w))).
Proof.
  intros kept. subst kept. cbv beta.
  assert (Hkey : forall l l' : list dict,
             Forall2 (fun d d' => d' = d
                                  \/ matches (by_team_id (VStr team_id)) d = true)
                     l l' ->
             Forall2 (fun d d' => d' = d
                                  \/ dict_get d "team_id" = Some (VStr team_id))
                     l l').
  { intros l l' H. induction H as [|d d' l l' Hd _ IH]; constructor; [|exact IH].
    destruct Hd as [->|Hm]; [left; reflexivity|right].
    unfold matches, by_team_id in Hm. cbn [forallb fst snd] in Hm.
    rewrite andb_true_r in Hm.
    destruct (dict_get d "team_id") as [v|]; [|discriminate Hm].
    apply value_eqb_str in Hm. congruence. }
  split; [|split].
  - intros is_correct points p.
    destruct (update_score_others w (VStr team_id) is_correct points p)
      as [H C].
    split; [apply Hkey, H|exact C].
  - intros p cost. unfold update_hint_score, bind.
    pose proof (update_score_others w (VStr team_id) false cost p) as [H1 C1].
    destruct (update_score (VStr team_id) false cost p w) as [[e|[]] w1];
      cbn [snd] in *.
    + split; [apply Hkey, H1|exact C1].
    + pose proof (update_one_others (by_team_id (VStr team_id))
                    [Inc ("hints." ++ p) 1] w1) as [H2 C2].
      split; [|rewrite C2; exact C1].
      apply Hkey. revert H2.
      generalize (teams (snd (update_one (by_team_id (VStr team_id))
                                [Inc ("hints." ++ p) 1] w1))).
      revert H1. generalize (teams w1). generalize (teams w).
      intros l0. induction l0 as [|d l0 IH]; intros l1 H1 l2 H2.
      * inversion H1; subst. inversion H2; subst. constructor.
      * inversion H1 as [|? d1 ? l1' Hd1 Hl1]; subst.
        inversion H2 as [|? d2 ? l2' Hd2 Hl2]; subst.
        constructor; [|apply (IH l1' Hl1 l2' Hl2)].
        destruct Hd1 as [->|Hm]; [exact Hd2|right; exact Hm].
  - intros key v. unfold update_value.
    destruct (update_one_others (by_team_id (VStr team_id)) [Set_ key v] w)
      as [H C].
    split; [apply Hkey, H|exact C].
Qed.

End TeamStoreMore.

(* ================================================================= *)
(** ** Further properties of the challenge engine *)

Section Requests.
Import Py Mongo Database Team AllChallenges.

Variable self : all_challenges.

Lemma validate_ids_eq (team_id challenge_id : value) (w : world) :
  validate_team_and_challenge_id self team_id challenge_id w
  = (match team_id with
     | VNone => inl (HTTPException 422 "team_id parameter missing.")
     | _ =>
         match find_one (by_team_id team_id) (teams w) with
         | None => inl (HTTPException 400 "team_id invalid")
         | Some _ =>
             match challenge_id with
             | VNone => inl (HTTPException 422 "challenge_id parameter missing.")
             | VStr cid =>
                 match assoc cid (challenges_id self) with
                 | Some _ => inr tt
                 | None => inl (HTTPException 400 "challenge_id invalid")
                 end
             | VList _ | VDict _ => inl TypeError
             | _ => inl (HTTPException 400 "challenge_id invalid")
             end
         end
     end, w).
Proof.
  unfold validate_team_and_challenge_id, validate_team_id,
    is_team_exists, get_team, find_one_, lift, table_mem, bind, ret, raise.
  destruct team_id; try reflexivity;
    cbv beta iota;
    destruct (find_one _ (teams w)); try reflexivity;
    destruct challenge_id as [| | |cid| |]; try reflexivity;
    cbv beta iota;
    match goal with
    | |- context [assoc ?c ?t] => destruct (assoc c t); reflexivity
    end.
Qed.

Lemma validate_ids_inv (team_id challenge_id : value) (w w' : world) :
  validate_team_and_challenge_id self team_id challenge_id w = (inr tt, w') ->
  w' = w
  /\ exists doc cid name,
       find_one (by_team_id team_id) (teams w) = Some doc
       /\ challenge_id = VStr cid
       /\ assoc cid (challenges_id self) = Some name.
Proof.
  rewrite validate_ids_eq. intros H. injection H as H <-.
  split; [reflexivity|].
  destruct (find_one (by_team_id team_id) (teams w)) as [doc|] eqn:Hfind;
    [|destruct team_id; discriminate H].
  destruct challenge_id as [| | |cid| |]; try (destruct team_id; discriminate H).
  destruct (assoc cid (challenges_id self)) as [name|] eqn:Hname;
    [|destruct team_id; discriminate H].
  exists doc, cid, name. repeat split; assumption.
Qed.

Lemma validate_ids_err (team_id challenge_id : value) (w w' : world) (e : exn) :
  validate_team_and_challenge_id self team_id challenge_id w = (inl e, w') ->
  w' = w.
Proof. rewrite validate_ids_eq. intros H. injection H as _ <-. reflexivity. Qed.

Lemma snd_bind_err {A B} (c : M A) (k : A -> M B) (w : world) (e : exn) :
  fst (c w) = inl e -> snd (bind c k w) = snd (c w).
Proof. unfold bind. destruct (c w) as [[e'|a] w']; simpl; [reflexivity|discriminate]. Qed.

Lemma snd_bind_pure {A B} (c : M A) (r : exn + B) (w : world) :
  snd (bind c (fun _ => lift r) w) = snd (c w).
Proof.
  unfold bind. destruct (c w) as [[e|a] w']; simpl; [reflexivity|].
  destruct r; reflexivity.
Qed.

(** What [validate] does to the store, for any request: nothing, or one
    [update_score] for a team and a challenge the team has not
    cleared, with the reward or the penalty of the challenge. *)
Lemma validate_effect (data : dict) (w : world) :
  snd (validate self data w) = w
  \/ exists team_id cid name cls doc is_correct,
       find_one (by_team_id team_id) (teams w) = Some doc
       /\ assoc cid (challenges_id self) = Some name
       /\ assoc cid (challenges_classes self) = Some cls
       /\ str_in name (dict_get_default doc "cleared_challenges" VNone) = inr false
       /\ snd (validate self data w)
          = snd (update_score team_id is_correct
                   (if is_correct then points cls else penalty cls) name w)
       /\ (forall w1 total,
             update_score team_id is_correct
               (if is_correct then points cls else penalty cls) name w
             = (inr tt, w1) ->
             dict_get_default doc "total_points" (VInt 0) = VInt total ->
             exists response,
               fst (validate self data w) = inr response
               /\ field response "status"
                  = VStr (if is_correct then "success" else "failure")).
Proof.
  unfold validate. cbv zeta.
  set (challenge_id := dict_get_default data "challenge_id" VNone).
  set (team_id := dict_get_default data "team_id" VNone).
  destruct (validate_team_and_challenge_id self team_id challenge_id w)
    as [[e|[]] w0] eqn:Hids.
  - left. rewrite (bind_err _ _ _ _ _ Hids). apply (validate_ids_err _ _ _ _ _ Hids).
  - destruct (validate_ids_inv _ _ _ _ Hids) as (-> & doc & cid & name & Hfind & Hcid & Hname).
    rewrite (bind_ok _ _ _ _ _ Hids).
    assert (Hget : get_team team_id w = (inr (Some doc), w))
      by (unfold get_team, find_one_; rewrite Hfind; reflexivity).
    rewrite (bind_ok _ _ _ _ _ Hget).
    rewrite (bind_lift_ok _ _ _ doc eq_refl).
    rewrite Hcid. unfold table_get. rewrite Hname.
    rewrite (bind_lift_ok _ _ _ name eq_refl).
    destruct (assoc cid (challenges_classes self)) as [cls|] eqn:Hcls;
      [|left; reflexivity].
    rewrite (bind_lift_ok _ _ _ cls eq_refl).
    destruct (str_in name (dict_get_default doc "cleared_challenges" VNone))
      as [e|[|]] eqn:Hin; [left; reflexivity|left; reflexivity|].
    rewrite (bind_lift_ok _ _ _ false eq_refl). cbv beta iota.
    destruct (negb (truthy (get_nested_value (VDict doc)
                              ("data_to_validate." ++ name) VNone)));
      [left; reflexivity|].
    destruct (as_dict (get_nested_value (VDict doc)
                         ("data_to_validate." ++ name) VNone))
      as [e|expected]; [left; reflexivity|].
    rewrite (bind_lift_ok _ _ _ expected eq_refl).
    destruct (find (fun key => negb (dict_mem data key)) (dict_keys expected));
      [left; reflexivity|].
    right.
    destruct (find (differs data) expected) as [kv|].
    + exists team_id, cid, name, cls, doc, false.
      repeat (split; [assumption|]). split.
      * unfold bind at 1.
        destruct (update_score team_id false (penalty cls) name w)
          as [[e|[]] w1]; [reflexivity|].
        cbn [snd].
        destruct (as_int (dict_get_default doc "total_points" (VInt 0)));
          reflexivity.
      * intros w1 total Hrun Htotal. unfold bind at 1.
        rewrite Hrun, Htotal. cbv beta iota.
        eexists. split; reflexivity.
    + exists team_id, cid, name, cls, doc, true.
      repeat (split; [assumption|]). split.
      * unfold bind at 1.
        destruct (update_score team_id true (points cls) name w)
          as [[e|[]] w1]; [reflexivity|].
        cbn [snd].
        destruct (as_int (dict_get_default doc "total_points" (VInt 0)));
          reflexivity.
      * intros w1 total Hrun Htotal. unfold bind at 1.
        rewrite Hrun, Htotal. cbv beta iota.
        eexists. split; reflexivity.
Qed.

(** What [get_hint] does to the store, for any request: nothing, or
    one [update_hint_score] with the cost of a hint of the challenge. *)
Lemma get_hint_effect (team_id challenge_id : value) (hint_no : Z) (w : world) :
  snd (get_hint self team_id challenge_id hint_no w) = w
  \/ exists cid name cls doc hint_cost hint,
       find_one (by_team_id team_id) (teams w) = Some doc
       /\ assoc cid (challenges_id self) = Some name
       /\ assoc cid (challenges_classes self) = Some cls
       /\ In (hint_cost, hint) (hints cls)
       /\ snd (get_hint self team_id challenge_id hint_no w)
          = snd (update_hint_score team_id name hint_cost w).
Proof.
  unfold get_hint.
  destruct (validate_team_and_challenge_id self team_id challenge_id w)
    as [[e|[]] w0] eqn:Hids.
  - left. rewrite (bind_err _ _ _ _ _ Hids). apply (validate_ids_err _ _ _ _ _ Hids).
  - destruct (validate_ids_inv _ _ _ _ Hids)
      as (-> & doc & cid & name & Hfind & Hcid & Hname).
    rewrite (bind_ok _ _ _ _ _ Hids).
    rewrite Hcid. unfold table_get. rewrite Hname.
    rewrite (bind_lift_ok _ _ _ name eq_refl).
    destruct (assoc cid (challenges_classes self)) as [cls|] eqn:Hcls;
      [|left; reflexivity].
    rewrite (bind_lift_ok _ _ _ cls eq_refl).
    assert (Hget : get_team team_id w = (inr (Some doc), w))
      by (unfold get_team, find_one_; rewrite Hfind; reflexivity).
    rewrite (bind_ok _ _ _ _ _ Hget).
    rewrite (bind_lift_ok _ _ _ doc eq_refl).
    destruct (str_in name (dict_get_default doc "cleared_challenges" VNone))
      as [e|[|]] eqn:Hin; [left; reflexivity|left; reflexivity|].
    rewrite (bind_lift_ok _ _ _ false eq_refl). cbv beta iota zeta.
    destruct ((0 <? hint_no)%Z
              && (hint_no <=? Z.of_nat (List.length (hints cls)))%Z);
      [|left; reflexivity].
    destruct (as_int (get_nested_value (VDict doc) ("hints." ++ name) (VInt 0)))
      as [e|taken]; [left; reflexivity|].
    rewrite (bind_lift_ok _ _ _ taken eq_refl).
    destruct (taken + 1 >=? hint_no)%Z; [|left; reflexivity].
    destruct (nth_error (hints cls) (Z.to_nat (hint_no - 1)))
      as [[hint_cost hint]|] eqn:Hnth; [|left; reflexivity].
    destruct (taken + 1 =? hint_no)%Z; [|left; reflexivity].
    destruct (as_int (dict_get_default doc "total_points" (VInt 0)))
      as [e|total]; [left; reflexivity|].
    rewrite (bind_lift_ok _ _ _ total eq_refl).
    right. exists cid, name, cls, doc, hint_cost, hint.
    split; [exact Hfind|]. split; [exact Hname|]. split; [exact Hcls|].
    split; [apply (nth_error_In _ _ Hnth)|].
    apply (snd_bind_pure _ (inr _)).
Qed.

Lemma find_one_split (filter : dict) (coll : list dict) (doc : dict) :
  find_one filter coll = Some doc ->
  exists pre post,
    coll = (pre ++ doc :: post)%list
    /\ Forall (fun d => matches filter d = false) pre
    /\ matches filter doc = true.
Proof.
  unfold find_one. induction coll as [|d rest IH]; simpl; [discriminate|].
  destruct (matches filter d) eqn:Hm.
  - intros H. injection H as ->. exists [], rest.
    split; [reflexivity|]. split; [constructor|exact Hm].
  - intros H. destruct (IH H) as (pre & post & -> & Hpre & Hdoc).
    exists (d :: pre), post. split; [reflexivity|].
    split; [constructor; assumption|exact Hdoc].
Qed.

Lemma find_one_at (filter : dict) (pre post : list dict) (doc : dict) :
  Forall (fun d => matches filter d = false) pre ->
  matches filter doc = true ->
  find_one filter (pre ++ doc :: post) = Some doc.
Proof.
  unfold find_one. intros Hpre Hdoc.
  induction Hpre as [|d pre Hd _ IH]; simpl.
  - rewrite Hdoc. reflexivity.
  - rewrite Hd. exact IH.
Qed.

Lemma update_first_at (filter : dict) (ops : list update_op)
      (pre post : list dict) (doc : dict) :
  Forall (fun d => matches filter d = false) pre ->
  matches filter doc = true ->
  update_first filter ops (pre ++ doc :: post)
  = option_map (fun doc' => (pre ++ doc' :: post)%list) (apply_update ops doc).
Proof.
  intros Hpre Hdoc. induction Hpre as [|d pre Hd _ IH]; simpl.
  - rewrite Hdoc. reflexivity.
  - rewrite Hd, IH. destruct (apply_update ops doc); reflexivity.
Qed.

(** [update_score] replaces the record of the team where it stands. *)
Lemma update_score_replace (w : world) (team_id : value) (doc : dict)
      (is_correct : bool) (points : Z) (p : string) :
  find_one (by_team_id team_id) (teams w) = Some doc ->
  team_schema doc = true -> field_name p = true ->
  exists pre post doc',
    teams w = (pre ++ doc :: post)%list
    /\ Forall (fun d => matches (by_team_id team_id) d = false) pre
    /\ matches (by_team_id team_id) doc' = true
    /\ update_score team_id is_correct points p w
       = (inr tt, World (pre ++ doc' :: post) (clock w))
    /\ scored is_correct points p (clock w) doc doc'.
Proof.
  intros Hfind Hs Hp.
  destruct (update_operation_doc doc is_correct points p (clock w) Hs Hp)
    as [doc' [Hup Hsc]].
  destruct (find_one_split _ _ _ Hfind) as (pre & post & Hw & Hpre & Hdoc).
  assert (Hm : matches (by_team_id team_id) doc' = true).
  { rewrite (matches_team_id team_id doc doc'); [exact Hdoc|].
    apply (scored_frame Hsc). reflexivity. }
  exists pre, post, doc'. split; [exact Hw|]. split; [exact Hpre|].
  split; [exact Hm|]. split; [|exact Hsc].
  unfold update_score, bind, get_team, find_one_. cbv beta iota zeta.
  rewrite Hfind.
  destruct is_correct; unfold bind, datetime_now, update_one;
    cbv beta iota zeta; rewrite Hw, (update_first_at _ _ _ _ _ Hpre Hdoc), Hup;
    reflexivity.
Qed.

(** [update_hint_score] replaces the record of the team where it
    stands. *)
Lemma update_hint_score_replace (w : world) (team_id : value) (doc : dict)
      (p : string) (cost : Z) :
  find_one (by_team_id team_id) (teams w) = Some doc ->
  team_schema doc = true -> field_name p = true ->
  exists pre post doc',
    teams w = (pre ++ doc :: post)%list
    /\ Forall (fun d => matches (by_team_id team_id) d = false) pre
    /\ matches (by_team_id team_id) doc' = true
    /\ update_hint_score team_id p cost w
       = (inr tt, World (pre ++ doc' :: post) (clock w))
    /\ team_schema doc' = true
    /\ cleared_challenges doc' = cleared_challenges doc
    /\ total_points doc' = total_points doc - cost
    /\ counter "hints" doc' p = counter "hints" doc p + 1.
Proof.
  intros Hfind Hs Hp.
  destruct (update_score_replace w team_id doc false cost p Hfind Hs Hp)
    as (pre & post & doc1 & Hw & Hpre & Hm1 & Hrun1 & Hsc).
  destruct (hint_operation_doc doc1 p (scored_schema Hsc) Hp)
    as (doc2 & Hup & Htaken & Hs2 & Frame).
  assert (Hm2 : matches (by_team_id team_id) doc2 = true).
  { rewrite (matches_team_id team_id doc1 doc2); [exact Hm1|].
    apply Frame. reflexivity. }
  exists pre, post, doc2. split; [exact Hw|]. split; [exact Hpre|].
  split; [exact Hm2|]. split; [|split; [exact Hs2|split; [|split]]].
  - unfold update_hint_score, bind. rewrite Hrun1.
    unfold update_one. cbv beta iota zeta. cbn [teams clock].
    rewrite (update_first_at _ _ _ _ _ Hpre Hm1), Hup. reflexivity.
  - unfold cleared_challenges. rewrite (Frame "cleared_challenges" eq_refl).
    apply (scored_cleared Hsc).
  - unfold total_points, dict_get_default. rewrite (Frame "total_points" eq_refl).
    pose proof (scored_total Hsc) as T. unfold total_points, dict_get_default in T.
    rewrite T. lia.
  - rewrite Htaken. f_equal.
    apply (counter_same "hints" doc doc1 p eq_refl).
    apply (scored_frame Hsc). reflexivity.
Qed.

Lemma str_in_false_not_In (doc : dict) (name : string) :
  team_schema doc = true ->
  str_in name (dict_get_default doc "cleared_challenges" VNone) = inr false ->
  ~ In (VStr name) (cleared_challenges doc).
Proof.
  intros Hs Hin.
  destruct (team_schema_inv doc Hs)
    as (ta & ia & cl & pts & tp & tm & hs & _ & _ & _ & _ & Hcl & _).
  rewrite (cleared_list name doc cl Hcl) in Hin.
  unfold cleared_challenges. rewrite Hcl. intros H.
  apply existsb_str_in in H.
  assert (E : existsb (value_eqb (VStr name)) cl = false) by congruence.
  rewrite E in H. discriminate H.
Qed.

Lemma NoDup_snoc {A} (l : list A) (x : A) :
  NoDup l -> ~ In x l -> NoDup (l ++ [x]).
Proof.
  intros Hl Hx. induction Hl as [|a l Ha _ IH]; simpl.
  - constructor; [intros []|constructor].
  - constructor.
    + rewrite in_app_iff. intros [H|[H|[]]]; [contradiction|].
      subst. apply Hx. left. reflexivity.
    + apply IH. intros H. apply Hx. right. exact H.
Qed.

(** X7.  Requests served one after the other keep the list of cleared
    challenges free of repetitions.  If every team record has the shape
    of a team and no challenge twice in [cleared_challenges], then after
    any [validate] request, and after any [get_hint] request, this is so
    again.  [validate] leaves the list of every record as it was, or
    appends one challenge that was not in it, and then its answer is
    [success]; [get_hint] changes no list.  The registry names its
    challenges by class names. *)
Theorem engine_keeps_cleared_unique (w : world) :
  let sound (d : dict) :=
    team_schema d = true /\ NoDup (cleared_challenges d) in
  (forall cid name, assoc cid (challenges_id self) = Some name ->
                    field_name name = true) ->
  Forall sound (teams w) ->
  (forall data,
      Forall sound (teams (snd (validate self data w)))
      /\ Forall2
           (fun d d' =>
              cleared_challenges d' = cleared_challenges d
              \/ exists name response,
                   ~ In (VStr name) (cleared_challenges d)
                   /\ cleared_challenges d'
                      = (cleared_challenges d ++ [VStr name])%list
                   /\ fst (validate self data w) = inr response
                   /\ field response "status" = VStr "success")
           (teams w) (teams (snd (validate self data w))))
  /\ (forall team_id challenge_id hint_no,
        Forall sound
          (teams (snd (get_hint self team_id challenge_id hint_no w)))
        /\ Forall2 (fun d d' => cleared_challenges d' = cleared_challenges d)
             (teams w)
             (teams (snd (get_hint self team_id challenge_id hint_no w)))).
Proof.
  intros sound Hnames Hall. split.
  - intros data.
    destruct (validate_effect data w)
      as [->|(team_id & cid & name & cls & doc & ok & Hfind & Hname & Hcls
              & Hin & Hsnd & Hfst)].
    { split; [exact Hall|]. apply Forall2_same. intros d. left. reflexivity. }
    rewrite Hsnd.
    assert (Hdoc : sound doc).
    { rewrite Forall_forall in Hall. apply Hall.
      unfold find_one in Hfind. apply (find_some _ _ Hfind). }
    destruct Hdoc as [Hs Hnd].
    destruct (update_score_replace w team_id doc ok
                (if ok then points cls else penalty cls) name Hfind Hs
                (Hnames cid name Hname))
      as (pre & post & doc' & Hw & _ & _ & Hrun & Hsc).
    pose proof (str_in_false_not_In doc name Hs Hin) as Hnot.
    rewrite Hrun. cbn [snd teams]. rewrite Hw in Hall |- *.
    apply Forall_app in Hall as [Hpre Hpost].
    inversion Hpost as [|? ? _ Hpost']; subst.
    split.
    + apply Forall_app. split; [exact Hpre|].
      constructor; [|exact Hpost'].
      split; [apply (scored_schema Hsc)|].
      rewrite (scored_cleared Hsc). destruct ok; [|exact Hnd].
      apply NoDup_snoc; [exact Hnd|exact Hnot].
    + apply Forall2_app; [apply Forall2_same; intros d; left; reflexivity|].
      constructor; [|apply Forall2_same; intros d; left; reflexivity].
      destruct ok.
      * right.
        destruct (team_schema_inv doc Hs)
          as (ta & ia & cl & pts & tp & tm & hs0
              & _ & _ & _ & _ & _ & _ & _ & Htp & _).
        destruct (Hfst _ tp Hrun) as (response & Hresp & Hstatus).
        { unfold dict_get_default. rewrite Htp. reflexivity. }
        exists name, response. split; [exact Hnot|].
        split; [apply (scored_cleared Hsc)|]. split; assumption.
      * left. apply (scored_cleared Hsc).
  - intros team_id challenge_id hint_no.
    destruct (get_hint_effect team_id challenge_id hint_no w)
      as [->|(cid & name & cls & doc & cost & hint & Hfind & Hname & Hcls
              & _ & ->)].
    { split; [exact Hall|]. apply Forall2_same. reflexivity. }
    assert (Hdoc : sound doc).
    { rewrite Forall_forall in Hall. apply Hall.
      unfold find_one in Hfind. apply (find_some _ _ Hfind). }
    destruct Hdoc as [Hs Hnd].
    destruct (update_hint_score_replace w team_id doc name cost Hfind Hs
                (Hnames cid name Hname))
      as (pre & post & doc' & Hw & _ & _ & -> & Hs' & Hc & _).
    cbn [snd teams]. rewrite Hw in Hall |- *.
    apply Forall_app in Hall as [Hpre Hpost].
    inversion Hpost as [|? ? _ Hpost']; subst.
    split.
    + apply Forall_app. split; [exact Hpre|].
      constructor; [|exact Hpost'].
      split; [exact Hs'|]. rewrite Hc. exact Hnd.
    + apply Forall2_app; [apply Forall2_same; reflexivity|].
      constructor; [exact Hc|apply Forall2_same; reflexivity].
Qed.

(** X6.  [post_submit] lets no exception but an [HTTPException] out,
    whatever [request.json()] and [validate] do.  On a JSON object
    (that names its team by a string) it is [validate] with the same
    store effect: a response and an [HTTPException] pass as they are,
    any other exception becomes the 500 "internal server error", the
    store staying as [validate] left it.  A body that is no object is
    that 500 error; a [JSONDecodeError] of [request.json()] is the 400
    error with its message; any other exception of [request.json()] is
    the 500 error, an [HTTPException] apart; all three with the store
    untouched. *)
Theorem post_submit_only_http (request_json : Routes.request) (w : world) :
  (forall e, fst (Routes.post_submit self request_json w) = inl e ->
             exists status_code detail, e = HTTPException status_code detail)
  /\ (forall data,
        request_json = Routes.Decoded (VDict data) ->
        Routes.team_by_string data = true ->
        snd (Routes.post_submit self request_json w) = snd (validate self data w)
        /\ (forall response,
              fst (validate self data w) = inr response ->
              fst (Routes.post_submit self request_json w) = inr response)
        /\ (forall e,
              fst (validate self data w) = inl e ->
              fst (Routes.post_submit self request_json w)
              = inl (match e with
                     | HTTPException _ _ => e
                     | _ => HTTPException 500 "internal server error"
                     end)))
  /\ (forall body,
        request_json = Routes.Decoded body -> is_dict body = false ->
        Routes.post_submit self request_json w
        = (inl (HTTPException 500 "internal server error"), w))
  /\ (forall msg,
        request_json = Routes.JSONDecodeError msg ->
        Routes.post_submit self request_json w
        = (inl (HTTPException 400 ("Failed to decode JSON body: " ++ msg)), w))
  /\ (forall e,
        request_json = Routes.Failed e ->
        Routes.post_submit self request_json w
        = (inl (match e with
                | HTTPException _ _ => e
                | _ => HTTPException 500 "internal server error"
                end), w)).
Proof.
  unfold Routes.post_submit, Routes.handle. split; [|split; [|split; [|split]]].
  - intros e. destruct request_json as [body|msg|e0]; cbn [fst].
    + destruct (match body with
                | VDict data => validate self data
                | _ => raise AttributeError
                end w) as [[e'|r] w']; cbn [fst]; [|discriminate].
      destruct e'; intros H; injection H as <-; eauto.
    + intros H. injection H as <-. eauto.
    + destruct e0; cbn [fst]; intros H; injection H as <-; eauto.
  - intros data -> _.
    destruct (validate self data w) as [[e'|r] w']; cbn [fst snd].
    + split; [destruct e'; reflexivity|]. split; [discriminate|].
      intros e H. injection H as <-. destruct e'; reflexivity.
    + split; [reflexivity|]. split; [|discriminate].
      intros response H. injection H as <-. reflexivity.
  - intros body -> Hd. destruct body; try reflexivity. discriminate Hd.
  - intros msg ->. reflexivity.
  - intros e ->. destruct e; reflexivity.
Qed.

End Requests.

(* ================================================================= *)
(** ** One team playing one challenge *)

Section Play.
Import Py Mongo Database Team AllChallenges.

Variable self : all_challenges.
Variable team_id : value.
Variables cid name : string.
Variable cls : challenge.

Hypothesis Hteam_id : team_id <> VNone.
Hypothesis Hname : assoc cid (challenges_id self) = Some name.
Hypothesis Hcls : assoc cid (challenges_classes self) = Some cls.
Hypothesis Hnamed : field_name name = true.

Ltac enter_validate w doc Hteam Hdt Hdc :=
  unfold validate; cbv zeta;
  rewrite ?(dict_get_default_Some _ _ _ _ Hdt), ?(dict_get_default_Some _ _ _ _ Hdc);
  rewrite (bind_ok _ _ _ _ _
             (validate_ids_ok self w team_id cid name doc Hteam_id Hteam Hname));
  rewrite (bind_ok _ _ _ _ _ (get_team_ok w team_id doc Hteam));
  rewrite (bind_lift_ok _ _ _ doc eq_refl);
  unfold table_get; rewrite Hname, Hcls;
  rewrite (bind_lift_ok _ _ _ name eq_refl);
  rewrite (bind_lift_ok _ _ _ cls eq_refl).

Ltac enter_get_hint w doc Hteam :=
  unfold get_hint;
  rewrite (bind_ok _ _ _ _ _
             (validate_ids_ok self w team_id cid name doc Hteam_id Hteam Hname));
  unfold table_get; rewrite Hname, Hcls;
  rewrite (bind_lift_ok _ _ _ name eq_refl);
  rewrite (bind_lift_ok _ _ _ cls eq_refl);
  rewrite (bind_ok _ _ _ _ _ (get_team_ok w team_id doc Hteam));
  rewrite (bind_lift_ok _ _ _ doc eq_refl).

(** X8.  For a challenge the team has not cleared, a hint number
    outside [1 .. len(hints)] is refused with the 400 error and nothing
    is deducted: the message says that the level has no hint, that it
    has only one, or gives the range of the numbers. *)
Theorem get_hint_rejects_number (w : world) (doc : dict) (hint_no : Z) :
  find_one (by_team_id team_id) (teams w) = Some doc ->
  team_schema doc = true ->
  ~ In (VStr name) (cleared_challenges doc) ->
  hint_no <= 0 \/ Z.of_nat (List.length (hints cls)) < hint_no ->
  get_hint self team_id (VStr cid) hint_no w
  = (inl (HTTPException 400
            (match hints cls with
             | [] => "No hints available for this level."
             | [_] => "There is only one hint available for this level."
             | _ => "Invalid hint number. "
                    ++ "Please provide a hint number between 1 and "
                    ++ str_int (Z.of_nat (List.length (hints cls))) ++ "."
             end)), w).
Proof.
  intros Hteam Hschema Hnot Hout.
  enter_get_hint w doc Hteam.
  rewrite (bind_lift_ok _ _ _ false (cleared_not_In name doc Hschema Hnot)).
  cbv beta iota zeta.
  assert (Hrange : (0 <? hint_no)%Z
                   && (hint_no <=? Z.of_nat (List.length (hints cls)))%Z = false).
  { apply andb_false_iff. destruct Hout as [H|H].
    - left. apply Z.ltb_ge. exact H.
    - right. apply Z.leb_gt. exact H. }
  rewrite Hrange. unfold hint_error_message, raise.
  destruct (hints cls) as [|h1 [|h2 rest]]; try reflexivity.
  simpl List.length.
  replace (Z.of_nat (S (S (List.length rest))) =? 0)%Z with false
    by (symmetry; apply Z.eqb_neq; lia).
  replace (Z.of_nat (S (S (List.length rest))) =? 1)%Z with false
    by (symmetry; apply Z.eqb_neq; lia).
  reflexivity.
Qed.

(** The answer of [validate] about a cleared challenge. *)
Lemma validate_cleared (w : world) (doc data : dict) :
  find_one (by_team_id team_id) (teams w) = Some doc ->
  In (VStr name) (cleared_challenges doc) ->
  dict_get data "team_id" = Some team_id ->
  dict_get data "challenge_id" = Some (VStr cid) ->
  validate self data w
  = (inr (already_cleared (VStr cid) name
          ++ [("total_score", dict_get_default doc "total_points" (VInt 0))])%list,
     w).
Proof.
  intros Hteam Hin Hdt Hdc.
  enter_validate w doc Hteam Hdt Hdc.
  rewrite (bind_lift_ok _ _ _ true (cleared_In name doc Hin)). reflexivity.
Qed.

(** X9.  Points are awarded once.  When [validate] answers [success]
    to a submission, any later submission for the same team and
    challenge, right or wrong, is answered [info] with the total the
    success reported, and changes nothing in the store. *)
Theorem validate_awards_once (w : world) (doc data expected : dict) :
  find_one (by_team_id team_id) (teams w) = Some doc ->
  team_schema doc = true ->
  dict_get data "team_id" = Some team_id ->
  dict_get data "challenge_id" = Some (VStr cid) ->
  ~ In (VStr name) (cleared_challenges doc) ->
  get_nested_value (VDict doc) ("data_to_validate." ++ name) VNone
  = VDict expected ->
  expected <> [] ->
  (forall k, In k (dict_keys expected) -> dict_mem data k = true) ->
  Forall (same_trimmed data) expected ->
  exists w' first,
    validate self data w = (inr first, w')
    /\ field first "status" = VStr "success"
    /\ field first "total_score" = VInt (total_points doc + points cls)
    /\ forall again,
         dict_get again "team_id" = Some team_id ->
         dict_get again "challenge_id" = Some (VStr cid) ->
         exists second,
           validate self again w' = (inr second, w')
           /\ field second "status" = VStr "info"
           /\ field second "total_score" = field first "total_score".
Proof.
  intros Hteam Hschema Hdt Hdc Hnot Hexp Hne Hkeys Hall.
  destruct (validate_outcome self w team_id cid name cls doc Hteam_id Hteam
              Hname Hcls Hschema Hnamed data expected Hdt Hdc Hnot Hexp Hne Hkeys)
    as (coll' & doc' & _ & Hfind' & Hsc & Hval).
  apply find_differs_none in Hall. rewrite Hall in Hsc, Hval.
  eexists. eexists. split; [exact Hval|].
  split; [reflexivity|]. split; [reflexivity|].
  intros again Hat Hac.
  assert (Hin : In (VStr name) (cleared_challenges doc')).
  { rewrite (scored_cleared Hsc). apply in_or_app. right. left. reflexivity. }
  eexists. split.
  - apply (validate_cleared (World coll' (clock w)) doc' again Hfind' Hin Hat Hac).
  - split; [reflexivity|].
    unfold field at 1 2. cbn [dict_get_default dict_get already_cleared app].
    simpl. rewrite (total_points_value doc' (scored_schema Hsc)).
    rewrite (scored_total Hsc). reflexivity.
Qed.

(** Taking the next hint. *)
Lemma get_hint_next (w : world) (doc : dict) (hint_cost : Z) (hint : string) :
  find_one (by_team_id team_id) (teams w) = Some doc ->
  team_schema doc = true ->
  ~ In (VStr name) (cleared_challenges doc) ->
  0 <= counter "hints" doc name ->
  nth_error (hints cls) (Z.to_nat (counter "hints" doc name))
  = Some (hint_cost, hint) ->
  exists coll' doc' response,
    get_hint self team_id (VStr cid) (counter "hints" doc name + 1) w
    = (inr response, World coll' (clock w))
    /\ field response "hint" = VStr hint
    /\ field response "hint_cost" = VInt hint_cost
    /\ find_one (by_team_id team_id) coll' = Some doc'
    /\ team_schema doc' = true
    /\ cleared_challenges doc' = cleared_challenges doc
    /\ total_points doc' = total_points doc - hint_cost
    /\ counter "hints" doc' name = counter "hints" doc name + 1.
Proof.
  intros Hteam Hschema Hnot Hpos Hnth.
  set (taken := counter "hints" doc name) in *.
  destruct (update_hint_score_replace w team_id doc name hint_cost
              Hteam Hschema Hnamed)
    as (pre & post & doc' & Hw & Hpre & Hm & Hrun & Hs' & Hc & Ht & Hh).
  exists (pre ++ doc' :: post)%list, doc'. eexists. split.
  - enter_get_hint w doc Hteam.
    rewrite (bind_lift_ok _ _ _ false (cleared_not_In name doc Hschema Hnot)).
    cbv beta iota zeta.
    assert (Hlen : (taken < Z.of_nat (List.length (hints cls)))%Z).
    { assert (H : (Z.to_nat taken < List.length (hints cls))%nat)
        by (apply nth_error_Some; rewrite Hnth; discriminate).
      lia. }
    replace ((0 <? taken + 1)%Z
             && (taken + 1 <=? Z.of_nat (List.length (hints cls)))%Z) with true
      by (symmetry; apply andb_true_iff; split;
          [apply Z.ltb_lt|apply Z.leb_le]; lia).
    rewrite (hints_taken_value name doc Hschema Hnamed).
    rewrite (bind_lift_ok _ _ _ (counter "hints" doc name) eq_refl).
    fold taken.
    replace (taken + 1 >=? taken + 1)%Z with true
      by (symmetry; apply Z.geb_le; lia).
    replace (taken + 1 - 1) with taken by lia.
    rewrite Hnth, (total_points_value doc Hschema).
    rewrite Z.eqb_refl.
    rewrite (bind_lift_ok _ _ _ (total_points doc) eq_refl).
    rewrite (bind_ok _ _ _ _ _ Hrun). reflexivity.
  - split; [reflexivity|]. split; [reflexivity|].
    split; [apply (find_one_at _ _ _ _ Hpre Hm)|].
    split; [exact Hs'|]. split; [exact Hc|]. split; [exact Ht|exact Hh].
Qed.

Lemma skipn_nth_error {A} (n : nat) (l : list A) (x : A) (rest : list A) :
  skipn n l = x :: rest -> nth_error l n = Some x /\ skipn (S n) l = rest.
Proof.
  revert l. induction n as [|n IH]; intros l H.
  - destruct l; simpl in H; [discriminate|]. injection H as -> ->.
    split; reflexivity.
  - destruct l as [|a l]; simpl in H; [discriminate|].
    apply (IH l H).
Qed.

(** X10.  Hints asked for in order are each paid for once.  A team that
    has not cleared the challenge and has taken [taken] hints asks for
    the next [count] hints one after the other: every request returns
    its hint with its cost, and at the end the team has taken
    [taken + count] hints and its total has dropped by the sum of their
    costs. *)
Theorem hints_in_order (count : nat) :
  forall (w : world) (doc : dict),
    find_one (by_team_id team_id) (teams w) = Some doc ->
    team_schema doc = true ->
    ~ In (VStr name) (cleared_challenges doc) ->
    0 <= counter "hints" doc name ->
    (Z.to_nat (counter "hints" doc name) + count <= List.length (hints cls))%nat ->
    let asked :=
      Client.hints_from (Z.to_nat (counter "hints" doc name)) count (hints cls) in
    exists w' doc' responses,
      Client.request_hints self team_id (VStr cid)
        (counter "hints" doc name + 1) count w = (inr responses, w')
      /\ map (fun r => (field r "hint_cost", field r "hint")) responses
         = map (fun h => (VInt (fst h), VStr (snd h))) asked
      /\ find_one (by_team_id team_id) (teams w') = Some doc'
      /\ counter "hints" doc' name = counter "hints" doc name + Z.of_nat count
      /\ total_points doc'
         = total_points doc - Client.total_cost (map fst asked).
Proof.
  induction count as [|count IH]; intros w doc Hteam Hschema Hnot Hpos Hlen asked.
  - exists w, doc, []. subst asked. unfold Client.hints_from. simpl.
    repeat split; try reflexivity; try exact Hteam; lia.
  - set (taken := counter "hints" doc name) in *.
    destruct (skipn (Z.to_nat taken) (hints cls)) as [|[hint_cost hint] rest] eqn:Hskip.
    { exfalso.
      assert (H : List.length (skipn (Z.to_nat taken) (hints cls)) = 0%nat)
        by (rewrite Hskip; reflexivity).
      rewrite length_skipn in H. lia. }
    destruct (skipn_nth_error _ _ _ _ Hskip) as [Hnth Hrest].
    destruct (get_hint_next w doc hint_cost hint Hteam Hschema Hnot Hpos Hnth)
      as (coll1 & doc1 & response & Hrun & Hhint & Hcost & Hfind1 & Hs1 & Hc1
          & Ht1 & Hh1).
    fold taken in Hrun, Hh1.
    assert (Hnot1 : ~ In (VStr name) (cleared_challenges doc1))
      by (rewrite Hc1; exact Hnot).
    assert (Hpos1 : 0 <= counter "hints" doc1 name) by lia.
    assert (Hnat : Z.to_nat (counter "hints" doc1 name) = S (Z.to_nat taken))
      by (rewrite Hh1; lia).
    assert (Hlen1 : (Z.to_nat (counter "hints" doc1 name) + count
                     <= List.length (hints cls))%nat) by lia.
    destruct (IH (World coll1 (clock w)) doc1 Hfind1 Hs1 Hnot1 Hpos1 Hlen1)
      as (w' & doc' & responses & Hruns & Hmap & Hfind' & Hh' & Ht').
    rewrite Hh1 in Hruns. rewrite Hnat in Hmap, Ht'.
    unfold Client.hints_from in Hmap, Ht'. rewrite Hrest in Hmap, Ht'.
    exists w', doc', (response :: responses).
    subst asked. unfold Client.hints_from. rewrite Hskip.
    cbn [Client.request_hints firstn map fst snd Client.total_cost fold_right].
    split; [|split; [|split; [exact Hfind'|split]]].
    + rewrite (bind_ok _ _ _ _ _ Hrun), (bind_ok _ _ _ _ _ Hruns). reflexivity.
    + rewrite Hmap, Hhint, Hcost. reflexivity.
    + rewrite Hh', Hh1. lia.
    + rewrite Ht', Ht1. unfold Client.total_cost. lia.
Qed.

End Play.

(* ================================================================= *)
(** ** The score board *)

Section ScoreBoard.
Import Py Mongo Database Team AllChallenges.

(** The score a row shows. *)
Let shown (row : dict) : Z := int_of (field row "score").

Lemma insert_desc_perm (x : Z * dict) (l : list (Z * dict)) :
  Permutation (Routes.insert_desc x l) (x :: l).
Proof.
  induction l as [|y l IH]; simpl.
  - apply Permutation_refl.
  - destruct (fst x <? fst y)%Z.
    + apply perm_trans with (y :: x :: l).
      * apply perm_skip, IH.
      * apply perm_swap.
    + apply Permutation_refl.
Qed.

Lemma sorted_desc_perm (l : list (Z * dict)) :
  Permutation (Routes.sorted_desc l) l.
Proof.
  induction l as [|x l IH]; simpl.
  - apply Permutation_refl.
  - apply perm_trans with (x :: Routes.sorted_desc l).
    + apply insert_desc_perm.
    + apply perm_skip, IH.
Qed.

Lemma insert_desc_sorted (x : Z * dict) (l : list (Z * dict)) :
  StronglySorted (fun a b => fst b <= fst a) l ->
  StronglySorted (fun a b => fst b <= fst a) (Routes.insert_desc x l).
Proof.
  intros Hl. induction Hl as [|y l Hl IH Hy]; simpl.
  - constructor; constructor.
  - destruct (fst x <? fst y)%Z eqn:E.
    + apply Z.ltb_lt in E. constructor; [exact IH|].
      apply (Permutation_Forall (Permutation_sym (insert_desc_perm x l))).
      constructor; [lia|exact Hy].
    + apply Z.ltb_ge in E. constructor.
      * constructor; assumption.
      * constructor; [exact E|].
        rewrite Forall_forall in Hy |- *. intros z Hz.
        specialize (Hy z Hz). lia.
Qed.

Lemma sorted_desc_sorted (l : list (Z * dict)) :
  StronglySorted (fun a b => fst b <= fst a) (Routes.sorted_desc l).
Proof.
  induction l as [|x l IH]; simpl.
  - constructor.
  - apply insert_desc_sorted, IH.
Qed.

Lemma insert_desc_stable (z : Z) (x : Z * dict) (l : list (Z * dict)) :
  filter (fun a => fst a =? z)%Z (Routes.insert_desc x l)
  = filter (fun a => fst a =? z)%Z (x :: l).
Proof.
  induction l as [|y l IH]; simpl; [reflexivity|].
  destruct (fst x <? fst y)%Z eqn:E; [|reflexivity].
  apply Z.ltb_lt in E. simpl. rewrite IH. simpl.
  destruct (fst x =? z)%Z eqn:Ex; [|reflexivity].
  apply Z.eqb_eq in Ex.
  replace (fst y =? z)%Z with false by (symmetry; apply Z.eqb_neq; lia).
  reflexivity.
Qed.

Lemma sorted_desc_stable (z : Z) (l : list (Z * dict)) :
  filter (fun a => fst a =? z)%Z (Routes.sorted_desc l)
  = filter (fun a => fst a =? z)%Z l.
Proof.
  induction l as [|x l IH]; simpl; [reflexivity|].
  rewrite insert_desc_stable. simpl. rewrite IH. reflexivity.
Qed.

Lemma score_rows_listed (coll : list dict) :
  Forall (fun d => exists team_no team_name total,
              dict_get d "team_no" = Some team_no
              /\ dict_get d "team_name" = Some team_name
              /\ dict_get d "total_points" = Some (VInt total)) coll ->
  exists board,
    Routes.score_rows coll = inr board
    /\ Forall2 (fun d row => Routes.score_row d = inr row
                              /\ shown row = total_points d) coll board
    /\ Routes.score_keys board = inr (map (fun row => (shown row, row)) board).
Proof.
  induction 1 as [|d coll (no & nm & tp & Hno & Hnm & Htp) _ (board & Hb & Hf & Hk)].
  - exists []. repeat split; constructor.
  - assert (Hrow : Routes.score_row d
                   = inr [("team_no", no); ("team_name", nm); ("score", VInt tp)]).
    { unfold Routes.score_row, Routes.getitem. rewrite Hno, Hnm, Htp. reflexivity. }
    exists ([("team_no", no); ("team_name", nm); ("score", VInt tp)] :: board).
    split; [|split].
    + simpl. rewrite Hrow, Hb. reflexivity.
    + constructor; [|exact Hf]. split; [exact Hrow|].
      unfold shown, field, total_points, dict_get_default. rewrite Htp. reflexivity.
    + simpl. rewrite Hk. reflexivity.
Qed.

(** X11.  The score board.  When every team record has its number, its
    name and an integer total, [score] returns the rows of all the
    teams, each once, in descending order of score, with teams of equal
    score in the order of the collection; it leaves the store as it
    was. *)
Theorem score_board_sorted (w : world) :
  Forall (fun d => exists team_no team_name total,
              dict_get d "team_no" = Some team_no
              /\ dict_get d "team_name" = Some team_name
              /\ dict_get d "total_points" = Some (VInt total)) (teams w) ->
  exists board rows,
    Routes.score w = (inr rows, w)
    /\ Forall2 (fun d row => Routes.score_row d = inr row
                              /\ int_of (field row "score") = total_points d)
               (teams w) board
    /\ Permutation rows board
    /\ StronglySorted (fun a b => int_of (field b "score")
                                  <= int_of (field a "score")) rows
    /\ forall z,
         filter (fun row => int_of (field row "score") =? z)%Z rows
         = filter (fun row => int_of (field row "score") =? z)%Z board.
Proof.
  intros Hall.
  destruct (score_rows_listed (teams w) Hall) as (board & Hb & Hf & Hk).
  exists board, (map snd (Routes.sorted_desc (map (fun row => (shown row, row)) board))).
  set (keyed := map (fun row => (shown row, row)) board) in *.
  assert (Hkeyed : forall x, In x (Routes.sorted_desc keyed) -> fst x = shown (snd x)).
  { intros x Hx.
    apply (Permutation_in _ (sorted_desc_perm keyed)) in Hx.
    subst keyed. apply in_map_iff in Hx as [row [<- _]]. reflexivity. }
  split; [|split; [exact Hf|split; [|split]]].
  - unfold Routes.score, bind, get_all_teams, lift, ret. cbv beta iota.
    rewrite Hb. cbv beta iota. rewrite Hk. reflexivity.
  - apply perm_trans with (map snd keyed).
    + apply Permutation_map, sorted_desc_perm.
    + subst keyed. rewrite map_map. simpl. rewrite map_id.
      apply Permutation_refl.
  - pose proof (sorted_desc_sorted keyed) as Hs.
    revert Hkeyed. induction Hs as [|x l Hl IH Hx]; intros Hkeyed; simpl.
    + constructor.
    + constructor.
      * apply IH. intros y Hy. apply Hkeyed. right. exact Hy.
      * rewrite Forall_forall in Hx |- *. intros row Hrow.
        apply in_map_iff in Hrow as [y [<- Hy]].
        fold (shown (snd y)). fold (shown (snd x)).
        rewrite <- (Hkeyed y (or_intror Hy)), <- (Hkeyed x (or_introl eq_refl)).
        apply (Hx y Hy).
  - intros z.
    change (filter (fun row => shown row =? z)%Z
                   (map snd (Routes.sorted_desc keyed))
            = filter (fun row => shown row =? z)%Z board).
    assert (Hfilter : forall l,
               (forall x, In x l -> fst x = shown (snd x)) ->
               filter (fun row => shown row =? z)%Z (map snd l)
               = map snd (filter (fun a => fst a =? z)%Z l)).
    { induction l as [|x l IH]; intros Hl; simpl; [reflexivity|].
      rewrite <- (Hl x (or_introl eq_refl)).
      rewrite IH by (intros y Hy; apply Hl; right; exact Hy).
      destruct (fst x =? z)%Z; reflexivity. }
    rewrite (Hfilter _ Hkeyed), sorted_desc_stable.
    rewrite <- Hfilter.
    + subst keyed. rewrite map_map. simpl. rewrite map_id. reflexivity.
    + intros x Hx. subst keyed. apply in_map_iff in Hx as [row [<- _]].
      reflexivity.
Qed.

End ScoreBoard.

(* ================================================================= *)
(** ** The further properties on the sample data *)

Section MoreSamples.
Import Py Mongo Database Team AllChallenges Sample.

Lemma engine_names (cid name : string) :
  assoc cid (challenges_id engine) = Some name -> field_name name = true.
Proof.
  unfold engine. simpl.
  repeat match goal with
         | |- context [(cid =? ?s)%string] => destruct (cid =? s)%string
         end;
    intros H; try discriminate H; injection H as <-; reflexivity.
Qed.

Lemma engine_keeps_cleared_unique_witness :
  let sound (d : dict) :=
    team_schema d = true /\ NoDup (cleared_challenges d) in
  let right_answer := submission (VStr "abc") (VStr "42") in
  let after := snd (validate engine right_answer issued) in
  Forall sound (teams issued)
  /\ Forall sound (teams after)
  /\ map cleared_challenges (teams issued) = [[]]
  /\ map cleared_challenges (teams after) = [[VStr "Base69"]]
  /\ (exists response,
        fst (validate engine right_answer issued) = inr response
        /\ field response "status" = VStr "success")
  /\ Forall sound (teams (snd (validate engine right_answer after)))
  /\ map cleared_challenges (teams (snd (validate engine right_answer after)))
     = [[VStr "Base69"]]
  /\ Forall sound (teams (snd (get_hint engine (VStr "123") (VStr "3") 1 after)))
  /\ map cleared_challenges
         (teams (snd (get_hint engine (VStr "123") (VStr "3") 1 after)))
     = [[VStr "Base69"]].
Proof.
  intros sound right_answer after.
  assert (Hall : Forall sound (teams issued)).
  { repeat constructor. }
  destruct (engine_keeps_cleared_unique engine issued engine_names Hall)
    as [Hv _].
  destruct (Hv right_answer) as [Hsound Hlists].
  destruct (engine_keeps_cleared_unique engine after engine_names Hsound)
    as [Hv' Hh'].
  split; [exact Hall|]. split; [exact Hsound|].
  split; [reflexivity|]. split; [reflexivity|].
  split.
  - inversion Hlists as [|d d' l l' Hd _ Ed Ed']; subst.
    destruct Hd as [Hd|(name & response & _ & _ & Hr & Hs)].
    + vm_compute in Hd. discriminate Hd.
    + exists response. split; assumption.
  - split; [apply Hv'|]. split; [reflexivity|].
    split; [apply Hh'|reflexivity].
Defined.

Lemma get_hint_rejects_number_witness :
  get_hint engine (VStr "123") (VStr "1") 1 issued
  = (inl (HTTPException 400 "No hints available for this level."), issued)
  /\ get_hint engine (VStr "123") (VStr "2") 2 issued
     = (inl (HTTPException 400 "There is only one hint available for this level."),
        issued)
  /\ get_hint engine (VStr "123") (VStr "3") 0 issued
     = (inl (HTTPException 400
               "Invalid hint number. Please provide a hint number between 1 and 2."),
        issued).
Proof.
  split; [|split].
  - apply (get_hint_rejects_number engine (VStr "123") "1" "Base69" base69
             ltac:(discriminate) eq_refl eq_refl issued (team_of issued)
             1 eq_refl eq_refl (base69_not_cleared issued eq_refl)).
    right. simpl. lia.
  - apply (get_hint_rejects_number engine (VStr "123") "2" "NeedleInTheHaystack"
             needle ltac:(discriminate) eq_refl eq_refl issued (team_of issued)
             2 eq_refl eq_refl).
    + intros [].
    + right. simpl. lia.
  - apply (get_hint_rejects_number engine (VStr "123") "3" "Riddle" riddle
             ltac:(discriminate) eq_refl eq_refl issued (team_of issued)
             0 eq_refl eq_refl (riddle_not_cleared issued eq_refl)).
    left. lia.
Defined.

Lemma validate_awards_once_witness :
  exists w' first second,
    validate engine (submission (VStr "abc") (VStr "42")) issued = (inr first, w')
    /\ field first "total_score" = VInt 200
    /\ validate engine (submission (VStr "wrong") (VStr "42")) w'
       = (inr second, w')
    /\ field second "status" = VStr "info"
    /\ field second "total_score" = VInt 200.
Proof.
  destruct (validate_awards_once engine (VStr "123") "1" "Base69" base69
              ltac:(discriminate) eq_refl eq_refl eq_refl
              issued (team_of issued) (submission (VStr "abc") (VStr "42"))
              expected_base69 eq_refl eq_refl eq_refl eq_refl
              (base69_not_cleared issued eq_refl) eq_refl ltac:(discriminate)
              (base69_keys_present _ _) ltac:(repeat constructor))
    as (w' & first & H1 & _ & H3 & Hagain).
  destruct (Hagain (submission (VStr "wrong") (VStr "42")) eq_refl eq_refl)
    as (second & H4 & H5 & H6).
  exists w', first, second.
  split; [exact H1|]. split; [exact H3|]. split; [exact H4|].
  split; [exact H5|]. rewrite H6. exact H3.
Defined.

Lemma hints_in_order_witness :
  exists w' doc' responses,
    Client.request_hints engine (VStr "123") (VStr "3") 1 2 issued
    = (inr responses, w')
    /\ map (fun r => field r "hint") responses
       = [VStr "first clue"; VStr "second clue"]
    /\ find_one (by_team_id (VStr "123")) (teams w') = Some doc'
    /\ counter "hints" doc' "Riddle" = 2
    /\ total_points doc' = -250.
Proof.
  destruct (hints_in_order engine (VStr "123") "3" "Riddle" riddle
              ltac:(discriminate) eq_refl eq_refl eq_refl 2
              issued (team_of issued) eq_refl eq_refl
              (riddle_not_cleared issued eq_refl)
              ltac:(vm_compute; discriminate) ltac:(vm_compute; lia))
    as (w' & doc' & responses & H1 & H2 & H3 & H4 & H5).
  exists w', doc', responses.
  split; [exact H1|]. split; [|split; [exact H3|split; [exact H4|exact H5]]].
  apply (f_equal (map snd)) in H2. rewrite !map_map in H2. exact H2.
Defined.

Lemma score_board_sorted_witness :
  let w := History.run
             [ History.CreateTeam "a" (Some "Anubis");
               History.CreateTeam "b" (Some "Bastet");
               History.CreateTeam "c" (Some "Chons");
               History.UpdateScore (VStr "b") true 200 "Base69";
               History.UpdateScore (VStr "c") true 200 "Base69";
               History.UpdateScore (VStr "a") false 40 "Base69" ]
             (World [] noon) in
  exists rows,
    Routes.score w = (inr rows, w)
    /\ map (fun row => (field row "team_name", field row "score")) rows
       = [ (VStr "Bastet", VInt 200); (VStr "Chons", VInt 200);
           (VStr "Anubis", VInt (-40)) ].
Proof.
  intros w.
  assert (Hall : Forall (fun d => exists team_no team_name total,
                             dict_get d "team_no" = Some team_no
                             /\ dict_get d "team_name" = Some team_name
                             /\ dict_get d "total_points" = Some (VInt total))
                        (teams w)).
  { repeat constructor; eexists; eexists; eexists;
      (split; [reflexivity|split; reflexivity]). }
  destruct (score_board_sorted w Hall) as (board & rows & H1 & _).
  exists rows. split; [exact H1|].
  vm_compute in H1. injection H1 as <-. reflexivity.
Defined.

End MoreSamples.

(* ================================================================= *)
(** ** The Base69 codec *)

Section Base69Facts.
Import Base69.
Local Open Scope Z_scope.

Lemma fold_left_little_endian (base : Z) (digits : list Z) :
  fold_left (fun num d => num * base + d) (rev digits) 0
  = little_endian base digits.
Proof.
  rewrite <- (fold_left_rev_right (fun d num => num * base + d)).
  rewrite rev_involutive.
  induction digits as [|d rest IH]; simpl; [reflexivity|].
  rewrite IH. ring.
Qed.

Lemma little_endian_app (base : Z) (a b : list Z) :
  little_endian base (a ++ b)
  = little_endian base a + base ^ Z.of_nat (List.length a) * little_endian base b.
Proof.
  induction a as [|d a IH].
  - cbn [app little_endian List.length]. change (Z.of_nat 0) with 0.
    rewrite Z.pow_0_r. ring.
  - cbn [app little_endian List.length]. rewrite IH.
    rewrite Nat2Z.inj_succ, Z.pow_succ_r by lia. ring.
Qed.

Lemma little_endian_bound (base : Z) (digits : list Z) :
  0 < base -> below base digits ->
  0 <= little_endian base digits < base ^ Z.of_nat (List.length digits).
Proof.
  intros Hb H. induction H as [|d rest Hd _ IH].
  - simpl. lia.
  - cbn [little_endian List.length].
    rewrite Nat2Z.inj_succ, Z.pow_succ_r by lia. nia.
Qed.

(** The loop of [decimal_to_radix] appends the digits of [num], least
    significant first. *)
Lemma decimal_to_radix_loop_digits (fuel : nat) :
  forall num acc r,
    0 <= num ->
    decimal_to_radix_loop fuel num acc = Some r ->
    exists digits,
      r = (acc ++ digits)%list
      /\ little_endian RADIX digits = num
      /\ below RADIX digits
      /\ (num <> 0 -> exists top lower, digits = (lower ++ [top])%list /\ top <> 0).
Proof.
  induction fuel as [|fuel IH]; intros num acc r Hnum; simpl.
  - destruct (num =? 0) eqn:E; [|discriminate].
    apply Z.eqb_eq in E. intros H. injection H as <-.
    exists []. rewrite app_nil_r. repeat split; try constructor.
    + simpl. lia.
    + intros Hn. contradiction.
  - destruct (num =? 0) eqn:E.
    + apply Z.eqb_eq in E. intros H. injection H as <-.
      exists []. rewrite app_nil_r. repeat split; try constructor.
      * simpl. lia.
      * intros Hn. contradiction.
    + apply Z.eqb_neq in E. intros H.
      assert (Hq : 0 <= num / RADIX) by (apply Z.div_pos; unfold RADIX; lia).
      destruct (IH _ _ _ Hq H) as (digits & -> & Hv & Hb & Htop).
      exists (num mod RADIX :: digits).
      split; [rewrite <- app_assoc; reflexivity|].
      split; [|split].
      * cbn [little_endian]. rewrite Hv.
        rewrite (Z.div_mod num RADIX) at 3 by (unfold RADIX; lia). ring.
      * constructor; [apply Z.mod_pos_bound; unfold RADIX; lia|exact Hb].
      * intros _. destruct (Z.eq_dec (num / RADIX) 0) as [Hz|Hnz].
        -- assert (digits = []) as ->.
           { destruct digits as [|d ds]; [reflexivity|]. exfalso.
             clear - H Hz. rewrite Hz in H.
             destruct fuel; simpl in H; injection H as H.
             ++ apply (f_equal (@List.length Z)) in H.
                rewrite !length_app in H. simpl in H. lia.
             ++ apply (f_equal (@List.length Z)) in H.
                rewrite !length_app in H. simpl in H. lia. }
           exists (num mod RADIX), []. split; [reflexivity|].
           intros Hm. apply E.
           rewrite (Z.div_mod num RADIX) by (unfold RADIX; lia).
           rewrite Hz, Hm. ring.
        -- destruct (Htop Hnz) as (top & lower & -> & Ht).
           exists top, (num mod RADIX :: lower). split; [reflexivity|exact Ht].
Qed.

Lemma decimal_to_radix_loop_returns (fuel : nat) :
  forall num acc,
    0 <= num < 2 ^ Z.of_nat fuel ->
    exists r, decimal_to_radix_loop fuel num acc = Some r.
Proof.
  induction fuel as [|fuel IH]; intros num acc Hnum; simpl.
  - simpl in Hnum. replace num with 0 by lia. simpl. eauto.
  - destruct (num =? 0); [eauto|].
    apply IH. rewrite Nat2Z.inj_succ, Z.pow_succ_r in Hnum by lia.
    split; [apply Z.div_pos; unfold RADIX; lia|].
    apply Z.div_lt_upper_bound; unfold RADIX; lia.
Qed.

Lemma decimal_to_radix_loop_hangs (fuel : nat) :
  forall num acc, num < 0 -> decimal_to_radix_loop fuel num acc = None.
Proof.
  induction fuel as [|fuel IH]; intros num acc Hnum; simpl;
    (replace (num =? 0) with false by (symmetry; apply Z.eqb_neq; lia)).
  - reflexivity.
  - apply IH. apply Z.div_lt_upper_bound; unfold RADIX; lia.
Qed.

Lemma decimal_to_radix_loop_fuel (fuel fuel' : nat) :
  forall num acc r r',
    decimal_to_radix_loop fuel num acc = Some r ->
    decimal_to_radix_loop fuel' num acc = Some r' ->
    r = r'.
Proof.
  revert fuel'. induction fuel as [|fuel IH]; intros fuel' num acc r r';
    destruct fuel'; simpl; destruct (num =? 0); try congruence.
  apply IH.
Qed.

Lemma decimal_to_radix_returns (num : Z) :
  0 <= num ->
  exists digits,
    decimal_to_radix num = Some digits
    /\ radix_to_decimal digits = num
    /\ below RADIX digits
    /\ digits <> []
    /\ (num <> 0 -> hd 0 digits <> 0).
Proof.
  intros Hnum. unfold decimal_to_radix.
  destruct (decimal_to_radix_loop_returns (S (Z.to_nat (Z.log2 num))) num [])
    as [r Hr].
  { destruct (Z.eq_dec num 0) as [->|Hnz]; [simpl; lia|].
    split; [exact Hnum|].
    rewrite Nat2Z.inj_succ, Z2Nat.id by apply Z.log2_nonneg.
    apply Z.log2_spec. lia. }
  rewrite Hr.
  destruct (decimal_to_radix_loop_digits _ _ _ _ Hnum Hr)
    as (digits & E & Hv & Hb & Htop).
  simpl in E. subst r.
  destruct digits as [|d ds].
  - simpl in Hv. exists [0]. split; [reflexivity|].
    split; [subst num; reflexivity|].
    split; [repeat constructor; unfold RADIX; lia|].
    split; [discriminate|]. intros Hn. congruence.
  - exists (rev (d :: ds)). split; [reflexivity|].
    split; [unfold radix_to_decimal; rewrite fold_left_little_endian; exact Hv|].
    split; [apply Forall_rev; exact Hb|].
    split.
    + intros Hnil. apply (f_equal (@rev Z)) in Hnil.
      rewrite rev_involutive in Hnil. discriminate.
    + intros Hn. destruct (Htop Hn) as (top & lower & -> & Ht).
      rewrite rev_app_distr. exact Ht.
Qed.

Lemma chr_ord (c : ascii) : chr (ord c) = c.
Proof.
  unfold chr, ord. rewrite N2Z.id. apply ascii_N_embedding.
Qed.

Lemma ord_byte (c : ascii) : 0 <= ord c < 256.
Proof.
  unfold ord. pose proof (N_ascii_bounded c). lia.
Qed.

Lemma base_char_digit (d : Z) :
  0 <= d < RADIX -> base_char d = inr (128512 + d).
Proof.
  intros Hd.
  assert (H : forallb
                (fun i => match base_char (Z.of_nat i) with
                          | inr c => c =? 128512 + Z.of_nat i
                          | inl _ => false
                          end) (seq 0 69) = true) by (vm_compute; reflexivity).
  rewrite forallb_forall in H. specialize (H (Z.to_nat d)).
  rewrite Z2Nat.id in H by lia.
  destruct (base_char d) as [e|c].
  - assert (false = true); [|discriminate].
    apply H. apply in_seq. unfold RADIX in Hd. lia.
  - f_equal. apply Z.eqb_eq. apply H. apply in_seq. unfold RADIX in Hd. lia.
Qed.

Lemma index_digit (d : Z) :
  0 <= d < RADIX -> index (128512 + d) = inr d.
Proof.
  intros Hd.
  assert (H : forallb
                (fun i => match index (128512 + Z.of_nat i) with
                          | inr p => p =? Z.of_nat i
                          | inl _ => false
                          end) (seq 0 69) = true) by (vm_compute; reflexivity).
  rewrite forallb_forall in H. specialize (H (Z.to_nat d)).
  rewrite Z2Nat.id in H by lia.
  destruct (index (128512 + d)) as [e|c].
  - assert (false = true); [|discriminate].
    apply H. apply in_seq. unfold RADIX in Hd. lia.
  - f_equal. apply Z.eqb_eq. apply H. apply in_seq. unfold RADIX in Hd. lia.
Qed.

Lemma each_base_char (digits : list Z) :
  below RADIX digits ->
  each base_char digits = inr (map (Z.add 128512) digits).
Proof.
  intros H. induction H as [|d ds Hd _ IH]; [reflexivity|].
  cbn [each map]. rewrite (base_char_digit d Hd), IH. reflexivity.
Qed.

Lemma each_index (digits : list Z) :
  below RADIX digits ->
  each index (map (Z.add 128512) digits) = inr digits.
Proof.
  intros H. induction H as [|d ds Hd _ IH]; [reflexivity|].
  cbn [each map]. rewrite (index_digit d Hd), IH. reflexivity.
Qed.

Lemma to_bytes_little_value (bytes : list Z) :
  below 256 bytes ->
  to_bytes_little (List.length bytes) (little_endian 256 bytes) = bytes.
Proof.
  intros H. induction H as [|b bs Hb _ IH]; [reflexivity|].
  cbn [List.length to_bytes_little little_endian]. f_equal.
  - symmetry. apply (Z.mod_unique_pos _ _ (little_endian 256 bs)); lia.
  - replace ((b + 256 * little_endian 256 bs) / 256)
      with (little_endian 256 bs); [exact IH|].
    apply (Z.div_unique_pos _ _ _ b); lia.
Qed.

Lemma from_bytes_little_endian (bytes : list Z) :
  from_bytes bytes = little_endian 256 (rev bytes).
Proof.
  unfold from_bytes. rewrite <- (rev_involutive bytes) at 1.
  apply fold_left_little_endian.
Qed.

Lemma from_bytes_nonneg (bytes : list Z) :
  below 256 bytes -> 0 <= from_bytes bytes.
Proof.
  intros H. rewrite from_bytes_little_endian.
  apply little_endian_bound; [lia|]. apply Forall_rev. exact H.
Qed.

Lemma byte_length (num k : Z) :
  0 <= k -> 256 ^ k <= num < 256 ^ (k + 1) ->
  (bit_length num + 7) / 8 = k + 1.
Proof.
  intros Hk [Hlo Hhi].
  assert (Hpos : 0 < num).
  { apply Z.lt_le_trans with (256 ^ k); [apply Z.pow_pos_nonneg; lia|exact Hlo]. }
  unfold bit_length.
  replace (num =? 0) with false by (symmetry; apply Z.eqb_neq; lia).
  rewrite Z.abs_eq by lia.
  change 256 with (2 ^ 8) in Hlo, Hhi.
  rewrite <- Z.pow_mul_r in Hlo, Hhi by lia.
  apply Z.log2_le_pow2 in Hlo; [|exact Hpos].
  apply Z.log2_lt_pow2 in Hhi; [|exact Hpos].
  symmetry. apply (Z.div_unique_pos _ 8 (k + 1) (Z.log2 num - 8 * k)); lia.
Qed.

(** [decode] sizes the byte string by the number, which drops the
    leading zero bytes and nothing else. *)
Lemma to_bytes_from_bytes (bytes : list Z) :
  below 256 bytes ->
  to_bytes (Z.to_nat ((bit_length (from_bytes bytes) + 7) / 8))
           (from_bytes bytes)
  = inr (lstrip_zero bytes).
Proof.
  intros H. induction H as [|b rest Hb Hrest IH]; [reflexivity|].
  cbn [lstrip_zero]. destruct (b =? 0) eqn:E.
  - apply Z.eqb_eq in E. subst b. exact IH.
  - apply Z.eqb_neq in E.
    pose proof (from_bytes_little_endian (b :: rest)) as Hv.
    cbn [rev] in Hv. rewrite little_endian_app in Hv.
    cbn [little_endian] in Hv. rewrite length_rev in Hv.
    pose proof (little_endian_bound 256 (rev rest) ltac:(lia)
                  (Forall_rev Hrest)) as Hlow.
    rewrite length_rev in Hlow.
    set (k := Z.of_nat (List.length rest)) in *.
    assert (Hk : 0 <= k) by (unfold k; lia).
    assert (Hp : 0 < 256 ^ k) by (apply Z.pow_pos_nonneg; lia).
    assert (Hrange : 256 ^ k <= from_bytes (b :: rest) < 256 ^ (k + 1)).
    { rewrite Hv, Z.pow_add_r, Z.pow_1_r by lia. nia. }
    rewrite (byte_length _ k Hk Hrange).
    replace (Z.to_nat (k + 1)) with (S (List.length rest)) by (unfold k; lia).
    unfold to_bytes.
    replace (from_bytes (b :: rest) <? 0) with false
      by (symmetry; apply Z.ltb_ge; lia).
    replace (256 ^ Z.of_nat (S (List.length rest)) <=? from_bytes (b :: rest))
      with false
      by (symmetry; apply Z.leb_gt; rewrite Nat2Z.inj_succ;
          fold k; unfold Z.succ; lia).
    cbn [orb]. f_equal.
    rewrite from_bytes_little_endian.
    replace (S (List.length rest)) with (List.length (rev (b :: rest)))
      by (rewrite length_rev; reflexivity).
    rewrite to_bytes_little_value by (apply Forall_rev; constructor; assumption).
    apply rev_involutive.
Qed.

(** The length [decode] computes always holds the number. *)
Lemma to_bytes_fits (num : Z) :
  0 <= num ->
  exists bytes,
    to_bytes (Z.to_nat ((bit_length num + 7) / 8)) num = inr bytes.
Proof.
  intros Hnum. unfold to_bytes.
  replace (num <? 0) with false by (symmetry; apply Z.ltb_ge; lia).
  cbn [orb].
  assert (Hfit : num < 256 ^ Z.of_nat (Z.to_nat ((bit_length num + 7) / 8))).
  { unfold bit_length. destruct (num =? 0) eqn:E.
    - apply Z.eqb_eq in E. subst num. reflexivity.
    - apply Z.eqb_neq in E. rewrite Z.abs_eq by lia.
      pose proof (Z.log2_nonneg num) as HL.
      pose proof (Z.log2_spec num ltac:(lia)) as [_ Hhi].
      set (L := Z.log2 num) in *.
      pose proof (Z.div_mod (L + 1 + 7) 8 ltac:(lia)) as Hdm.
      pose proof (Z.mod_pos_bound (L + 1 + 7) 8 ltac:(lia)) as Hm.
      set (len := (L + 1 + 7) / 8) in *.
      assert (Hlen : 0 <= len) by lia.
      rewrite Z2Nat.id by exact Hlen.
      change 256 with (2 ^ 8). rewrite <- Z.pow_mul_r by lia.
      apply Z.lt_le_trans with (2 ^ Z.succ L); [exact Hhi|].
      apply Z.pow_le_mono_r; lia. }
  replace (256 ^ Z.of_nat (Z.to_nat ((bit_length num + 7) / 8)) <=? num)
    with false by (symmetry; apply Z.leb_gt; exact Hfit).
  eauto.
Qed.

Lemma index_from_range (c : Z) (chars : list Z) :
  forall position d,
    index_from c chars position = inr d ->
    position <= d < position + Z.of_nat (List.length chars).
Proof.
  induction chars as [|c' rest IH]; intros position d; cbn [index_from].
  - discriminate.
  - destruct (c =? c').
    + intros H. injection H as <-. cbn [List.length]. lia.
    + intros H. apply IH in H. cbn [List.length]. lia.
Qed.

Lemma index_from_raises (c : Z) (chars : list Z) :
  forall position e,
    index_from c chars position = inl e ->
    e = ValueError /\ ~ In c chars.
Proof.
  induction chars as [|c' rest IH]; intros position e; cbn [index_from].
  - intros H. injection H as <-. split; [reflexivity|intros []].
  - destruct (c =? c') eqn:E; [discriminate|].
    apply Z.eqb_neq in E. intros H. apply IH in H as [-> Hn].
    split; [reflexivity|]. intros [Hc|Hc]; [congruence|contradiction].
Qed.

Lemma index_from_found (c : Z) (chars : list Z) :
  forall position d, index_from c chars position = inr d -> In c chars.
Proof.
  induction chars as [|c' rest IH]; intros position d; cbn [index_from].
  - discriminate.
  - destruct (c =? c') eqn:E.
    + apply Z.eqb_eq in E. intros _. left. congruence.
    + intros H. right. exact (IH _ _ H).
Qed.

Lemma each_index_returns (encoded : list Z) :
  forall digits,
    each index encoded = inr digits ->
    below RADIX digits /\ Forall (fun c => In c BASE_STRING) encoded.
Proof.
  induction encoded as [|c rest IH]; intros digits; cbn [each].
  - intros H. injection H as <-. split; constructor.
  - destruct (index c) as [e|d] eqn:Hc; [discriminate|].
    destruct (each index rest) as [e|ds]; [discriminate|].
    intros H. injection H as <-. destruct (IH ds eq_refl) as [Hb Hin].
    split; constructor; try assumption.
    + apply index_from_range in Hc. unfold RADIX.
      change (Z.of_nat (List.length BASE_STRING)) with 69 in Hc. lia.
    + exact (index_from_found _ _ _ _ Hc).
Qed.

Lemma each_index_raises (encoded : list Z) :
  forall e,
    each index encoded = inl e ->
    e = ValueError /\ exists c, In c encoded /\ ~ In c BASE_STRING.
Proof.
  induction encoded as [|c rest IH]; intros e; cbn [each].
  - discriminate.
  - destruct (index c) as [e'|d] eqn:Hc.
    + intros H. injection H as <-.
      apply index_from_raises in Hc as [-> Hn].
      split; [reflexivity|]. exists c. split; [left; reflexivity|exact Hn].
    + destruct (each index rest) as [e'|ds]; [|discriminate].
      intros H. injection H as <-.
      destruct (IH e' eq_refl) as [-> (c' & Hin & Hn)].
      split; [reflexivity|]. exists c'. split; [right; exact Hin|exact Hn].
Qed.

Lemma radix_to_decimal_nonneg (digits : list Z) :
  below RADIX digits -> 0 <= radix_to_decimal digits.
Proof.
  intros H. unfold radix_to_decimal.
  rewrite <- (rev_involutive digits), fold_left_little_endian.
  apply little_endian_bound; [unfold RADIX; lia|]. apply Forall_rev. exact H.
Qed.

Lemma base_string_digit (d : Z) :
  0 <= d < RADIX -> In (128512 + d) BASE_STRING.
Proof.
  intros Hd. unfold BASE_STRING. apply in_map_iff.
  exists (Z.to_nat d). split; [lia|]. apply in_seq. unfold RADIX in *. lia.
Qed.

Lemma bytes_below (s : string) :
  below 256 (map ord (list_ascii_of_string s)).
Proof.
  apply Forall_map. apply Forall_forall. intros c _. apply ord_byte.
Qed.

Lemma lstrip_bytes (s : string) :
  lstrip_zero (map ord (list_ascii_of_string s))
  = map ord (list_ascii_of_string (lstrip_nul s)).
Proof.
  induction s as [|c r IH]; [reflexivity|].
  cbn [list_ascii_of_string map lstrip_zero lstrip_nul].
  destruct (ord c =? 0); [exact IH|reflexivity].
Qed.

Lemma lstrip_nul_ascii (s : string) :
  is_ascii s = true -> is_ascii (lstrip_nul s) = true.
Proof.
  unfold is_ascii. induction s as [|c r IH]; [reflexivity|].
  cbn [lstrip_nul]. destruct (ord c =? 0); [|tauto].
  cbn [list_ascii_of_string map forallb]. intros H.
  apply andb_true_iff in H as [_ H]. exact (IH H).
Qed.

Lemma ascii_decode_bytes (s : string) :
  is_ascii s = true ->
  ascii_decode (map ord (list_ascii_of_string s)) = inr s.
Proof.
  unfold is_ascii, ascii_decode. intros ->.
  rewrite map_map. rewrite (map_ext _ (fun c => c) chr_ord), map_id.
  rewrite string_of_list_ascii_of_string. reflexivity.
Qed.

(** What [encode] does on a text of ASCII characters. *)
Lemma encode_ascii (s : string) :
  is_ascii s = true ->
  exists digits,
    below RADIX digits
    /\ digits <> []
    /\ radix_to_decimal digits = from_bytes (map ord (list_ascii_of_string s))
    /\ encode s = Returns (map (Z.add 128512) digits).
Proof.
  intros Hs. unfold encode, ascii_encode. unfold is_ascii in Hs. rewrite Hs.
  destruct (decimal_to_radix_returns
              (from_bytes (map ord (list_ascii_of_string s)))
              (from_bytes_nonneg _ (bytes_below s)))
    as (digits & -> & Hv & Hb & Hne & _).
  exists digits. rewrite (each_base_char digits Hb). auto.
Qed.

(** X12.  For a number that is not negative, [decimal_to_radix] returns:
    at least one digit, every digit in 0..68, no leading zero unless the
    number is 0, and [radix_to_decimal] gives the number back. *)
Theorem decimal_to_radix_round_trip (num : Z) :
  0 <= num ->
  exists digits,
    decimal_to_radix num = Some digits
    /\ radix_to_decimal digits = num
    /\ below RADIX digits
    /\ digits <> []
    /\ (num <> 0 -> hd 0 digits <> 0).
Proof.
  exact (decimal_to_radix_returns num).
Qed.

(** X13.  On a negative number the loop of [decimal_to_radix] never
    ends: floor division keeps [num] negative, so it is never 0, whatever
    the number of iterations allowed. *)
Theorem decimal_to_radix_negative (num : Z) :
  num < 0 ->
  (forall fuel num_in_radix,
      decimal_to_radix_loop fuel num num_in_radix = None)
  /\ decimal_to_radix num = None.
Proof.
  intros Hnum. split.
  - intros fuel acc. apply decimal_to_radix_loop_hangs. exact Hnum.
  - unfold decimal_to_radix.
    rewrite decimal_to_radix_loop_hangs by exact Hnum. reflexivity.
Qed.

(** X14.  [decode] after [encode]: a text of ASCII characters is
    encoded, and decoding the result gives the text back without its
    leading NUL characters (the text itself when it has none). *)
Theorem decode_encode (s : string) :
  is_ascii s = true ->
  exists encoded,
    encode s = Returns encoded
    /\ decode encoded = Returns (lstrip_nul s).
Proof.
  intros Hs. destruct (encode_ascii s Hs) as (digits & Hb & _ & Hv & He).
  exists (map (Z.add 128512) digits). split; [exact He|].
  unfold decode. rewrite (each_index digits Hb).
  cbv zeta. rewrite Hv.
  rewrite (to_bytes_from_bytes _ (bytes_below s)).
  rewrite lstrip_bytes.
  rewrite (ascii_decode_bytes _ (lstrip_nul_ascii s Hs)). reflexivity.
Qed.

(** X15.  [encode] has two outcomes: on a text of ASCII characters it
    returns a text that is not empty and made of characters of
    [BASE_STRING]; on any other text it raises [UnicodeEncodeError].  It
    never loops and never indexes [BASE_STRING] out of range. *)
Theorem encode_outcome (s : string) :
  (is_ascii s = true
   /\ exists encoded,
        encode s = Returns encoded
        /\ encoded <> []
        /\ Forall (fun c => In c BASE_STRING) encoded)
  \/ (is_ascii s = false /\ encode s = Raises UnicodeEncodeError).
Proof.
  destruct (is_ascii s) eqn:Hs.
  - left. split; [reflexivity|].
    destruct (encode_ascii s Hs) as (digits & Hb & Hne & _ & He).
    exists (map (Z.add 128512) digits). split; [exact He|]. split.
    + destruct digits; [congruence|discriminate].
    + apply Forall_map. revert Hb. apply Forall_impl.
      intros d Hd. exact (base_string_digit d Hd).
  - right. split; [reflexivity|].
    unfold encode, ascii_encode. unfold is_ascii in Hs. rewrite Hs.
    reflexivity.
Qed.

(** X16.  [decode] has three outcomes: [ValueError] when a character is
    not in [BASE_STRING]; otherwise a text, or [UnicodeDecodeError].
    The byte length it computes always holds the number: [to_bytes]
    never raises [OverflowError], and nothing loops. *)
Theorem decode_outcome (encoded : list Z) :
  (decode encoded = Raises ValueError
   /\ exists c, In c encoded /\ ~ In c BASE_STRING)
  \/ (Forall (fun c => In c BASE_STRING) encoded
      /\ ((exists s, decode encoded = Returns s)
          \/ decode encoded = Raises UnicodeDecodeError)).
Proof.
  unfold decode. destruct (each index encoded) as [e|digits] eqn:E.
  - left. apply each_index_raises in E as [-> Hc]. split; [reflexivity|exact Hc].
  - right. apply each_index_returns in E as [Hb Hin]. split; [exact Hin|].
    cbv zeta.
    destruct (to_bytes_fits _ (radix_to_decimal_nonneg digits Hb))
      as [bytes ->].
    unfold ascii_decode. destruct (forallb _ bytes); eauto.
Qed.

End Base69Facts.

Section Base69Samples.
Import Base69.
Local Open Scope Z_scope.

Lemma decimal_to_radix_round_trip_witness :
  0 <= 4761
  /\ exists digits,
       decimal_to_radix 4761 = Some digits
       /\ radix_to_decimal digits = 4761
       /\ below RADIX digits
       /\ digits <> []
       /\ (4761 <> 0 -> hd 0 digits <> 0).
Proof.
  split; [lia|]. apply (decimal_to_radix_round_trip 4761). lia.
Defined.

Lemma decimal_to_radix_negative_witness :
  -1 < 0
  /\ (forall fuel num_in_radix,
         decimal_to_radix_loop fuel (-1) num_in_radix = None)
  /\ decimal_to_radix (-1) = None.
Proof.
  split; [lia|]. apply (decimal_to_radix_negative (-1)). lia.
Defined.

Lemma decode_encode_witness :
  is_ascii "flag{base69}" = true
  /\ exists encoded,
       encode "flag{base69}" = Returns encoded
       /\ decode encoded = Returns (lstrip_nul "flag{base69}").
Proof.
  split; [reflexivity|]. apply (decode_encode "flag{base69}"). reflexivity.
Defined.

End Base69Samples.

(* ================================================================= *)
(** ** Colours *)

Section Colours.
Import TooMuchLight.
Local Open Scope Z_scope.

(** X17.  [hex_color_to_rgb] gives three bytes for every integer, and
    they are the base 256 digits of the colour modulo 2^24: a colour
    [0xRRGGBB] is taken apart exactly, and the bits above the 24th (of a
    negative colour too) are dropped. *)
Theorem hex_color_to_rgb_channels (color : Z) :
  let '(r, g, b) := hex_color_to_rgb color in
  0 <= r < 256 /\ 0 <= g < 256 /\ 0 <= b < 256
  /\ r * 65536 + g * 256 + b = color mod 16777216.
Proof.
  unfold hex_color_to_rgb. change 255 with (Z.ones 8).
  rewrite !Z.land_ones by lia. rewrite !Z.shiftr_div_pow2 by lia.
  change (2 ^ 8) with 256. change (2 ^ 16) with (256 * 256).
  rewrite <- Z.div_div by lia.
  set (q := color / 256).
  pose proof (Z.div_mod color 256 ltac:(lia)) as H0. fold q in H0.
  pose proof (Z.mod_pos_bound color 256 ltac:(lia)) as B0.
  pose proof (Z.div_mod q 256 ltac:(lia)) as H1.
  pose proof (Z.mod_pos_bound q 256 ltac:(lia)) as B1.
  pose proof (Z.div_mod (q / 256) 256 ltac:(lia)) as H2.
  pose proof (Z.mod_pos_bound (q / 256) 256 ltac:(lia)) as B2.
  repeat split; try lia.
  apply (Z.mod_unique_pos _ _ (q / 256 / 256)); lia.
Qed.

End Colours.

(* ================================================================= *)
(** ** Random strings *)

Section RandomStrings.
Import Random RandomString.
Local Open Scope Z_scope.

Lemma choice_In (seq : list Z) (g : rng) :
  seq <> [] -> In (fst (choice seq g)) seq.
Proof.
  intros Hne. unfold choice. cbn [fst]. apply nth_In.
  assert (0 < Z.of_nat (List.length seq)) by (destruct seq; [congruence|simpl; lia]).
  pose proof (Z.mod_pos_bound (g O) (Z.of_nat (List.length seq)) ltac:(lia)).
  lia.
Qed.

Lemma choices_length (length : nat) (alphabet : list Z) :
  forall g, List.length (fst (choices length alphabet g)) = length.
Proof.
  induction length as [|n IH]; intros g; cbn [choices]; [reflexivity|].
  destruct (choice alphabet g) as [c g1].
  specialize (IH g1). destruct (choices n alphabet g1) as [rest g2].
  cbn [fst List.length] in *. congruence.
Qed.

Lemma choices_In (length : nat) (alphabet : list Z) :
  alphabet <> [] ->
  forall g, Forall (fun c => In c alphabet) (fst (choices length alphabet g)).
Proof.
  intros Hne. induction length as [|n IH]; intros g; cbn [choices].
  - constructor.
  - pose proof (choice_In alphabet g Hne) as Hc.
    destruct (choice alphabet g) as [c g1].
    specialize (IH g1). destruct (choices n alphabet g1) as [rest g2].
    cbn [fst] in *. constructor; assumption.
Qed.

Lemma randint_range (a b : Z) (g : rng) :
  a <= b -> a <= fst (randint a b g) <= b.
Proof.
  intros Hab. unfold randint. cbn [fst].
  pose proof (Z.mod_pos_bound (g O) (b - a + 1) ltac:(lia)). lia.
Qed.

Lemma base58_plain :
  Forall (fun c => 0 < c < 128 /\ ~ In c look_alike)
         (code_points base58_alphabet).
Proof.
  assert (H : forallb (fun c => (0 <? c) && (c <? 128)
                                && negb (existsb (Z.eqb c) look_alike))
                      (code_points base58_alphabet) = true)
    by (vm_compute; reflexivity).
  rewrite forallb_forall in H. apply Forall_forall. intros c Hc.
  specialize (H c Hc).
  apply andb_true_iff in H as [H Hl]. apply andb_true_iff in H as [H0 H1].
  split; [lia|]. intros Hin.
  apply negb_true_iff in Hl.
  assert (existsb (Z.eqb c) look_alike = true); [|congruence].
  apply existsb_exists. exists c. split; [exact Hin|apply Z.eqb_refl].
Qed.

(** X18.  [generate_random_string] raises its [ValueError] exactly when
    the bounds, after the defaults, are in the wrong order: with one
    argument [n] (taken as the upper bound, the lower being 1) or with
    [end] alone when it is below 1, with both when [end < start], and
    never with none.  No random draw is made before the check. *)
Theorem generate_random_string_raises (start end_ : option Z)
        (include_invisible fixed_length : bool) (g : rng) :
  match start, end_ with
  | None, None => False
  | Some n, None | None, Some n => n < 1
  | Some start, Some end_ => end_ < start
  end
  <-> generate_random_string start end_ include_invisible fixed_length g
      = (inl (ValueError "start must be less than or equal to end"), g).
Proof.
  unfold generate_random_string.
  destruct (bounds start end_) as [lo hi] eqn:Hb.
  assert (Hcond : match start, end_ with
                  | None, None => False
                  | Some n, None | None, Some n => n < 1
                  | Some start, Some end_ => end_ < start
                  end <-> hi < lo).
  { destruct start as [s0|], end_ as [e0|]; cbn [bounds] in Hb;
      injection Hb as <- <-; lia. }
  rewrite Hcond. destruct (hi <? lo) eqn:E.
  - apply Z.ltb_lt in E. tauto.
  - apply Z.ltb_ge in E. split; [lia|].
    destruct (if fixed_length then (hi, g) else randint lo hi g) as [len g1].
    destruct (choices _ _ g1) as [chars g2]. discriminate.
Qed.

(** X19.  What [generate_random_string] returns: with [fixed_length] a
    text of exactly [end] characters (none when [end] is negative),
    otherwise of a length between the bounds; every character is of the
    base 58 alphabet, or one of the five invisible characters when they
    are asked for; without them the text is made of ASCII characters
    and has no zero, capital O, capital I or small l. *)
Theorem generate_random_string_shape (start end_ : option Z)
        (include_invisible fixed_length : bool) (g g' : rng) (chars : list Z) :
  generate_random_string start end_ include_invisible fixed_length g
  = (inr chars, g') ->
  let lo := fst (bounds start end_) in
  let hi := snd (bounds start end_) in
  lo <= hi
  /\ (if fixed_length then Z.of_nat (List.length chars) = Z.max 0 hi
      else Z.max 0 lo <= Z.of_nat (List.length chars) <= Z.max 0 hi)
  /\ Forall (fun c => In c (code_points base58_alphabet)
                      \/ (include_invisible = true
                          /\ In c invisible_characters)) chars
  /\ (include_invisible = false ->
      Forall (fun c => 0 < c < 128 /\ ~ In c look_alike) chars).
Proof.
  unfold generate_random_string.
  destruct (bounds start end_) as [lo hi]. cbn [fst snd].
  destruct (hi <? lo) eqn:E; [discriminate|]. apply Z.ltb_ge in E.
  pose proof (randint_range lo hi g E) as Hr.
  destruct (if fixed_length then (hi, g) else randint lo hi g)
    as [len g1] eqn:Hlen.
  set (alphabet := (code_points base58_alphabet
                    ++ (if include_invisible then invisible_characters else []))%list).
  pose proof (choices_length (Z.to_nat len) alphabet g1) as Hl.
  assert (Hne : alphabet <> []) by (unfold alphabet; discriminate).
  pose proof (choices_In (Z.to_nat len) alphabet Hne g1) as Hin.
  destruct (choices (Z.to_nat len) alphabet g1) as [cs g2].
  cbn [fst] in Hl, Hin. intros H. injection H as <- <-.
  split; [exact E|]. split; [|split].
  - rewrite Hl. destruct fixed_length.
    + injection Hlen as <- <-. lia.
    + rewrite Hlen in Hr. cbn [fst] in Hr. lia.
  - revert Hin. apply Forall_impl. intros c Hc. unfold alphabet in Hc.
    apply in_app_or in Hc as [Hc|Hc]; [left; exact Hc|].
    destruct include_invisible; [right; split; [reflexivity|exact Hc]|].
    destruct Hc.
  - intros ->. unfold alphabet in Hin. rewrite app_nil_r in Hin.
    pose proof base58_plain as Hp. rewrite Forall_forall in Hp.
    revert Hin. apply Forall_impl. exact Hp.
Qed.

End RandomStrings.

(* ================================================================= *)
(** ** The test team *)

Section TestTeam.
Import Py Mongo Database Main.

Lemma find_none_filter {A} (f : A -> bool) (l : list A) :
  find f l = None -> filter f l = [].
Proof.
  induction l as [|a l IH]; simpl; [reflexivity|].
  destruct (f a); [discriminate|exact IH].
Qed.

Lemma find_some_filter {A} (f : A -> bool) (l : list A) (x : A) :
  find f l = Some x -> (0 < List.length (filter f l))%nat.
Proof.
  induction l as [|a l IH]; simpl; [discriminate|].
  destruct (f a); [simpl; lia|exact IH].
Qed.

(** X20.  The [test] command returns, leaves a store that has a team
    [TEST_TEAM_ID], and never adds a second one: a store that has the
    team is left as it is, so that the command can be run again and
    again; a store without it gets exactly one. *)
Theorem test_command_once (w : world) :
  let w' := snd (test_command w) in
  fst (test_command w) = inr tt
  /\ count_teams (VStr TEST_TEAM_ID) w'
     = Nat.max 1 (count_teams (VStr TEST_TEAM_ID) w)
  /\ (count_teams (VStr TEST_TEAM_ID) w <> O -> w' = w)
  /\ is_team_exists (VStr TEST_TEAM_ID) w' = (inr true, w')
  /\ test_command w' = (inr tt, w').
Proof.
  unfold test_command, is_team_exists, get_team, find_one_, find_one,
    count_teams, create_team, count_documents, insert_one, bind, ret.
  cbv beta iota zeta.
  destruct (find (matches (by_team_id (VStr TEST_TEAM_ID))) (teams w))
    as [doc|] eqn:Hfind.
  - cbn [fst snd]. rewrite Hfind.
    pose proof (find_some_filter _ _ _ Hfind) as Hpos.
    repeat split; try reflexivity. lia.
  - cbn [fst snd teams clock].
    assert (Hself : matches (by_team_id (VStr TEST_TEAM_ID))
                      (new_team (Z.of_nat (List.length (teams w)))
                                TEST_TEAM_ID TEST_TEAM_NAME) = true)
      by (rewrite matches_new_team; reflexivity).
    change (if (TEST_TEAM_NAME =? "")%string
            then "Team - " ++ str_int (Z.of_nat (List.length (teams w)))
            else TEST_TEAM_NAME) with TEST_TEAM_NAME.
    rewrite find_app_last, Hfind, filter_app, (find_none_filter _ _ Hfind).
    cbn [filter app]. rewrite Hself. cbn [fst snd List.length].
    repeat split; try reflexivity. intros H. contradiction H. reflexivity.
Qed.

End TestTeam.

Section RandomSamples.
Import Random RandomString.
Local Open Scope Z_scope.

Lemma generate_random_string_shape_witness :
  exists chars g',
    generate_random_string (Some 10) None false true
                           (fun n => 7 * Z.of_nat n + 3)
    = (inr chars, g')
    /\ 1 <= 10
    /\ Z.of_nat (List.length chars) = Z.max 0 10
    /\ Forall (fun c => In c (code_points base58_alphabet)
                        \/ (false = true /\ In c invisible_characters)) chars
    /\ (false = false ->
        Forall (fun c => 0 < c < 128 /\ ~ In c look_alike) chars).
Proof.
  eexists. eexists. split; [reflexivity|].
  eapply (generate_random_string_shape (Some 10) None false true
            (fun n => 7 * Z.of_nat n + 3)).
  reflexivity.
Defined.

End RandomSamples.

(* ================================================================= *)
(** ** Issuing a question *)

Section Issuing.
Import Py Mongo Database Team AllChallenges Random RandomString RandomSequence.

Lemma fixed_length_string (n : Z) (include_invisible : bool) (g : rng) :
  (1 <= n)%Z ->
  exists chars,
    fst (generate_random_string (Some n) None include_invisible true g)
    = inr chars
    /\ List.length chars = Z.to_nat n.
Proof.
  intros Hn. unfold generate_random_string. cbn [bounds].
  replace (n <? 1)%Z with false by (symmetry; apply Z.ltb_ge; lia).
  match goal with
  | |- context [choices ?k ?a ?g0] =>
      pose proof (choices_length k a g0) as Hl;
      destruct (choices k a g0) as [chars g1]
  end.
  exists chars. split; [reflexivity|exact Hl].
Qed.

Lemma text_of_length (chars : list Z) :
  String.length (text_of chars) = List.length chars.
Proof.
  unfold text_of. induction chars as [|c r IH]; simpl; congruence.
Qed.

Lemma set_embedded (doc : dict) (k name : string) (v : value) :
  embedded doc k = true ->
  (k =? "")%string = false -> (name =? "")%string = false ->
  exists sub,
    update_path [k; name] (set_field v) doc
    = Some (dict_set doc k (VDict (dict_set sub name v))).
Proof.
  unfold embedded. intros He Hk Hn. cbn [update_path]. rewrite Hk, Hn.
  destruct (dict_get doc k) as [[| | | | |sub]|]; try discriminate.
  - exists sub. reflexivity.
  - exists []. reflexivity.
Qed.

Lemma team_schema_frame (doc doc' : dict) :
  (forall k, k <> "questions" -> k <> "data_to_validate" ->
             dict_get doc' k = dict_get doc k) ->
  team_schema doc' = team_schema doc.
Proof.
  intros F. unfold team_schema, has.
  rewrite !F by discriminate. reflexivity.
Qed.

(** What [gen_question] does for a team that has no question yet. *)
Lemma gen_question_fresh (w : world) (team_id : value) (doc : dict)
      (location : string) (g : rng) :
  find_one (by_team_id team_id) (teams w) = Some doc ->
  embedded doc "questions" = true ->
  embedded doc "data_to_validate" = true ->
  issued doc = false ->
  exists flag coll' doc' questions expected,
    gen_question location (inr tt) team_id g w
    = (inr (VStr location, VStr flag), World coll' (clock w))
    /\ String.length flag = 10%nat
    /\ find_one (by_team_id team_id) coll' = Some doc'
    /\ dict_get doc' "questions"
       = Some (VDict (dict_set questions "RandomSequence"
                               (VDict [("location", VStr location)])))
    /\ dict_get doc' "data_to_validate"
       = Some (VDict (dict_set expected "RandomSequence"
                               (VDict [("flag", VStr flag)])))
    /\ (forall k, k <> "questions" -> k <> "data_to_validate" ->
                  dict_get doc' k = dict_get doc k).
Proof.
  intros Hfind Hq Hd Hnot.
  destruct (fixed_length_string FLAG_LENGTH false g ltac:(unfold FLAG_LENGTH; lia))
    as (chars & Hgen & Hlen).
  set (flag := text_of chars).
  set (v1 := VDict [("location", VStr location)]).
  set (v2 := VDict [("flag", VStr flag)]).
  destruct (set_embedded doc "questions" "RandomSequence" v1 Hq eq_refl eq_refl)
    as [questions H1].
  set (doc1 := dict_set doc "questions"
                        (VDict (dict_set questions "RandomSequence" v1))) in *.
  assert (Hd1 : embedded doc1 "data_to_validate" = true).
  { unfold embedded, doc1. rewrite dict_get_set_other by reflexivity. exact Hd. }
  destruct (set_embedded doc1 "data_to_validate" "RandomSequence" v2 Hd1
              eq_refl eq_refl) as [expected H2].
  set (doc2 := dict_set doc1 "data_to_validate"
                        (VDict (dict_set expected "RandomSequence" v2))) in *.
  assert (Hframe : forall k, k <> "questions" -> k <> "data_to_validate" ->
                             dict_get doc2 k = dict_get doc k).
  { intros k Hk1 Hk2. unfold doc2, doc1.
    rewrite !dict_get_set_other by (apply String.eqb_neq; assumption).
    reflexivity. }
  assert (Hup : apply_update
                  [ Set_ "questions.RandomSequence" v1;
                    Set_ "data_to_validate.RandomSequence" v2 ] doc
                = Some doc2).
  { cbn [apply_update apply_op].
    change (split "." "questions.RandomSequence")
      with ["questions"; "RandomSequence"].
    change (split "." "data_to_validate.RandomSequence")
      with ["data_to_validate"; "RandomSequence"].
    rewrite H1. fold doc1. rewrite H2. reflexivity. }
  assert (Hm : matches (by_team_id team_id) doc2 = true).
  { rewrite (matches_team_id team_id doc doc2).
    - apply (find_one_matches _ _ _ Hfind).
    - apply Hframe; discriminate. }
  destruct (update_first_found _ _ _ _ _ Hfind Hup Hm) as (coll' & Hc & Hf).
  exists flag, coll', doc2, questions, expected.
  split; [|split; [|split; [exact Hf|split; [|split; [|exact Hframe]]]]].
  - unfold gen_question.
    rewrite (bind_ok _ _ w w (Some doc))
      by (unfold get_team, find_one_; rewrite Hfind; reflexivity).
    cbv beta iota zeta. fold (issued doc). rewrite Hnot.
    rewrite (bind_lift_ok _ _ _ chars Hgen).
    rewrite (bind_lift_ok _ _ _ tt eq_refl).
    unfold bind, update_one, ret. fold flag v1 v2. rewrite Hc. reflexivity.
  - unfold flag. rewrite text_of_length, Hlen. reflexivity.
  - unfold doc2. rewrite dict_get_set_other by reflexivity.
    unfold doc1. apply dict_get_set_same.
  - unfold doc2. apply dict_get_set_same.
Qed.




(** X22.  The flag [gen_question] issues is the answer [validate]
    accepts.  A team that has not cleared RandomSequence and has no
    question yet is issued a flag; a submission of that flag, with or
    without blanks around it, is then answered [success] with the points
    of the challenge. *)
Theorem issued_flag_is_accepted (self : all_challenges) (cid : string)
        (cls : challenge) (w : world) (team_id : value) (doc : dict)
        (location : string) (g : rng) :
  team_id <> VNone ->
  find_one (by_team_id team_id) (teams w) = Some doc ->
  assoc cid (challenges_id self) = Some "RandomSequence" ->
  assoc cid (challenges_classes self) = Some cls ->
  team_schema doc = true ->
  embedded doc "questions" = true ->
  embedded doc "data_to_validate" = true ->
  issued doc = false ->
  ~ In (VStr "RandomSequence") (cleared_challenges doc) ->
  exists flag w1,
    gen_question location (inr tt) team_id g w
    = (inr (VStr location, VStr flag), w1)
    /\ forall data answer,
         dict_get data "team_id" = Some team_id ->
         dict_get data "challenge_id" = Some (VStr cid) ->
         dict_get data "flag" = Some answer ->
         strip (py_str answer) = strip flag ->
         exists response w2,
           validate self data w1 = (inr response, w2)
           /\ field response "status" = VStr "success"
           /\ field response "points_awarded" = VInt (points cls)
           /\ field response "total_score"
              = VInt (total_points doc + points cls).
Proof.
  intros Hteam_id Hfind Hname Hcls Hschema Hq Hd Hi Hnot.
  destruct (gen_question_fresh w team_id doc location g Hfind Hq Hd Hi)
    as (flag & coll' & doc' & questions & expected
        & Hrun & _ & Hf & _ & Hd' & Hframe).
  exists flag, (World coll' (clock w)). split; [exact Hrun|].
  intros data answer Hdt Hdc Hflag Hstrip.
  assert (Hschema' : team_schema doc' = true)
    by (rewrite (team_schema_frame doc doc' Hframe); exact Hschema).
  assert (Hnot' : ~ In (VStr "RandomSequence") (cleared_challenges doc')).
  { unfold cleared_challenges in *. rewrite Hframe by discriminate. exact Hnot. }
  assert (Hexp : get_nested_value (VDict doc')
                   ("data_to_validate." ++ "RandomSequence") VNone
                 = VDict [("flag", VStr flag)]).
  { change (get_nested_loop ["data_to_validate"; "RandomSequence"]
                            (VDict doc') VNone = VDict [("flag", VStr flag)]).
    cbn [get_nested_loop]. unfold dict_get_default at 1. rewrite Hd'.
    unfold dict_get_default. rewrite dict_get_set_same. reflexivity. }
  assert (Hkeys : forall k, In k (dict_keys [("flag", VStr flag)]) ->
                            dict_mem data k = true).
  { intros k [<-|[]]. unfold dict_mem. cbn [fst]. rewrite Hflag. reflexivity. }
  assert (Hall : Forall (same_trimmed data) [("flag", VStr flag)]).
  { constructor; [|constructor].
    unfold same_trimmed, dict_get_default. cbn [fst snd py_str].
    rewrite Hflag. exact Hstrip. }
  destruct (validate_outcome self (World coll' (clock w)) team_id cid
              "RandomSequence" cls doc' Hteam_id Hf Hname Hcls Hschema'
              eq_refl data [("flag", VStr flag)] Hdt Hdc Hnot' Hexp
              ltac:(discriminate) Hkeys)
    as (coll'' & doc'' & _ & _ & _ & Hval).
  apply find_differs_none in Hall. rewrite Hall in Hval.
  eexists. eexists. split; [exact Hval|].
  split; [reflexivity|]. split; [reflexivity|].
  assert (Ht : total_points doc' = total_points doc).
  { unfold total_points, dict_get_default. rewrite Hframe by discriminate.
    reflexivity. }
  rewrite <- Ht. reflexivity.
Qed.

End Issuing.

Section IssuingSamples.
Import Py Mongo Database Team AllChallenges Random RandomString RandomSequence.


Lemma issued_flag_is_accepted_witness :
  exists flag w1,
    gen_question "files/RandomSequence_123" (inr tt) (VStr "123")
                 (fun n => (7 * Z.of_nat n + 3)%Z) Sample.fresh
    = (inr (VStr "files/RandomSequence_123", VStr flag), w1)
    /\ forall data answer,
         dict_get data "team_id" = Some (VStr "123") ->
         dict_get data "challenge_id" = Some (VStr "1") ->
         dict_get data "flag" = Some answer ->
         strip (py_str answer) = strip flag ->
         exists response w2,
           validate registry data w1 = (inr response, w2)
           /\ field response "status" = VStr "success"
           /\ field response "points_awarded" = VInt 50
           /\ field response "total_score" = VInt 50.
Proof.
  apply (issued_flag_is_accepted registry "1" random_sequence Sample.fresh
           (VStr "123") (Sample.team_of Sample.fresh)
           "files/RandomSequence_123" (fun n => (7 * Z.of_nat n + 3)%Z));
    [discriminate|reflexivity|reflexivity|reflexivity|reflexivity
    |reflexivity|reflexivity|reflexivity|intros []].
Defined.

End IssuingSamples.

(* ================================================================= *)
(** ** The hexadecimal form of a text *)

Section HexFacts.
Import Py Hex.
Local Open Scope Z_scope.

Lemma hex_digit_value (d : N) :
  (d < 16)%N -> hex_value (hex_digit d) = Some (Z.of_N d).
Proof.
  intros Hd.
  assert (H : forallb (fun i => match hex_value (hex_digit (N.of_nat i)) with
                                | Some v => v =? Z.of_nat i
                                | None => false
                                end) (seq 0 16) = true)
    by (vm_compute; reflexivity).
  rewrite forallb_forall in H. specialize (H (N.to_nat d)).
  rewrite N2Nat.id in H.
  destruct (hex_value (hex_digit d)) as [v|].
  - f_equal. rewrite <- (N2Nat.id d), nat_N_Z. apply Z.eqb_eq, H.
    apply in_seq. lia.
  - assert (false = true); [|discriminate]. apply H. apply in_seq. lia.
Qed.

(** A hexadecimal digit is no blank, no sign, no underscore and no [x]. *)
Lemma hex_char_plain (c : ascii) (d : Z) :
  hex_value c = Some d ->
  is_blank c = false /\ Ascii.eqb c "+" = false /\ Ascii.eqb c "-" = false
  /\ Ascii.eqb c "_" = false /\ Ascii.eqb c "x" = false
  /\ Ascii.eqb c "X" = false /\ Ascii.eqb c " " = false.
Proof.
  intros Hc.
  assert (H : forallb
                (fun i =>
                   let a := ascii_of_nat i in
                   match hex_value a with
                   | Some _ =>
                       negb (is_blank a) && negb (Ascii.eqb a "+")
                       && negb (Ascii.eqb a "-") && negb (Ascii.eqb a "_")
                       && negb (Ascii.eqb a "x") && negb (Ascii.eqb a "X")
                       && negb (Ascii.eqb a " ")
                   | None => true
                   end) (seq 0 256) = true)
    by (vm_compute; reflexivity).
  rewrite forallb_forall in H. specialize (H (nat_of_ascii c)).
  cbv zeta in H. rewrite ascii_nat_embedding, Hc in H.
  assert (Hin : In (nat_of_ascii c) (seq 0 256)).
  { apply in_seq. pose proof (nat_ascii_bounded c). lia. }
  specialize (H Hin).
  repeat (apply andb_true_iff in H as [H ?]).
  repeat split; apply negb_true_iff; assumption.
Qed.

Lemma append_nil_r (s : string) : (s ++ "")%string = s.
Proof. induction s as [|c r IH]; simpl; congruence. Qed.

Lemma append_assoc (a b c : string) :
  ((a ++ b) ++ c)%string = (a ++ b ++ c)%string.
Proof. induction a as [|x r IH]; simpl; congruence. Qed.

Lemma all_hex_app (a b : string) :
  all_hex a = true -> all_hex b = true -> all_hex (a ++ b) = true.
Proof.
  intros Ha Hb. induction a as [|c r IH]; simpl in *; [exact Hb|].
  destruct (hex_value c); [apply IH, Ha|discriminate].
Qed.

Lemma value_from_app (a b : string) :
  all_hex a = true ->
  forall num, value_from num (a ++ b) = value_from (value_from num a) b.
Proof.
  induction a as [|c r IH]; simpl; intros Ha num; [reflexivity|].
  destruct (hex_value c); [apply IH, Ha|discriminate].
Qed.

Lemma length_append (a b : string) :
  String.length (a ++ b) = (String.length a + String.length b)%nat.
Proof. induction a as [|c r IH]; simpl; congruence. Qed.

(** The loop of [hex_of] puts the digits of [n] before [digits]. *)
Lemma hex_loop_digits (fuel : nat) :
  forall n digits,
    (n < 2 ^ N.of_nat fuel)%N ->
    exists ds,
      hex_loop fuel n digits = (ds ++ digits)%string
      /\ all_hex ds = true
      /\ (forall num, value_from num ds
                      = num * 16 ^ Z.of_nat (String.length ds) + Z.of_N n)
      /\ (n <> 0%N -> ds <> ""%string).
Proof.
  induction fuel as [|fuel IH]; intros n digits Hn.
  - simpl in Hn. assert (n = 0%N) as -> by lia.
    exists ""%string. repeat split; simpl; lia.
  - cbn [hex_loop]. destruct (n =? 0)%N eqn:E.
    + apply N.eqb_eq in E. subst n.
      exists ""%string. repeat split; simpl; lia.
    + apply N.eqb_neq in E.
      assert (Hq : (n / 16 < 2 ^ N.of_nat fuel)%N).
      { rewrite Nat2N.inj_succ, N.pow_succ_r' in Hn.
        apply N.Div0.div_lt_upper_bound. lia. }
      destruct (IH (n / 16)%N (String (hex_digit (n mod 16)) digits) Hq)
        as (ds & Hrun & Hall & Hval & _).
      assert (Hd : hex_value (hex_digit (n mod 16))
                   = Some (Z.of_N (n mod 16)))
        by (apply hex_digit_value, N.mod_lt; lia).
      exists (ds ++ String (hex_digit (n mod 16)) "")%string.
      split; [rewrite Hrun, append_assoc; reflexivity|].
      split; [apply all_hex_app; [exact Hall|simpl; rewrite Hd; reflexivity]|].
      split.
      * intros num. rewrite (value_from_app _ _ Hall), Hval.
        cbn [value_from]. rewrite Hd. cbn [value_from].
        rewrite length_append. cbn [String.length].
        rewrite Nat2Z.inj_add, Z.pow_add_r by lia.
        change (Z.of_nat 1) with 1. rewrite Z.pow_1_r.
        rewrite N2Z.inj_div, N2Z.inj_mod.
        change (Z.of_N 16) with 16.
        pose proof (Z.div_mod (Z.of_N n) 16 ltac:(lia)). lia.
      * intros _. destruct ds; discriminate.
Qed.

Lemma hex_of_digits (n : N) :
  exists c r,
    hex_of n = String c r
    /\ all_hex (String c r) = true
    /\ value_from 0 (String c r) = Z.of_N n.
Proof.
  unfold hex_of. destruct (n =? 0)%N eqn:E.
  - apply N.eqb_eq in E. subst n. exists "0"%char, ""%string.
    repeat split; reflexivity.
  - apply N.eqb_neq in E.
    destruct (hex_loop_digits (S (N.to_nat (N.log2 n))) n "")
      as (ds & Hrun & Hall & Hval & Hne).
    { rewrite Nat2N.inj_succ, N2Nat.id. apply N.log2_spec. lia. }
    rewrite append_nil_r in Hrun. specialize (Hne E).
    destruct ds as [|c r]; [contradiction|].
    exists c, r. split; [exact Hrun|]. split; [exact Hall|].
    rewrite Hval. lia.
Qed.

Lemma scan_hex (s : string) :
  all_hex s = true ->
  forall num previous,
    s <> ""%string \/ previous = Some false ->
    scan s num previous = Some (value_from num s, ""%string).
Proof.
  induction s as [|c r IH]; intros Hs num previous Hp.
  - destruct Hp as [Hp| ->]; [contradiction|reflexivity].
  - cbn [scan value_from]. cbn [all_hex] in Hs.
    destruct (hex_value c) as [d|] eqn:Hc; [|discriminate].
    destruct (hex_char_plain c d Hc) as (_ & _ & _ & -> & _).
    apply (IH Hs). right. reflexivity.
Qed.

Lemma int16_hex (c : ascii) (r : string) :
  all_hex (String c r) = true ->
  int16 (String c r) = inr (value_from 0 (String c r)).
Proof.
  intros Hs. pose proof Hs as Hs'. cbn [all_hex] in Hs'.
  destruct (hex_value c) as [d|] eqn:Hc; [|discriminate].
  destruct (hex_char_plain c d Hc) as (Hb & Hplus & Hminus & Hus & _).
  unfold int16. cbn [skip_blanks]. rewrite Hb.
  cbn [skip_sign]. rewrite Hplus, Hminus.
  assert (Hp : skip_prefix (String c r) = String c r).
  { destruct r as [|x r']; [reflexivity|]. cbn [skip_prefix].
    cbn [all_hex] in Hs'.
    destruct (hex_value x) as [dx|] eqn:Hx; [|discriminate].
    destruct (hex_char_plain x dx Hx) as (_ & _ & _ & _ & -> & -> & _).
    rewrite andb_false_r. reflexivity. }
  rewrite Hp, Hus.
  rewrite (scan_hex _ Hs 0 None) by (left; discriminate).
  cbn [skip_blanks]. f_equal. lia.
Qed.

Lemma int16_hex_of (n : N) : int16 (hex_of n) = inr (Z.of_N n).
Proof.
  destruct (hex_of_digits n) as (c & r & -> & Hall & Hval).
  rewrite (int16_hex c r Hall), Hval. reflexivity.
Qed.

Lemma all_hex_no_space (s : string) :
  all_hex s = true -> has_char " " s = false.
Proof.
  induction s as [|c r IH]; simpl; intros Hs; [reflexivity|].
  destruct (hex_value c) as [d|] eqn:Hc; [|discriminate].
  destruct (hex_char_plain c d Hc) as (_ & _ & _ & _ & _ & _ & ->).
  apply (IH Hs).
Qed.

Lemma hex_of_no_space (n : N) : has_char " " (hex_of n) = false.
Proof.
  destruct (hex_of_digits n) as (c & r & -> & Hall & _).
  apply all_hex_no_space, Hall.
Qed.

Lemma split_join (parts : list string) :
  parts <> [] ->
  Forall (fun p => has_char " " p = false) parts ->
  split " " (join " " parts) = parts.
Proof.
  intros Hne H. induction H as [|p rest Hp Hrest IH]; [contradiction|].
  destruct rest as [|q rest'].
  - cbn [join]. apply split_no_sep, Hp.
  - change (join " " (p :: q :: rest'))
      with (p ++ String " " (join " " (q :: rest')))%string.
    rewrite (split_cons _ _ _ Hp). f_equal. apply IH. discriminate.
Qed.

Lemma chr_code_point (c : N) :
  (c < 1114112)%N -> chr (Z.of_N c) = inr c.
Proof.
  intros Hc. unfold chr.
  replace (Z.of_N c <? - 2 ^ 31) with false by (symmetry; apply Z.ltb_ge; lia).
  replace (2 ^ 31 <=? Z.of_N c) with false by (symmetry; apply Z.leb_gt; lia).
  replace (Z.of_N c <? 0) with false by (symmetry; apply Z.ltb_ge; lia).
  replace (1114112 <=? Z.of_N c) with false by (symmetry; apply Z.leb_gt; lia).
  cbn [orb]. rewrite N2Z.id. reflexivity.
Qed.

(** X23.  [hex_to_text] after [text_to_hex] gives a text back, unless
    the text is empty: its hexadecimal form is the empty string, whose
    one empty piece [int] refuses with a [ValueError]. *)
Theorem hex_to_text_text_to_hex (text : list N) :
  Forall (fun c => (c < 1114112)%N) text ->
  hex_to_text (text_to_hex text)
  = match text with
    | [] => inl Base69.ValueError
    | _ :: _ => inr text
    end.
Proof.
  intros Hall. destruct text as [|c0 rest0]; [reflexivity|].
  unfold hex_to_text, text_to_hex.
  rewrite split_join.
  - induction Hall as [|c rest Hc _ IH]; [reflexivity|].
    cbn [map Base69.each]. rewrite int16_hex_of, (chr_code_point c Hc), IH.
    reflexivity.
  - discriminate.
  - apply Forall_map. apply Forall_forall. intros c _. apply hex_of_no_space.
Qed.

End HexFacts.

Section HexSamples.
Import Hex.

Lemma hex_to_text_text_to_hex_witness :
  Forall (fun c => (c < 1114112)%N) [102%N; 108%N; 0%N; 8203%N; 1114111%N]
  /\ text_to_hex [102%N; 108%N; 0%N; 8203%N; 1114111%N] = "66 6c 0 200b 10ffff"
  /\ hex_to_text "66 6c 0 200b 10ffff"
     = inr [102%N; 108%N; 0%N; 8203%N; 1114111%N].
Proof.
  assert (H : Forall (fun c => (c < 1114112)%N)
                     [102%N; 108%N; 0%N; 8203%N; 1114111%N])
    by (repeat constructor).
  split; [exact H|]. split; [reflexivity|].
  apply (hex_to_text_text_to_hex [102%N; 108%N; 0%N; 8203%N; 1114111%N] H).
Defined.

End HexSamples.

(* ================================================================= *)
(** ** Loading the teams of a CSV file *)

Section LoadCsv.
Import Py Mongo Database Main.

Variable uuids : nat -> string.
Hypothesis uuids_distinct : forall i j, uuids i = uuids j -> i = j.

Lemma count_teams_find (v : value) (w : world) :
  count_teams v w = O <-> find_one (by_team_id v) (teams w) = None.
Proof.
  unfold count_teams, find_one. split.
  - intros H. destruct (find _ (teams w)) eqn:E; [|reflexivity].
    apply find_some_filter in E. lia.
  - intros H. rewrite (find_none_filter _ _ H). reflexivity.
Qed.

Lemma is_team_exists_count (v : value) (w : world) :
  is_team_exists v w = (inr (negb (count_teams v w =? 0)%nat), w).
Proof.
  unfold is_team_exists, bind, get_team, find_one_, ret.
  destruct (find_one (by_team_id v) (teams w)) eqn:E.
  - assert (count_teams v w <> O) by (rewrite count_teams_find; congruence).
    replace (count_teams v w =? 0)%nat with false
      by (symmetry; apply Nat.eqb_neq; assumption).
    reflexivity.
  - apply count_teams_find in E. rewrite E. reflexivity.
Qed.

(** The id a team document is stored under. *)
Lemma matches_key (s : string) (doc : dict) :
  matches (by_team_id (VStr s)) doc = true ->
  dict_get_default doc "team_id" VNone = VStr s.
Proof.
  unfold matches, by_team_id, dict_get_default. cbn [forallb fst snd].
  rewrite andb_true_r.
  destruct (dict_get doc "team_id") as [v|]; [|discriminate].
  apply value_eqb_str.
Qed.

(** Identifiers of the sequence that are all taken are no more than the
    teams. *)
Lemma taken_bound (k : nat) (w : world) :
  (forall i, (i < k)%nat -> count_teams (VStr (uuids i)) w <> O) ->
  (k <= List.length (teams w))%nat.
Proof.
  intros Htaken.
  set (key := fun doc : dict => dict_get_default doc "team_id" VNone).
  set (drawn := map (fun i => VStr (uuids i)) (seq 0 k)).
  assert (Hnd : NoDup drawn).
  { unfold drawn. apply Finite.Injective_map_NoDup; [|apply seq_NoDup].
    intros i j H. injection H as H. apply uuids_distinct, H. }
  assert (Hincl : incl drawn (map key (teams w))).
  { intros v Hv. unfold drawn in Hv. apply in_map_iff in Hv as (i & <- & Hi).
    apply in_seq in Hi. specialize (Htaken i ltac:(lia)).
    unfold count_teams in Htaken.
    destruct (filter (matches (by_team_id (VStr (uuids i)))) (teams w))
      as [|doc rest] eqn:E; [contradiction|].
    assert (Hdoc : In doc (filter (matches (by_team_id (VStr (uuids i))))
                                  (teams w)))
      by (rewrite E; left; reflexivity).
    apply filter_In in Hdoc as [Hin Hm].
    apply in_map_iff. exists doc. split; [|exact Hin].
    apply matches_key, Hm. }
  pose proof (NoDup_incl_length Hnd Hincl) as Hlen.
  unfold drawn in Hlen. rewrite !length_map, length_seq in Hlen. exact Hlen.
Qed.

Lemma generate_unique_id_returns (fuel : nat) :
  forall k w,
    (forall i, (i < k)%nat -> count_teams (VStr (uuids i)) w <> O) ->
    (List.length (teams w) < k + fuel)%nat ->
    exists k',
      generate_unique_id fuel uuids k w = (inr (Some (uuids k', S k')), w)
      /\ count_teams (VStr (uuids k')) w = O
      /\ (forall i, (i < k')%nat -> count_teams (VStr (uuids i)) w <> O).
Proof.
  induction fuel as [|fuel IH]; intros k w Htaken Hlen.
  - pose proof (taken_bound k w Htaken). lia.
  - cbn [generate_unique_id].
    rewrite (bind_ok _ _ w w _ (is_team_exists_count _ w)).
    destruct (count_teams (VStr (uuids k)) w =? 0)%nat eqn:E.
    + apply Nat.eqb_eq in E. exists k. cbn [negb].
      split; [reflexivity|]. split; [exact E|exact Htaken].
    + apply Nat.eqb_neq in E. cbn [negb].
      apply IH; [|lia].
      intros i Hi. destruct (Nat.eq_dec i k) as [->|Hne]; [exact E|].
      apply Htaken. lia.
Qed.

Lemma create_team_counts (w : world) (team_id team_name : string) :
  exists doc,
    create_team team_id (Some team_name) w
    = (inr team_id, World (teams w ++ [doc]) (clock w))
    /\ forall other,
         count_teams (VStr other) (World (teams w ++ [doc]) (clock w))
         = (count_teams (VStr other) w
            + if (team_id =? other)%string then 1 else 0)%nat.
Proof.
  unfold create_team, bind, count_documents, insert_one, ret.
  cbv beta iota zeta. eexists. split; [reflexivity|].
  intros other. unfold count_teams. cbn [teams].
  rewrite filter_app, length_app. f_equal.
  cbn [filter]. rewrite matches_new_team. cbn [value_eqb].
  destruct (team_id =? other)%string; reflexivity.
Qed.

Lemma standing_created (k : nat) (w : world) (doc : dict) (team_id : string) :
  standing uuids k w ->
  count_teams (VStr team_id) w = O ->
  (forall other,
      count_teams (VStr other) (World (teams w ++ [doc]) (clock w))
      = (count_teams (VStr other) w
         + if (team_id =? other)%string then 1 else 0)%nat) ->
  standing uuids k (World (teams w ++ [doc]) (clock w))
  /\ count_teams (VStr team_id) (World (teams w ++ [doc]) (clock w)) = 1%nat.
Proof.
  intros [Htaken Hone] Hzero Hcount. split; [split|].
  - intros i Hi. rewrite Hcount. specialize (Htaken i Hi). lia.
  - intros id. rewrite Hcount. destruct (team_id =? id)%string eqn:E.
    + apply String.eqb_eq in E. subst id. lia.
    + specialize (Hone id). lia.
  - rewrite Hcount, String.eqb_refl. lia.
Qed.

(** Creating the team of a freshly generated identifier. *)
Lemma generate_then_create (fuel k : nat) (w : world) (team_name : string) :
  standing uuids k w ->
  (List.length (teams w) < fuel)%nat ->
  exists id k' doc,
    (generated <- generate_unique_id fuel uuids k ;;
     ret (option_map (fun g => (@None string, fst g, snd g)) generated)) w
    = (inr (Some (None, id, k')), w)
    /\ create_team id (Some team_name) w
       = (inr id, World (teams w ++ [doc]) (clock w))
    /\ standing uuids k' (World (teams w ++ [doc]) (clock w))
    /\ count_teams (VStr id) (World (teams w ++ [doc]) (clock w)) = 1%nat.
Proof.
  intros Hst Hlen. pose proof Hst as [Htaken Hone].
  destruct (generate_unique_id_returns fuel k w Htaken ltac:(lia))
    as (k' & Hgen & Hzero & Htaken').
  destruct (create_team_counts w (uuids k') team_name) as (doc & Hrun & Hcount).
  exists (uuids k'), (S k'), doc.
  split; [rewrite (bind_ok _ _ w w _ Hgen); reflexivity|].
  split; [exact Hrun|].
  destruct (standing_created k' w doc (uuids k') (conj Htaken' Hone) Hzero Hcount)
    as [[Ht Ho] Hc].
  split; [split; [|exact Ho]|exact Hc].
  intros i Hi. destruct (Nat.eq_dec i k') as [->|Hne].
  - rewrite Hc. discriminate.
  - apply Ht. lia.
Qed.

Lemma load_row_returns (fuel k : nat) (w : world) (row : string * string) :
  standing uuids k w ->
  (List.length (teams w) < fuel)%nat ->
  exists id k' w' added,
    load_row fuel uuids k row w = (inr (Some (id, k')), w')
    /\ standing uuids k' w'
    /\ count_teams (VStr id) w' = 1%nat
    /\ teams w' = (teams w ++ added)%list
    /\ (List.length added <= 1)%nat.
Proof.
  intros Hst Hlen. destruct row as [team_name team_id].
  unfold load_row. cbn [fst snd].
  destruct (team_id =? "nan")%string.
  - destruct (generate_then_create fuel k w team_name Hst Hlen)
      as (id & k' & doc & Hdec & Hrun & Hst' & Hc).
    exists id, k', (World (teams w ++ [doc]) (clock w)), [doc].
    rewrite (bind_ok _ _ w w _ Hdec). cbv beta iota.
    rewrite (bind_ok _ _ _ _ _ Hrun).
    split; [reflexivity|]. split; [exact Hst'|]. split; [exact Hc|].
    split; [reflexivity|simpl; lia].
  - assert (Hget : get_team (VStr team_id) w
                   = (inr (find_one (by_team_id (VStr team_id)) (teams w)), w))
      by reflexivity.
    unfold bind at 1. rewrite (bind_ok _ _ w w _ Hget).
    destruct (find_one (by_team_id (VStr team_id)) (teams w)) as [doc|] eqn:Hfind.
    + assert (Hm := find_one_matches _ _ _ Hfind).
      assert (Hdoc : truthy (VDict doc) = true).
      { destruct doc; [discriminate Hm|reflexivity]. }
      rewrite Hdoc. cbn [negb].
      destruct (value_eqb (dict_get_default doc "team_name" VNone)
                          (VStr team_name)).
      * cbn [negb]. unfold ret. cbv beta iota.
        exists team_id, k, w, [].
        split; [reflexivity|]. split; [exact Hst|].
        split; [|split; [rewrite app_nil_r; reflexivity|simpl; lia]].
        destruct Hst as [_ Hone]. specialize (Hone team_id).
        assert (count_teams (VStr team_id) w <> O)
          by (rewrite count_teams_find; congruence).
        lia.
      * cbn [negb].
        destruct (generate_then_create fuel k w team_name Hst Hlen)
          as (id & k' & doc' & Hdec & Hrun & Hst' & Hc).
        exists id, k', (World (teams w ++ [doc']) (clock w)), [doc'].
        rewrite Hdec. cbv beta iota.
        rewrite (bind_ok _ _ _ _ _ Hrun).
        split; [reflexivity|]. split; [exact Hst'|]. split; [exact Hc|].
        split; [reflexivity|simpl; lia].
    + destruct (create_team_counts w team_id team_name) as (doc & Hrun & Hcount).
      apply count_teams_find in Hfind.
      destruct (standing_created k w doc team_id Hst Hfind Hcount) as [Hst' Hc].
      exists team_id, k, (World (teams w ++ [doc]) (clock w)), [doc].
      unfold ret at 1. cbv beta iota.
      rewrite (bind_ok _ _ _ _ _ Hrun).
      split; [reflexivity|]. split; [exact Hst'|]. split; [exact Hc|].
      split; [reflexivity|simpl; lia].
Qed.

Lemma count_teams_app (v : value) (w w' : world) (added : list dict) :
  teams w' = (teams w ++ added)%list ->
  (count_teams v w <= count_teams v w')%nat.
Proof.
  intros H. unfold count_teams. rewrite H, filter_app, length_app. lia.
Qed.

Lemma load_rows_returns (fuel : nat) (rows : list (string * string)) :
  forall k w,
    standing uuids k w ->
    (List.length (teams w) + List.length rows <= fuel)%nat ->
    exists ids k' w' added,
      load_rows fuel uuids k rows w = (inr (Some ids), w')
      /\ standing uuids k' w'
      /\ List.length ids = List.length rows
      /\ teams w' = (teams w ++ added)%list
      /\ (List.length added <= List.length rows)%nat
      /\ Forall (fun id => count_teams (VStr id) w' = 1%nat) ids.
Proof.
  induction rows as [|row rest IH]; intros k w Hst Hlen.
  - exists [], k, w, []. cbn [load_rows]. unfold ret.
    split; [reflexivity|]. split; [exact Hst|]. split; [reflexivity|].
    split; [rewrite app_nil_r; reflexivity|]. split; [simpl; lia|constructor].
  - cbn [List.length] in Hlen.
    destruct (load_row_returns fuel k w row Hst ltac:(lia))
      as (id & k1 & w1 & added1 & Hrow & Hst1 & Hc1 & Ht1 & Hl1).
    assert (Hlen1 : (List.length (teams w1) + List.length rest <= fuel)%nat)
      by (rewrite Ht1, length_app; lia).
    destruct (IH k1 w1 Hst1 Hlen1)
      as (ids & k' & w' & added & Hrest & Hst' & Hli & Ht & Hl & Hall).
    exists (id :: ids), k', w', (added1 ++ added)%list.
    cbn [load_rows]. rewrite (bind_ok _ _ _ _ _ Hrow). cbv beta iota.
    rewrite (bind_ok _ _ _ _ _ Hrest).
    split; [reflexivity|]. split; [exact Hst'|].
    split; [cbn [List.length]; congruence|].
    split; [rewrite Ht, Ht1, app_assoc; reflexivity|].
    split; [rewrite length_app; cbn [List.length]; lia|].
    constructor; [|exact Hall].
    pose proof (count_teams_app (VStr id) w1 w' added Ht).
    destruct Hst' as [_ Hone]. specialize (Hone id). lia.
Qed.

(** X24.  [load_csv_data] gives no id to two teams.  On a store where
    no id is that of two teams, with identifiers from [uuid4] that do
    not repeat, it returns (every search for an unused identifier ends
    within as many draws as there are teams, plus one), it only adds
    teams, at most one for a row, and afterwards still no id is that of
    two teams, and every row has the id of exactly one team. *)
Theorem load_csv_data_unique_ids (fuel : nat) (rows : list (string * string))
        (w : world) :
  (forall id, (count_teams (VStr id) w <= 1)%nat) ->
  (List.length (teams w) + List.length rows <= fuel)%nat ->
  exists ids w' added,
    load_csv_data fuel uuids rows w = (inr (Some ids), w')
    /\ List.length ids = List.length rows
    /\ teams w' = (teams w ++ added)%list
    /\ (List.length added <= List.length rows)%nat
    /\ (forall id, (count_teams (VStr id) w' <= 1)%nat)
    /\ Forall (fun id => count_teams (VStr id) w' = 1%nat) ids.
Proof.
  intros Hone Hlen.
  assert (Hst : standing uuids 0 w) by (split; [intros i Hi; lia|exact Hone]).
  destruct (load_rows_returns fuel rows 0 w Hst Hlen)
    as (ids & k' & w' & added & Hrun & [_ Hone'] & Hli & Ht & Hl & Hall).
  exists ids, w', added. repeat split; assumption.
Qed.

End LoadCsv.

Section LoadCsvSamples.
Import Py Mongo Database Main.

Lemma tally_length (n : nat) : String.length (tally n) = S n.
Proof. induction n as [|n IH]; simpl; congruence. Qed.

Lemma tally_distinct (i j : nat) : tally i = tally j -> i = j.
Proof.
  intros H. apply (f_equal String.length) in H.
  rewrite !tally_length in H. congruence.
Qed.

Lemma load_csv_data_unique_ids_witness :
  exists ids w' added,
    load_csv_data 5 tally
                  [ ("Anubis", "nan"); ("Team Test", "123");
                    ("Bastet", "123"); ("Chons", "c") ] Sample.fresh
    = (inr (Some ids), w')
    /\ List.length ids = 4%nat
    /\ teams w' = (teams Sample.fresh ++ added)%list
    /\ (List.length added <= 4)%nat
    /\ (forall id, (count_teams (VStr id) w' <= 1)%nat)
    /\ Forall (fun id => count_teams (VStr id) w' = 1%nat) ids.
Proof.
  apply (load_csv_data_unique_ids tally tally_distinct 5
           [ ("Anubis", "nan"); ("Team Test", "123");
             ("Bastet", "123"); ("Chons", "c") ] Sample.fresh).
  - intros id. unfold count_teams.
    apply (Nat.le_trans _ _ _ (filter_length_le _ _)). simpl. lia.
  - simpl. lia.
Defined.

End LoadCsvSamples.
